(** * DataFloorPhotoXY: the partitioned floor-photo loader

    A shallow embedding of
    [MLStructFP_benchmarks/ml/model/architectures/_data_floor_photo_xy.py]:
    the manifest parser [_load_photo_parts], the structural comparison
    [_is_dict_equal], the part loader [load_part] / [_load_data_part] and the
    session hashing [_get_file_hash] / [save_session] / [load_session];
    then the constructor [__init__] with the two getters, [update_session],
    [load_floor_photo_data_from_session], and the row look-up of the two
    plotting methods (what they show, not how it is drawn).

    Python exceptions are values of [Py.exn]; a function that may raise
    returns a [Py.result].  Dictionaries are insertion-ordered association
    lists, since the code iterates over [keys()].  numpy, cv2, json and
    hashlib are libraries used by the module and are modelled by what the
    code relies on. *)

From Stdlib Require Import ZArith List String Ascii Bool Lia Arith.
From Stdlib Require Import Permutation DecimalString DecimalZ.
Import ListNotations.

Set Warnings "-register-all".

Local Open Scope string_scope.
Local Open Scope list_scope.
Local Open Scope Z_scope.

(* ================================================================== *)
(** * Python runtime fragments *)
(* ================================================================== *)

Module Py.

(** Exceptions the module can raise. *)
Inductive exn : Type :=
| AssertionError (msg : string)
| ValueError (msg : string)
| IndexError
| KeyError
| FileNotFoundError (path : string).

Inductive result (A : Type) : Type :=
| Ok (a : A)
| Raise (e : exn).
Arguments Ok {A} a.
Arguments Raise {A} e.

Definition bind {A B} (m : result A) (k : A -> result B) : result B :=
  match m with
  | Ok a => k a
  | Raise e => Raise e
  end.

(** [assert cond, msg] *)
Definition assert_ (cond : bool) (msg : string) : result unit :=
  if cond then Ok tt else Raise (AssertionError msg).

Declare Scope py_scope.
Delimit Scope py_scope with py.
Notation "x <- m ;; k" := (bind m (fun x => k))
  (at level 61, m at next level, right associativity) : py_scope.
Notation "m ;;; k" := (bind m (fun _ => k))
  (at level 61, right associativity) : py_scope.
Local Open Scope py_scope.

(** ** Sequences *)

(** [xs[i]] on a list, with Python's wrap-around of negative indices. *)
Definition py_index {A} (xs : list A) (i : Z) : result A :=
  let n := Z.of_nat (List.length xs) in
  let j := if i <? 0 then i + n else i in
  if (0 <=? j) && (j <? n) then
    match nth_error xs (Z.to_nat j) with
    | Some a => Ok a
    | None => Raise IndexError
    end
  else Raise IndexError.

(** [range(a, b)] *)
Definition py_range (a b : Z) : list Z :=
  map (fun k => a + Z.of_nat k) (seq 0 (Z.to_nat (b - a))).

(** [for x in xs: body] threading a state through a body that may raise. *)
Fixpoint for_each {A S} (body : S -> A -> result S) (xs : list A) (s : S)
  : result S :=
  match xs with
  | [] => Ok s
  | x :: tl => s' <- body s x ;; for_each body tl s'
  end.

(** [[f(x) for x in xs]], stopping at the first exception. *)
Fixpoint map_r {A B} (f : A -> result B) (xs : list A) : result (list B) :=
  match xs with
  | [] => Ok []
  | x :: tl => y <- f x ;; ys <- map_r f tl ;; Ok (y :: ys)
  end.

(** ** Strings *)

(** [str.isspace] on the ASCII range. *)
Definition is_space (c : ascii) : bool :=
  let n := nat_of_ascii c in
  ((9 <=? n) && (n <=? 13) || (28 <=? n) && (n <=? 32))%nat.

Definition is_digit (c : ascii) : bool :=
  let n := nat_of_ascii c in ((48 <=? n) && (n <=? 57))%nat.

Definition digit_val (c : ascii) : Z := Z.of_nat (nat_of_ascii c - 48).

Fixpoint lstrip (s : string) : string :=
  match s with
  | EmptyString => EmptyString
  | String c s' => if is_space c then lstrip s' else s
  end.

Fixpoint rstrip (s : string) : string :=
  match s with
  | EmptyString => EmptyString
  | String c s' =>
      match rstrip s' with
      | EmptyString => if is_space c then EmptyString else String c EmptyString
      | r => String c r
      end
  end.

(** [s.strip()] *)
Definition strip (s : string) : string := rstrip (lstrip s).

(** [sub in s] *)
Fixpoint contains (sub s : string) : bool :=
  String.prefix sub s ||
  match s with
  | EmptyString => false
  | String _ s' => contains sub s'
  end.

(** [a] occurs in [s]. *)
Definition substr (a s : string) : Prop := exists p q, s = (p ++ a ++ q)%string.

(** [s.split(sep)] for a non-empty separator: cut at every occurrence of
    [sep], scanning from the left; [skip] counts the characters of a matched
    separator still to be passed over. *)
Fixpoint split_go (sep : string) (skip : nat) (s : string) : list string :=
  match s with
  | EmptyString => [EmptyString]
  | String c s' =>
      match skip with
      | S k => split_go sep k s'
      | O =>
          if String.prefix sep s
          then EmptyString :: split_go sep (String.length sep - 1) s'
          else match split_go sep 0 s' with
               | h :: t => String c h :: t
               | [] => [String c EmptyString]
               end
      end
  end.

Definition split (sep s : string) : list string := split_go sep 0 s.

(** Digits of a decimal literal, single underscores allowed between
    digits; [prev] tells whether the previous character was a digit. *)
Fixpoint int_digits (acc : Z) (prev : bool) (s : string) : option Z :=
  match s with
  | EmptyString => if prev then Some acc else None
  | String c s' =>
      if is_digit c then int_digits (10 * acc + digit_val c) true s'
      else if (Ascii.eqb c "_") && prev then int_digits acc false s'
      else None
  end.

(** [int(s)]: surrounding whitespace, an optional sign, decimal digits. *)
Definition py_int (s : string) : result Z :=
  let t := strip s in
  let r :=
    match t with
    | String "-" d => option_map Z.opp (int_digits 0 false d)
    | String "+" d => int_digits 0 false d
    | _ => int_digits 0 false t
    end in
  match r with
  | Some z => Ok z
  | None => Raise (ValueError "invalid literal for int() with base 10")
  end.

(** [str(n)] for an integer. *)
Definition py_str_int (n : Z) : string := NilZero.string_of_int (Z.to_int n).

(** ** Dictionaries: insertion-ordered, one entry per key *)

Section Dict.
Context {K V : Type} (keqb : K -> K -> bool).

Definition dict : Type := list (K * V).

Definition dict_keys (d : dict) : list K := map fst d.

Fixpoint dict_find (d : dict) (k : K) : option V :=
  match d with
  | [] => None
  | (k', v) :: tl => if keqb k k' then Some v else dict_find tl k
  end.

(** [d[k]] *)
Definition dict_get (d : dict) (k : K) : result V :=
  match dict_find d k with
  | Some v => Ok v
  | None => Raise KeyError
  end.

(** [d[k] = v]: an existing key keeps its place, a new one goes last. *)
Fixpoint dict_set (d : dict) (k : K) (v : V) : dict :=
  match d with
  | [] => [(k, v)]
  | (k', v') :: tl =>
      if keqb k k' then (k', v) :: tl else (k', v') :: dict_set tl k v
  end.

Fixpoint dict_remove (d : dict) (k : K) : dict :=
  match d with
  | [] => []
  | (k', v') :: tl =>
      if keqb k k' then tl else (k', v') :: dict_remove tl k
  end.

(** [del d[k]] *)
Definition dict_del (d : dict) (k : K) : result dict :=
  match dict_find d k with
  | Some _ => Ok (dict_remove d k)
  | None => Raise KeyError
  end.

End Dict.

End Py.

Import Py.
Local Open Scope py_scope.

(* ================================================================== *)
(** * The manifest parser: [_load_photo_parts] *)
(* ================================================================== *)

Module Manifest.

(** [_get_part] (line 49): [int(line.split('part')[1])] *)
Definition _get_part (line : string) : result Z :=
  s <- py_index (split "part" line) 1 ;; py_int s.

(** [_get_id] (line 58): [int(line.split(',')[0])] *)
Definition _get_id (line : string) : result Z :=
  s <- py_index (split "," line) 0 ;; py_int s.

(** [_get_project_id] (lines 67-70): the second or, when the marker
    occurs in the line, the third hyphen-separated field of the text after
    the first comma. *)
Definition _get_project_id (line : string) : result Z :=
  f <- py_index (split "," line) 1 ;;
  let _k := split "-" (strip f) in
  if negb (contains "[NULL]" line)
  then s <- py_index _k 1 ;; py_int s
  else s <- py_index _k 2 ;; py_int s.

(** The first loop (lines 73-80): the stripped lines of the file, without
    the header and without blank lines. *)
Definition read_photo_files (file_lines : list string) : list string :=
  filter (fun n => negb (String.eqb n "ID,File" || (String.length n =? 0)%nat))
         (map strip file_lines).

Definition parts_id_t : Type := @dict Z (Z * Z).
Definition parts_project_t : Type := @dict Z (list Z).

(** Local variables of the second loop (lines 85-90). *)
Record scan : Type := mkScan {
  partsid : parts_id_t;
  projectid : parts_project_t;
  last_part : Z;
  last_part_id : Z;
  last_id : Z
}.

Definition scan_init : scan := mkScan [] [(0, [])] 0 0 0.

Definition mem_Z (x : Z) (l : list Z) : bool := existsb (Z.eqb x) l.

(** One iteration of [for j in photo_files] (lines 92-101). *)
Definition scan_line (st : scan) (j : string) : result scan :=
  part_j <- _get_part j ;;
  st1 <- (if negb (part_j =? last_part st)
          then
            let partsid' :=
              dict_set Z.eqb (partsid st) (last_part st)
                       (last_part_id st, last_id st) in
            let projectid' := dict_set Z.eqb (projectid st) part_j [] in
            lp <- _get_part j ;;
            lpid <- _get_id j ;;
            Ok (mkScan partsid' projectid' lp lpid (last_id st))
          else Ok st) ;;
  lid <- _get_id j ;;
  project_id <- _get_project_id j ;;
  cur <- dict_get Z.eqb (projectid st1) part_j ;;
  let projectid'' :=
    if negb (mem_Z project_id cur)
    then dict_set Z.eqb (projectid st1) part_j (cur ++ [project_id])
    else projectid st1 in
  Ok (mkScan (partsid st1) projectid'' (last_part st1) (last_part_id st1) lid).

(** The checking loop [for k in range(len(parts_key) - 1)] (lines
    109-112), over the suffix of [parts_key] that starts at position [k]. *)
Fixpoint check_parts (pid : parts_id_t) (keys : list Z) : result unit :=
  match keys with
  | k0 :: ((k1 :: _) as tl) =>
      assert_ (k1 - k0 =? 1) "Parts should diff in 1 unit" ;;;
      r1 <- dict_get Z.eqb pid k1 ;;
      r0 <- dict_get Z.eqb pid k0 ;;
      assert_ (fst r1 =? snd r0 + 1) "Invalid part lower continuity" ;;;
      r0' <- dict_get Z.eqb pid k0 ;;
      r0'' <- dict_get Z.eqb pid k0 ;;
      assert_ (snd r0' - fst r0'' >=? 1) "Invalid part size" ;;;
      check_parts pid tl
  | _ => Ok tt
  end.

(** The text files: the lines of each file that exists. *)
Definition text_files : Type := string -> option (list string).

Definition _load_photo_parts (fs : text_files) (filename : string)
  : result (list string * parts_id_t * parts_project_t) :=
  file_lines <-
    match fs filename with
    | Some l => Ok l
    | None => Raise (AssertionError
                ("Floor photo file <" ++ filename ++ "> does not exist")%string)
    end ;;
  let photo_files := read_photo_files file_lines in
  last_line <- py_index photo_files (-1) ;;
  total_parts <- _get_part last_line ;;
  assert_ (total_parts >? 1)
          "Number of parts cannot be lower or equal than 1" ;;;
  st <- for_each scan_line photo_files scan_init ;;
  let partsid1 :=
    dict_set Z.eqb (partsid st) (last_part st) (last_part_id st, last_id st) in
  partsid2 <- dict_del Z.eqb partsid1 0 ;;
  projectid2 <- dict_del Z.eqb (projectid st) 0 ;;
  let parts_key := dict_keys partsid2 in
  assert_ (Z.of_nat (List.length parts_key) =? total_parts)
          "Number of parts does not match" ;;;
  check_parts partsid2 parts_key ;;;
  Ok (photo_files, partsid2, projectid2).

(** What the checking loop establishes between neighbouring entries: the
    keys step by one, the next range starts one past the end of this one,
    and this range (the one that has a successor) holds at least two ids. *)
Fixpoint chain (l : parts_id_t) : Prop :=
  match l with
  | (k0, r0) :: (((k1, r1) :: _) as tl) =>
      k1 = k0 + 1 /\ fst r1 = snd r0 + 1 /\ snd r0 - fst r0 >= 1 /\ chain tl
  | _ => True
  end.

End Manifest.

(* ================================================================== *)
(** * Structural comparison: [_is_dict_equal] *)
(* ================================================================== *)

Module Equal.

(** The Python values that occur as dictionary values in this module. *)
Inductive pyval : Type :=
| PInt (n : Z)
| PStr (s : string)
| PList (l : list pyval)
| PTuple (l : list pyval).

(** Dictionary keys: integers in memory, strings after a JSON round trip. *)
Inductive pykey : Type :=
| KInt (n : Z)
| KStr (s : string).

Inductive pytype : Type := TInt | TStr | TList | TTuple.

(** [type(v)] *)
Definition type_of (v : pyval) : pytype :=
  match v with
  | PInt _ => TInt
  | PStr _ => TStr
  | PList _ => TList
  | PTuple _ => TTuple
  end.

Definition pytype_eqb (a b : pytype) : bool :=
  match a, b with
  | TInt, TInt | TStr, TStr | TList, TList | TTuple, TTuple => true
  | _, _ => false
  end.

(** [a == b] *)
Fixpoint py_eq (a b : pyval) : bool :=
  match a, b with
  | PInt m, PInt n => m =? n
  | PStr s, PStr t => String.eqb s t
  | PList l, PList l' | PTuple l, PTuple l' =>
      (fix all2 (xs ys : list pyval) : bool :=
         match xs, ys with
         | [], [] => true
         | x :: xs', y :: ys' => py_eq x y && all2 xs' ys'
         | _, _ => false
         end) l l'
  | _, _ => false
  end.

(** Key lookup compares keys as Python does: [1] and ['1'] differ. *)
Definition key_eqb (a b : pykey) : bool :=
  match a, b with
  | KInt m, KInt n => m =? n
  | KStr s, KStr t => String.eqb s t
  | _, _ => false
  end.

(** [str(k)] *)
Definition py_str (k : pykey) : string :=
  match k with
  | KInt n => py_str_int n
  | KStr s => s
  end.

Definition pydict : Type := @dict pykey pyval.

(** [isinstance(v, (list, tuple))], with the items when it holds. *)
Definition as_sequence (v : pyval) : option (list pyval) :=
  match v with
  | PList l | PTuple l => Some l
  | _ => None
  end.

(** The inner loop [for j in range(len(xki))], once the lengths agree. *)
Fixpoint items_equal (xs ys : list pyval) : bool :=
  match xs, ys with
  | x :: xs', y :: ys' =>
      if negb (py_eq x y) then false else items_equal xs' ys'
  | _, _ => true
  end.

(** The outer loop [for i in range(len(kx))], over the keys still to be
    visited; [None] stands for falling out of the loop. *)
Fixpoint keys_loop (x y : pydict) (kx ky : list pykey)
  : result (option bool) :=
  match kx, ky with
  | kxi :: kx', kyi :: ky' =>
      if negb (String.eqb (py_str kxi) (py_str kyi)) then Ok (Some false)
      else
        xki <- dict_get key_eqb x kxi ;;
        yki <- dict_get key_eqb y kyi ;;
        match as_sequence xki with
        | Some xs =>
            match as_sequence yki with
            | None => Raise (AssertionError "")
            | Some ys =>
                if negb (List.length xs =? List.length ys)%nat
                then Ok (Some false)
                else if items_equal xs ys then keys_loop x y kx' ky'
                     else Ok (Some false)
            end
        | None =>
            if negb (pytype_eqb (type_of xki) (type_of yki))
            then Ok (Some false)
            else if negb (py_eq xki yki) then Ok (Some false)
                 else keys_loop x y kx' ky'
        end
  | _, _ => Ok None
  end.

Definition _is_dict_equal (x y : pydict) : result bool :=
  let kx := dict_keys x in
  let ky := dict_keys y in
  if negb (List.length kx =? List.length ky)%nat then Ok false
  else
    r <- keys_loop x y kx ky ;;
    match r with
    | Some b => Ok b
    | None => Ok true
    end.

(** The in-memory mappings as Python values. *)
Definition py_of_parts_id (d : Manifest.parts_id_t) : pydict :=
  map (fun e =>
         (KInt (fst e), PTuple [PInt (fst (snd e)); PInt (snd (snd e))])) d.

Definition py_of_parts_project (d : Manifest.parts_project_t) : pydict :=
  map (fun e => (KInt (fst e), PList (map PInt (snd e)))) d.

(** What [json.load] gives back for a value written by [json.dump]:
    tuples come back as lists. *)
Fixpoint json_value (v : pyval) : pyval :=
  match v with
  | PInt n => PInt n
  | PStr s => PStr s
  | PList l | PTuple l => PList (map json_value l)
  end.

(** A dictionary after [json.dump] and [json.load]: every key is written
    as its string, and the decoder inserts the members in order. *)
Definition json_dict (d : pydict) : pydict :=
  fold_left (fun acc e => dict_set key_eqb acc (KStr (py_str (fst e)))
                                   (json_value (snd e))) d [].

(** Dictionaries with integer keys whose values are tuples or lists of
    integers: the shape of [_parts_id] and [_parts_project_id]. *)
Definition int_seq (v : pyval) : Prop :=
  exists zs, v = PTuple (map PInt zs) \/ v = PList (map PInt zs).

Definition int_keyed (x : pydict) : Prop :=
  Forall (fun e => (exists n, fst e = KInt n) /\ int_seq (snd e)) x.

(** One entry after the round trip. *)
Definition json_entry (e : pykey * pyval) : pykey * pyval :=
  (KStr (py_str (fst e)), json_value (snd e)).

End Equal.

(* ================================================================== *)
(** * The part loader: [load_part] and [_load_data_part] *)
(* ================================================================== *)

Module Loader.

(** An array of dtype [uint8]: its shape and its elements in row-major
    order. *)
Record image : Type := mkImage {
  shape : list Z;
  pixels : list Z
}.

(** What the module needs from numpy and cv2.  Arrays of another dtype
    than [uint8] carry a payload of type [raw], of which the code only
    ever takes the shape and the [uint8] conversion.  [np_random_shuffle]
    is [np.random.shuffle] on [np.arange(n)]: it reads and advances the
    global generator state [rng]. *)
Class Numpy : Type := {
  raw : Type;
  astype_uint8 : string -> list Z -> raw -> list Z;
  cv2_resize_area : image -> Z -> image;
  rng : Type;
  np_random_shuffle : rng -> nat -> list nat * rng;
  np_random_shuffle_perm :
    forall g n, Permutation (fst (np_random_shuffle g n)) (seq 0 n)
}.

Section WithNumpy.
Context {NP : Numpy}.

(** One element [fr[i]] of a loaded array. *)
Inductive ndarray : Type :=
| U8 (im : image)
| Other (dtype : string) (shp : list Z) (payload : raw).

Definition nd_shape (a : ndarray) : list Z :=
  match a with
  | U8 im => shape im
  | Other _ shp _ => shp
  end.

(** [fri.astype('uint8')] when [fri.dtype != 'uint8']. *)
Definition to_uint8 (a : ndarray) : image :=
  match a with
  | U8 im => im
  | Other dt shp payload => mkImage shp (astype_uint8 dt shp payload)
  end.

(** [np.load(path)['data']]: the arrays stored under each path. *)
Definition disk : Type := string -> option (list ndarray).

Definition np_load (d : disk) (path : string) : result (list ndarray) :=
  match d path with
  | Some a => Ok a
  | None => Raise (FileNotFoundError path)
  end.

(** The fields of [self] the loader reads. *)
Record loader : Type := mkLoader {
  _filename : string;
  _loaded_session : option (string * string);
  _file_rect_images_x : string;
  _file_rect_images_y : string;
  _file_floor_photo_images_x : list string;
  _file_floor_photo_images_y : list string;
  _floor_photo_ch : Z;
  _floor_photo_size : Z;
  _num_parts : Z;
  _parts_id : Manifest.parts_id_t;
  _parts_project_id : Manifest.parts_project_t;
  _photo_files_x : list string;
  _photo_files_y : list string;
  _rect_image_ch : Z;
  _rect_image_size : Z
}.

(** The four id arrays of a part. *)
Record id_table : Type := mkIds {
  id_image : list Z;
  id_rect : list Z;
  id_project : list Z;
  id_mutator : list Z
}.

(** ** numpy operations *)

(** [np.stack((a,) * ch, axis=-1)] *)
Definition np_stack_last (a : image) (ch : Z) : result image :=
  if ch <=? 0 then Raise (ValueError "need at least one array to stack")
  else Ok (mkImage (shape a ++ [ch])
                   (flat_map (fun p => repeat p (Z.to_nat ch)) (pixels a))).

Definition list_min (l : list Z) : option Z :=
  match l with
  | [] => None
  | x :: tl => Some (fold_left Z.min tl x)
  end.

Definition list_max (l : list Z) : option Z :=
  match l with
  | [] => None
  | x :: tl => Some (fold_left Z.max tl x)
  end.

(** [np.min(a)] and [np.max(a)] *)
Definition np_min (a : image) : result Z :=
  match list_min (pixels a) with
  | Some m => Ok m
  | None => Raise (ValueError "zero-size array to reduction operation")
  end.

Definition np_max (a : image) : result Z :=
  match list_max (pixels a) with
  | Some m => Ok m
  | None => Raise (ValueError "zero-size array to reduction operation")
  end.

(** [np.multiply(a, 255, dtype='uint8')]: the product wraps at 8 bits. *)
Definition np_multiply_255 (a : image) : image :=
  mkImage (shape a) (map (fun p => (p * 255) mod 256) (pixels a)).

Fixpoint shapes_agree (s t : list Z) : bool :=
  match s, t with
  | [], [] => true
  | a :: s', b :: t' => (a =? b) && shapes_agree s' t'
  | _, _ => false
  end.

(** [np.array(r, dtype='uint8')] on a list of arrays. *)
Definition np_array (r : list image) : result (list image) :=
  match r with
  | [] => Ok []
  | a :: tl =>
      if forallb (fun b => shapes_agree (shape a) (shape b)) tl then Ok r
      else Raise (ValueError "inhomogeneous shape")
  end.

(** [np.where(a == v)[0]], counting positions from [pos]. *)
Fixpoint where_from (pos : nat) (v : Z) (a : list Z) : list nat :=
  match a with
  | [] => []
  | x :: tl =>
      if x =? v then pos :: where_from (S pos) v tl
      else where_from (S pos) v tl
  end.

Definition np_where_eq (a : list Z) (v : Z) : list nat := where_from 0 v a.

Definition mem_nat (i : nat) (l : list nat) : bool := existsb (Nat.eqb i) l.

Fixpoint delete_from {A} (pos : nat) (idx : list nat) (a : list A) : list A :=
  match a with
  | [] => []
  | x :: tl =>
      if mem_nat pos idx then delete_from (S pos) idx tl
      else x :: delete_from (S pos) idx tl
  end.

(** [np.delete(a, idx, axis=0)] *)
Definition np_delete {A} (a : list A) (idx : list nat) : result (list A) :=
  if forallb (fun i => (i <? List.length a)%nat) idx
  then Ok (delete_from 0 idx a)
  else Raise IndexError.

(** [a[indices]] *)
Definition np_take {A} (a : list A) (indices : list nat) : result (list A) :=
  map_r (fun i => py_index a (Z.of_nat i)) indices.

(** ** [_load_data_part] *)

(** The double-quote character, for the messages that contain it. *)
Definition dq : string := String (ascii_of_nat 34) EmptyString.

Definition _un_xy : string :=
  ("Unexpected value xy, valid " ++ dq ++ "x" ++ dq ++ " or "
   ++ dq ++ "y" ++ dq)%string.

Definition _min_err (i part mx : Z) : string :=
  ("Invalid rect image min value, it must be 0, current for pos <"
   ++ py_str_int i ++ "> at part <" ++ py_str_int part ++ ">: <"
   ++ py_str_int mx ++ ">")%string.

Definition _max_err (i part mx : Z) : string :=
  ("Invalid rect image max value, it must be 1, current for pos <"
   ++ py_str_int i ++ "> at part <" ++ py_str_int part ++ ">: <"
   ++ py_str_int mx ++ ">")%string.

(** The shape and channel assertions on [fr[i]] (lines 338-342). *)
Definition check_rect_shape (self : loader) (fri : ndarray) : result unit :=
  let sh := nd_shape fri in
  s0 <- py_index sh 0 ;;
  s1 <- py_index sh 1 ;;
  assert_ ((s0 =? s1) && (s0 =? _rect_image_size self)) "" ;;;
  if (List.length sh =? 2)%nat
  then assert_ (_rect_image_ch self =? 1) ""
  else s2 <- py_index sh 2 ;; assert_ (s2 =? _rect_image_ch self) "".

(** [fr[i]] after the dtype coercion, the resampling to the floor-photo
    size and the channel replication (lines 343-356). *)
Definition prepare_rect (self : loader) (fri : ndarray) : result image :=
  let fri1 := to_uint8 fri in
  let fri2 :=
    if negb (_rect_image_size self =? _floor_photo_size self)
    then cv2_resize_area fri1 (_floor_photo_size self)
    else fri1 in
  if negb (_rect_image_ch self =? _floor_photo_ch self)
  then np_stack_last fri2 (_floor_photo_ch self)
  else Ok fri2.

(** The two assertions on the pixel range, then the scaling to 0..255
    (lines 359-362); an assertion message is formatted only when the
    assertion fails. *)
Definition scale_rect (i part : Z) (fri : image) : result image :=
  mn <- np_min fri ;;
  (if mn =? 0 then Ok tt
   else mx <- np_max fri ;; Raise (AssertionError (_min_err i part mx))) ;;;
  mx <- np_max fri ;;
  (if mx <=? 1 then Ok tt
   else mx' <- np_max fri ;; Raise (AssertionError (_max_err i part mx'))) ;;;
  Ok (np_multiply_255 fri).

(** The body of the loop over the rect images of the part
    (lines 337-364). *)
Definition load_rect (self : loader) (fr : list ndarray) (part i : Z)
  : result image :=
  fri <- py_index fr i ;;
  check_rect_shape self fri ;;;
  fri' <- prepare_rect self fri ;;
  scale_rect i part fri'.

(** The assertions on one floor photo [fp[i]] (lines 379-387). *)
Definition check_photo_shape (self : loader) (i : Z) (a : ndarray)
  : result unit :=
  let si := nd_shape a in
  s0 <- py_index si 0 ;;
  s1 <- py_index si 1 ;;
  assert_ (s0 =? s1)
    ("Floor photo must be square at pos <" ++ py_str_int i ++ ">")%string ;;;
  s0' <- py_index si 0 ;;
  assert_ (s0' =? _floor_photo_size self)
    ("Floor photo image size must be equal than constructor <"
     ++ py_str_int (_floor_photo_size self) ++ ">")%string ;;;
  if (List.length si =? 2)%nat
  then assert_ (_floor_photo_ch self =? 1) ""
  else
    s2 <- py_index si 2 ;;
    assert_ (s2 =? _floor_photo_ch self)
      ("Invalid number of channels of floor x photo at pos <"
       ++ py_str_int i ++ ">")%string.

(** One line of the manifest as [_load_id] reads it (lines 407-416):
    image id, rect id ([-1] for the marker), project id, mutator id. *)
Definition parse_id_row (line : string) : result (Z * Z * Z * Z) :=
  f0 <- py_index (split "," line) 0 ;;
  image_id <- py_int f0 ;;
  f1 <- py_index (split "," line) 1 ;;
  let k := split "-" (strip f1) in
  k0 <- py_index k 0 ;;
  if String.eqb (strip k0) "[NULL]"
  then
    k2 <- py_index k 2 ;; project_id <- py_int k2 ;;
    k3 <- py_index k 3 ;; mutator_id <- py_int k3 ;;
    Ok (image_id, -1, project_id, mutator_id)
  else
    rect_id <- py_int k0 ;;
    k1 <- py_index k 1 ;; project_id <- py_int k1 ;;
    k2 <- py_index k 2 ;; mutator_id <- py_int k2 ;;
    Ok (image_id, rect_id, project_id, mutator_id).

(** The project id [_load_id] records for a line. *)
Definition row_project (line : string) : result Z :=
  row <- parse_id_row line ;; Ok (snd (fst row)).

(** Whether the rect-id field of a line, the first hyphen-separated field
    after the first comma, is the null marker: the test of [_load_id]. *)
Definition marker_in_rect_field (line : string) : bool :=
  match py_index (split "," line) 1 with
  | Ok f1 =>
      match py_index (split "-" (strip f1)) 0 with
      | Ok k0 => String.eqb (strip k0) "[NULL]"
      | Raise _ => false
      end
  | Raise _ => false
  end.

Definition ids_of_rows (rows : list (Z * Z * Z * Z)) : id_table :=
  mkIds (map (fun r => fst (fst (fst r))) rows)
        (map (fun r => snd (fst (fst r))) rows)
        (map (fun r => snd (fst r)) rows)
        (map (fun r => snd r) rows).

(** [_load_id(n)] for the id range [first .. last] of the part.  The
    four lists go through [np.array]; the arrays are given here by the
    integers they hold, which are the integers of the lists as long as
    these lie in the [int64] range. *)
Definition _load_id (n : list string) (first last : Z) : result id_table :=
  rows <- map_r (fun j => line <- py_index n j ;; parse_id_row line)
                (py_range first (last + 1)) ;;
  Ok (ids_of_rows rows).

(** The four values [_load_data_part] returns. *)
Record part_data : Type := mkPart {
  pd_rect : list image;
  pd_fphoto : list ndarray;
  pd_id : id_table;
  pd_removed : nat
}.

(** [if remove_null:] (lines 436-445) *)
Definition remove_null_rows (d : part_data) : result part_data :=
  let rem_id := np_where_eq (id_rect (pd_id d)) (-1) in
  let total_removed := List.length rem_id in
  if (0 <? total_removed)%nat
  then
    npr <- np_delete (pd_rect d) rem_id ;;
    fp <- np_delete (pd_fphoto d) rem_id ;;
    im <- np_delete (id_image (pd_id d)) rem_id ;;
    re <- np_delete (id_rect (pd_id d)) rem_id ;;
    pr <- np_delete (id_project (pd_id d)) rem_id ;;
    mu <- np_delete (id_mutator (pd_id d)) rem_id ;;
    Ok (mkPart npr fp (mkIds im re pr mu) total_removed)
  else Ok (mkPart (pd_rect d) (pd_fphoto d) (pd_id d) total_removed).

(** [if shuffle:] (lines 447-455) *)
Definition shuffle_rows (d : part_data) (g : rng)
  : result (part_data * rng) :=
  let (indices, g') := np_random_shuffle g (List.length (pd_rect d)) in
  npr <- np_take (pd_rect d) indices ;;
  fp <- np_take (pd_fphoto d) indices ;;
  im <- np_take (id_image (pd_id d)) indices ;;
  re <- np_take (id_rect (pd_id d)) indices ;;
  pr <- np_take (id_project (pd_id d)) indices ;;
  mu <- np_take (id_mutator (pd_id d)) indices ;;
  Ok (mkPart npr fp (mkIds im re pr mu) (pd_removed d), g').

(** The part before null removal and shuffling (lines 321-432). *)
Definition load_rows (self : loader) (d : disk) (part : Z) (xy : string)
  : result part_data :=
  fr <- (if String.eqb xy "x" then np_load d (_file_rect_images_x self)
         else if String.eqb xy "y" then np_load d (_file_rect_images_y self)
         else Raise (ValueError _un_xy)) ;;
  bounds <- dict_get Z.eqb (_parts_id self) part ;;
  r <- map_r (load_rect self fr part)
             (py_range (fst bounds) (snd bounds + 1)) ;;
  fp <- (if String.eqb xy "x"
         then f <- py_index (_file_floor_photo_images_x self) (part - 1) ;;
              np_load d f
         else if String.eqb xy "y"
         then f <- py_index (_file_floor_photo_images_y self) (part - 1) ;;
              np_load d f
         else Raise (ValueError _un_xy)) ;;
  assert_ (List.length fp =? List.length r)%nat
    ("Floor photo size is different than rect image size at part <"
     ++ py_str_int part ++ ">")%string ;;;
  for_each (fun (_ : unit) ia => check_photo_shape self (fst ia) (snd ia))
           (combine (py_range 0 (Z.of_nat (List.length fp))) fp) tt ;;;
  npr <- np_array r ;;
  _id <- (if String.eqb xy "x"
          then _load_id (_photo_files_x self) (fst bounds) (snd bounds)
          else if String.eqb xy "y"
          then _load_id (_photo_files_y self) (fst bounds) (snd bounds)
          else Raise (ValueError _un_xy)) ;;
  Ok (mkPart npr fp _id 0).

(** The generator state is threaded through; an exception leaves no
    result. *)
Definition _load_data_part (self : loader) (d : disk) (g : rng)
    (part : Z) (xy : string) (remove_null shuffle : bool)
  : result (part_data * rng) :=
  rows <- load_rows self d part xy ;;
  rows1 <- (if remove_null then remove_null_rows rows else Ok rows) ;;
  if shuffle then shuffle_rows rows1 g else Ok (rows1, g).

(** ** [load_part] *)

(** The entries of the returned mapping for one stream: [x_len],
    [x_removed], [x_rect], [x_fphoto], [x_id] (or the [y_] ones). *)
Record stream_out : Type := mkStream {
  so_len : nat;
  so_removed : nat;
  so_rect : list image;
  so_fphoto : list ndarray;
  so_id : id_table
}.

(** The returned mapping; [size_mb], a float, is left out, and so are
    the garbage collection and the pause before returning. *)
Record bundle : Type := mkBundle {
  out_x : option stream_out;
  out_y : option stream_out;
  out_part : Z;
  out_xy : string
}.

Definition stream_of (pd : part_data) : stream_out :=
  mkStream (List.length (pd_fphoto pd)) (pd_removed pd)
           (pd_rect pd) (pd_fphoto pd) (pd_id pd).

Definition load_part (self : loader) (d : disk) (g : rng)
    (part : Z) (xy : string) (remove_null shuffle : bool)
  : result (bundle * rng) :=
  assert_ ((1 <=? part) && (part <=? _num_parts self))
    ("Number of parts overflow, min:1, max:"
     ++ py_str_int (_num_parts self))%string ;;;
  assert_ (String.eqb xy "x" || String.eqb xy "y" || String.eqb xy "xy")
    ("Invalid xy, expected " ++ dq ++ "x" ++ dq ++ ", " ++ dq ++ "y" ++ dq
     ++ " or " ++ dq ++ "xy" ++ dq)%string ;;;
  x <- (if String.eqb xy "x" || String.eqb xy "xy"
        then r <- _load_data_part self d g part "x" remove_null shuffle ;;
             Ok (Some (stream_of (fst r)), snd r)
        else Ok (None, g)) ;;
  y <- (if String.eqb xy "y" || String.eqb xy "xy"
        then r <- _load_data_part self d (snd x) part "y" remove_null shuffle ;;
             Ok (Some (stream_of (fst r)), snd r)
        else Ok (None, snd x)) ;;
  Ok (mkBundle (fst x) (fst y) part xy, snd y).

(** ** Notions used to state the properties *)

(** The rect array file and the manifest lines of stream ["x"] or ["y"]. *)
Definition rect_file (self : loader) (xy : string) : string :=
  if String.eqb xy "x" then _file_rect_images_x self
  else _file_rect_images_y self.

Definition manifest_lines (self : loader) (xy : string) : list string :=
  if String.eqb xy "x" then _photo_files_x self else _photo_files_y self.

(** The pixel contract: the minimum is 0 and the maximum at most 1. *)
Definition unit_range (im : image) : Prop :=
  list_min (pixels im) = Some 0 /\
  exists mx, list_max (pixels im) = Some mx /\ mx <= 1.

(** The six arrays of a part have [n] entries each. *)
Definition aligned (pd : part_data) (n : nat) : Prop :=
  List.length (pd_rect pd) = n /\ List.length (pd_fphoto pd) = n /\
  List.length (id_image (pd_id pd)) = n /\
  List.length (id_rect (pd_id pd)) = n /\
  List.length (id_project (pd_id pd)) = n /\
  List.length (id_mutator (pd_id pd)) = n.

(** The part read row by row: position [j] of the list holds the rect
    image, the floor photo and the four ids found at position [j] of the
    six arrays. *)
Definition rows_of (pd : part_data)
  : list (image * (ndarray * (Z * (Z * (Z * Z))))) :=
  combine (pd_rect pd)
    (combine (pd_fphoto pd)
       (combine (id_image (pd_id pd))
          (combine (id_rect (pd_id pd))
             (combine (id_project (pd_id pd)) (id_mutator (pd_id pd)))))).

Definition part_of_stream (so : stream_out) : part_data :=
  mkPart (so_rect so) (so_fphoto so) (so_id so) (so_removed so).

(** Two returned streams hold the same rows, in some order. *)
Definition same_rows (o o0 : option stream_out) : Prop :=
  match o, o0 with
  | Some so, Some so0 =>
      Permutation (rows_of (part_of_stream so)) (rows_of (part_of_stream so0))
      /\ aligned (part_of_stream so) (so_len so)
      /\ aligned (part_of_stream so0) (so_len so0)
      /\ so_len so = so_len so0
      /\ so_removed so = so_removed so0
  | None, None => True
  | _, _ => False
  end.

(** The entries of [a] at the positions where [mask] holds. *)
Fixpoint select {A} (mask : list bool) (a : list A) : list A :=
  match mask, a with
  | m :: mask', x :: a' => if m then x :: select mask' a' else select mask' a'
  | _, _ => []
  end.

(** The entries of [a] at the positions [idx], in the order of [idx]. *)
Definition pick {A} (a : list A) (idx : list nat) : list A :=
  flat_map (fun i => match nth_error a i with
                     | Some x => [x]
                     | None => []
                     end) idx.

(** The positions of [a] that do not hold [v]. *)
Definition keep_mask (v : Z) (a : list Z) : list bool :=
  map (fun x => negb (x =? v)) a.

Definition null_mask (pd : part_data) : list bool :=
  keep_mask (-1) (id_rect (pd_id pd)).

(** The part without the rows whose rect id is [-1]. *)
Definition filtered (pd : part_data) : part_data :=
  mkPart (select (null_mask pd) (pd_rect pd))
         (select (null_mask pd) (pd_fphoto pd))
         (mkIds (select (null_mask pd) (id_image (pd_id pd)))
                (select (null_mask pd) (id_rect (pd_id pd)))
                (select (null_mask pd) (id_project (pd_id pd)))
                (select (null_mask pd) (id_mutator (pd_id pd))))
         (List.length (np_where_eq (id_rect (pd_id pd)) (-1))).

(** The part with its six arrays read at the positions [idx]. *)
Definition picked (pd : part_data) (idx : list nat) : part_data :=
  mkPart (pick (pd_rect pd) idx) (pick (pd_fphoto pd) idx)
         (mkIds (pick (id_image (pd_id pd)) idx)
                (pick (id_rect (pd_id pd)) idx)
                (pick (id_project (pd_id pd)) idx)
                (pick (id_mutator (pd_id pd)) idx))
         (pd_removed pd).

(** What [_load_data_part] makes of the loaded rows: the optional
    filter, then the optional shuffle with the generator at state [g]. *)
Definition staged (rows : part_data) (remove_null shuffle : bool) (g : rng)
  : part_data * rng :=
  let rows1 := if remove_null then filtered rows else rows in
  if shuffle
  then
    let s := np_random_shuffle g (List.length (pd_rect rows1)) in
    (picked rows1 (fst s), snd s)
  else (rows1, g).

(** A stream returned with [remove_null] against the same stream
    returned without: no rect id is [-1], and the removed count is the
    difference of the two lengths. *)
Definition null_filtered (o o0 : option stream_out) : Prop :=
  match o, o0 with
  | Some so, Some so0 =>
      ~ In (-1) (id_rect (so_id so)) /\
      (so_len so <= so_len so0)%nat /\
      so_removed so = (so_len so0 - so_len so)%nat
  | None, None => True
  | _, _ => False
  end.

(** The id table read row by row. *)
Definition rows_of_ids (t : id_table) : list (Z * Z * Z * Z) :=
  map (fun r => (fst r, fst (snd r), fst (snd (snd r)), snd (snd (snd r))))
      (combine (id_image t)
         (combine (id_rect t) (combine (id_project t) (id_mutator t)))).

(** The unfiltered, unshuffled rows of a part carry the global ids of
    the range of the part, in order. *)
Definition rows_correspond (self : loader) (d : disk) (part : Z)
    (xy : string) : Prop :=
  exists pd bounds,
    load_rows self d part xy = Ok pd /\
    dict_get Z.eqb (_parts_id self) part = Ok bounds /\
    id_image (pd_id pd) = py_range (fst bounds) (snd bounds + 1).

(** Every manifest line has its 0-based position as its global id. *)
Definition ids_are_positions (n : list string) : Prop :=
  forall i line,
    nth_error n i = Some line -> Manifest._get_id line = Ok (Z.of_nat i).

End WithNumpy.

End Loader.

(* ================================================================== *)
(** * MD5, as [hashlib.md5] computes it *)
(* ================================================================== *)

Module MD5.

Definition mask32 : Z := 4294967295.

Definition add32 (a b : Z) : Z := Z.land (a + b) mask32.

Definition not32 (a : Z) : Z := Z.lxor a mask32.

Definition rotl32 (x c : Z) : Z :=
  Z.land (Z.lor (Z.shiftl x c) (Z.shiftr x (32 - c))) mask32.

(** The sine table: [floor(2^32 * abs(sin(i + 1)))]. *)
Definition K : list Z :=
  [3614090360; 3905402710; 606105819; 3250441966; 4118548399; 1200080426;
   2821735955; 4249261313; 1770035416; 2336552879; 4294925233; 2304563134;
   1804603682; 4254626195; 2792965006; 1236535329; 4129170786; 3225465664;
   643717713; 3921069994; 3593408605; 38016083; 3634488961; 3889429448;
   568446438; 3275163606; 4107603335; 1163531501; 2850285829; 4243563512;
   1735328473; 2368359562; 4294588738; 2272392833; 1839030562; 4259657740;
   2763975236; 1272893353; 4139469664; 3200236656; 681279174; 3936430074;
   3572445317; 76029189; 3654602809; 3873151461; 530742520; 3299628645;
   4096336452; 1126891415; 2878612391; 4237533241; 1700485571; 2399980690;
   4293915773; 2240044497; 1873313359; 4264355552; 2734768916; 1309151649;
   4149444226; 3174756917; 718787259; 3951481745].

(** The per-round shift amounts. *)
Definition R : list Z :=
  [7; 12; 17; 22; 7; 12; 17; 22; 7; 12; 17; 22; 7; 12; 17; 22;
   5; 9; 14; 20; 5; 9; 14; 20; 5; 9; 14; 20; 5; 9; 14; 20;
   4; 11; 16; 23; 4; 11; 16; 23; 4; 11; 16; 23; 4; 11; 16; 23;
   6; 10; 15; 21; 6; 10; 15; 21; 6; 10; 15; 21; 6; 10; 15; 21].

Definition bytes_of_string (s : string) : list Z :=
  map (fun c => Z.of_nat (nat_of_ascii c)) (list_ascii_of_string s).

(** [k] bytes of [v], least significant first. *)
Fixpoint le_bytes (k : nat) (v : Z) : list Z :=
  match k with
  | O => []
  | S k' => (v mod 256) :: le_bytes k' (v / 256)
  end.

Fixpoint le_word (bs : list Z) : Z :=
  match bs with
  | [] => 0
  | b :: tl => b + 256 * le_word tl
  end.

(** The message, the bit [1], zeros up to 56 modulo 64, and the bit length
    of the message on 64 bits. *)
Definition pad (msg : list Z) : list Z :=
  let n := Z.of_nat (List.length msg) in
  msg ++ [128] ++ repeat 0 (Z.to_nat ((55 - n) mod 64))
      ++ le_bytes 8 ((8 * n) mod 2 ^ 64).

Fixpoint words (n : nat) (bs : list Z) : list Z :=
  match n with
  | O => []
  | S n' => le_word (firstn 4 bs) :: words n' (skipn 4 bs)
  end.

Definition state : Type := (Z * Z * Z * Z)%type.

Definition init : state := (1732584193, 4023233417, 2562383102, 271733878).

(** Operation [i] of the 64 applied to a block with words [m]. *)
Definition step (m : list Z) (st : state) (i : nat) : state :=
  let '(a, b, c, d) := st in
  let iz := Z.of_nat i in
  let '(f, g) :=
    if iz <? 16 then (Z.lor (Z.land b c) (Z.land (not32 b) d), iz)
    else if iz <? 32
    then (Z.lor (Z.land d b) (Z.land (not32 d) c), (5 * iz + 1) mod 16)
    else if iz <? 48 then (Z.lxor b (Z.lxor c d), (3 * iz + 5) mod 16)
    else (Z.lxor c (Z.lor b (not32 d)), (7 * iz) mod 16) in
  let f' := add32 (add32 (add32 f a) (nth i K 0)) (nth (Z.to_nat g) m 0) in
  (d, add32 b (rotl32 f' (nth i R 0)), b, c).

Definition block (st : state) (bs : list Z) : state :=
  let m := words 16 bs in
  let '(a, b, c, d) := st in
  let '(a', b', c', d') := fold_left (step m) (seq 0 64) st in
  (add32 a a', add32 b b', add32 c c', add32 d d').

Fixpoint blocks (n : nat) (st : state) (bs : list Z) : state :=
  match n with
  | O => st
  | S n' => blocks n' (block st (firstn 64 bs)) (skipn 64 bs)
  end.

Definition hex_digit (n : Z) : ascii :=
  if n <? 10 then ascii_of_nat (Z.to_nat (48 + n))
  else ascii_of_nat (Z.to_nat (87 + n)).

Fixpoint hex_of_bytes (bs : list Z) : string :=
  match bs with
  | [] => EmptyString
  | b :: tl => String (hex_digit (b / 16))
                      (String (hex_digit (b mod 16)) (hex_of_bytes tl))
  end.

(** [hashlib.md5(s).hexdigest()] *)
Definition hexdigest (s : string) : string :=
  let bs := pad (bytes_of_string s) in
  let '(a, b, c, d) := blocks (List.length bs / 64) init bs in
  hex_of_bytes (le_bytes 4 a ++ le_bytes 4 b ++ le_bytes 4 c ++ le_bytes 4 d).

End MD5.

(* ================================================================== *)
(** * Sessions: [_get_file_hash], [save_session], [load_session] *)
(* ================================================================== *)

Module Session.
Import Equal.
Import Loader.

Definition _SESSION_EXPORT_VERSION : string := "1.1".

(** The record written by [json.dump], as [json.load] reads it back. *)
Record export : Type := mkExport {
  version : string;
  class_ : string;
  date_save : string;
  description : string;
  filename : string;
  floor_photo_ch : Z;
  floor_photo_size : Z;
  num_parts : Z;
  parts_id : pydict;
  parts_project_id : pydict;
  rect_image_ch : Z;
  rect_image_size : Z;
  hash_rect_images : string;
  hash_floor_images : string
}.

(** The files: the bytes of each shard file, and the session records. *)
Record files : Type := mkFiles {
  shard : string -> option string;
  session : string -> option export
}.

Section WithPaths.
(** [file_md5] of [MLStructFP_benchmarks.ml.utils] is not among the
    sources: the digest it computes from the bytes of a file is a
    parameter. *)
Variable file_digest : string -> string.

(** [os.path.splitext(filename)[0]] *)
Variable splitext_root : string -> string.

(** [file_md5(path)] *)
Definition file_md5 (fs : files) (path : string) : result string :=
  match shard fs path with
  | Some content => Ok (file_digest content)
  | None => Raise (FileNotFoundError path)
  end.

(** One turn of the loop over the parts (lines 554-555): two [h.update]
    calls, [h] being the bytes fed to the digest so far. *)
Definition fphoto_update (self : loader) (fs : files) (h : string) (i : Z)
  : result string :=
  px <- py_index (_file_floor_photo_images_x self) i ;;
  hx <- file_md5 fs px ;;
  py <- py_index (_file_floor_photo_images_y self) i ;;
  hy <- file_md5 fs py ;;
  Ok (h ++ hx ++ hy)%string.

Definition _get_file_hash (self : loader) (fs : files) (xy : string)
  : result string :=
  if String.eqb xy "rect" then
    h0 <- file_md5 fs (_file_rect_images_x self) ;;
    h1 <- file_md5 fs (_file_rect_images_y self) ;;
    Ok (MD5.hexdigest (h0 ++ h1)%string)
  else if String.eqb xy "fphoto" then
    h <- for_each (fphoto_update self fs) (py_range 0 (_num_parts self))
                  EmptyString ;;
    Ok (MD5.hexdigest h)
  else Raise (ValueError ("Invalid xy, expected " ++ dq ++ "rect" ++ dq
                          ++ " or " ++ dq ++ "fphoto")%string).

(** The first three lines of both [save_session] and [load_session]. *)
Definition session_path (name : string) : string :=
  let f := splitext_root name in
  if negb (contains ".json" f) then (f ++ ".json")%string else f.

Definition set_loaded_session (self : loader) (v : option (string * string))
  : loader :=
  mkLoader (_filename self) v
    (_file_rect_images_x self) (_file_rect_images_y self)
    (_file_floor_photo_images_x self) (_file_floor_photo_images_y self)
    (_floor_photo_ch self) (_floor_photo_size self) (_num_parts self)
    (_parts_id self) (_parts_project_id self)
    (_photo_files_x self) (_photo_files_y self)
    (_rect_image_ch self) (_rect_image_size self).

Definition write_session (fs : files) (path : string) (e : export) : files :=
  mkFiles (shard fs)
          (fun p => if String.eqb p path then Some e else session fs p).

(** [save_session]; [now] is the formatted [datetime.today()]. *)
Definition save_session (self : loader) (fs : files) (now : string)
    (name descr : string) : result (files * loader) :=
  let path := session_path name in
  h_rect <- _get_file_hash self fs "rect" ;;
  h_floor <- _get_file_hash self fs "fphoto" ;;
  let data :=
    mkExport _SESSION_EXPORT_VERSION "DataFloorPhotoXY" now descr
      (_filename self) (_floor_photo_ch self) (_floor_photo_size self)
      (_num_parts self)
      (json_dict (py_of_parts_id (_parts_id self)))
      (json_dict (py_of_parts_project (_parts_project_id self)))
      (_rect_image_ch self) (_rect_image_size self) h_rect h_floor in
  Ok (write_session fs path data,
      set_loaded_session self (Some (path, descr))).

Definition load_session (self : loader) (fs : files) (name : string)
  : result loader :=
  let path := session_path name in
  data <- match session fs path with
          | Some e => Ok e
          | None => Raise (FileNotFoundError path)
          end ;;
  assert_ (String.eqb (version data) _SESSION_EXPORT_VERSION)
    ("Outdated session export version, needed " ++ _SESSION_EXPORT_VERSION
     ++ ", current " ++ version data)%string ;;;
  assert_ (String.eqb (class_ data) "DataFloorPhotoXY")
    "Data class is not valid" ;;;
  h_rect <- _get_file_hash self fs "rect" ;;
  assert_ (String.eqb h_rect (hash_rect_images data))
    "Rect image hash is not the same" ;;;
  h_floor <- _get_file_hash self fs "fphoto" ;;
  assert_ (String.eqb h_floor (hash_floor_images data))
    "Floor image hash is not the same" ;;;
  same_id <- _is_dict_equal (py_of_parts_id (_parts_id self)) (parts_id data) ;;
  assert_ same_id "ID partition changed" ;;;
  same_proj <- _is_dict_equal (py_of_parts_project (_parts_project_id self))
                              (parts_project_id data) ;;
  assert_ same_proj "Project ID partition changed" ;;;
  assert_ (rect_image_size data =? _rect_image_size self)
    "Rect image size changed" ;;;
  assert_ (floor_photo_size data =? _floor_photo_size self)
    "Floor image size changed" ;;;
  Ok (set_loaded_session self (Some (path, description data))).

End WithPaths.

End Session.

(* ================================================================== *)
(** * A small dataset to run the model on *)
(* ================================================================== *)

Module Demo.
Import Loader.

Definition rotate (k : nat) (l : list nat) : list nat :=
  skipn (k mod (List.length l)) l ++ firstn (k mod (List.length l)) l.

(** An instance of the numpy interface: other dtypes convert to zeros,
    resampling repeats the first pixel of the source, and the generator
    state counts the shuffles, each rotating [arange(n)] one place further
    than the one before. *)
#[local] Instance demo_numpy : Numpy.
Proof.
  refine {|
    raw := unit;
    astype_uint8 := fun _ shp _ =>
      repeat 0 (Z.to_nat (fold_right Z.mul 1 shp));
    cv2_resize_area := fun im n =>
      mkImage [n; n] (repeat (hd 0 (pixels im)) (Z.to_nat (n * n)));
    rng := nat;
    np_random_shuffle := fun g n => (rotate (S g) (seq 0 n), S g)
  |}.
  intros g n. unfold rotate. simpl fst.
  rewrite Permutation_app_comm. now rewrite firstn_skipn.
Defined.

(** A manifest of two parts with two images each; the second image has
    no rectangle. *)
Definition demo_lines : list string :=
  ["ID,File"; "0, 10-61-6-part1"; "1, [NULL]-0-61-7-part1";
   "2, 12-62-6-part2"; "3, 13-62-8-part2"; ""].

Definition img (a b c d : Z) : ndarray :=
  U8 (mkImage [2; 2] [a; b; c; d]).

Definition demo_disk : disk := fun path =>
  if String.eqb path "rx"
  then Some [img 0 1 0 1; img 1 0 0 0; img 0 0 0 1; img 1 1 1 0]
  else if String.eqb path "ry"
  then Some [img 0 1 1 1; img 1 0 1 0; img 0 0 1 1; img 1 1 0 0]
  else if String.eqb path "fx1" then Some [img 10 11 12 13; img 20 21 22 23]
  else if String.eqb path "fx2" then Some [img 30 31 32 33; img 40 41 42 43]
  else if String.eqb path "fy1" then Some [img 50 51 52 53; img 60 61 62 63]
  else if String.eqb path "fy2" then Some [img 70 71 72 73; img 80 81 82 83]
  else None.

(** A manifest whose last part holds a single image. *)
Definition short_last_part : list string :=
  ["ID,File"; "0,1-1-1-part1"; "1,2-1-1-part1"; "2,3-1-1-part2"].

(** A manifest that opens with a line of part 0 whose id is 7. *)
Definition offset_lines : list string :=
  ["ID,File"; "7, 9-60-1-part0"; "1, 10-61-6-part1"; "2, 11-61-7-part1";
   "3, 12-62-6-part2"; "4, 13-62-8-part2"].

Definition manifests : Manifest.text_files := fun path =>
  if String.eqb path "demo.csv" then Some demo_lines
  else if String.eqb path "short.csv" then Some short_last_part
  else if String.eqb path "offset.csv" then Some offset_lines
  else None.

(** The loader [__init__] builds for a manifest read for both streams. *)
Definition loader_of (n : list string) (pid : Manifest.parts_id_t)
    (proj : Manifest.parts_project_t) : loader :=
  mkLoader "demo" None "rx" "ry" ["fx1"; "fx2"] ["fy1"; "fy2"] 1 2 2
           pid proj n n 1 2.

Definition demo_loader : loader :=
  loader_of (Manifest.read_photo_files demo_lines)
            [(1, (0, 1)); (2, (2, 3))] [(1, [61]); (2, [62])].

(** A line that carries the marker text after its part token. *)
Definition stray_marker_line : string := "5, 12-3-7-part2part[NULL]".

(** The dataset that goes with [offset_lines]. *)
Definition offset_disk : disk := fun path =>
  if String.eqb path "rx" || String.eqb path "ry"
  then Some [img 0 0 0 0; img 0 1 0 1; img 1 0 0 0; img 0 0 0 1; img 1 1 1 0]
  else demo_disk path.

Definition offset_loader : loader :=
  loader_of (Manifest.read_photo_files offset_lines)
            [(1, (1, 2)); (2, (3, 4))] [(1, [61]); (2, [62])].

(** Modelled from the spec: [file_md5] of [MLStructFP_benchmarks.ml.utils]
    is not among the sources; section 4.5 has the session hasher compute a
    content hash of each shard file, taken here to be the MD5 hex digest of
    the bytes of the file. *)
Definition content_md5 : string -> string := MD5.hexdigest.

(** Shard files for the session examples. *)
Definition of_bytes (l : list Z) : string :=
  string_of_list_ascii (map (fun b => ascii_of_nat (Z.to_nat b)) l).

Definition demo_files : Session.files :=
  Session.mkFiles
    (fun path => if String.eqb path "rx" then Some "rect images, x"
                 else Some ("contents of " ++ path)%string)
    (fun _ => None).

(** Two files of 128 bytes that differ in six bytes and have the same
    MD5 digest, [79054025255fb1a26e4bc422aef54eb4]. *)
Definition collision_a : list Z :=
  [209; 49; 221; 2; 197; 230; 238; 196; 105; 61; 154; 6;
   152; 175; 249; 92; 47; 202; 181; 135; 18; 70; 126; 171;
   64; 4; 88; 62; 184; 251; 127; 137; 85; 173; 52; 6;
   9; 244; 179; 2; 131; 228; 136; 131; 37; 113; 65; 90;
   8; 81; 37; 232; 247; 205; 201; 159; 217; 29; 189; 242;
   128; 55; 60; 91; 216; 130; 62; 49; 86; 52; 143; 91;
   174; 109; 172; 212; 54; 201; 25; 198; 221; 83; 226; 180;
   135; 218; 3; 253; 2; 57; 99; 6; 210; 72; 205; 160;
   233; 159; 51; 66; 15; 87; 126; 232; 206; 84; 182; 112;
   128; 168; 13; 30; 198; 152; 33; 188; 182; 168; 131; 147;
   150; 249; 101; 43; 111; 247; 42; 112].

Definition collision_b : list Z :=
  [209; 49; 221; 2; 197; 230; 238; 196; 105; 61; 154; 6;
   152; 175; 249; 92; 47; 202; 181; 7; 18; 70; 126; 171;
   64; 4; 88; 62; 184; 251; 127; 137; 85; 173; 52; 6;
   9; 244; 179; 2; 131; 228; 136; 131; 37; 241; 65; 90;
   8; 81; 37; 232; 247; 205; 201; 159; 217; 29; 189; 114;
   128; 55; 60; 91; 216; 130; 62; 49; 86; 52; 143; 91;
   174; 109; 172; 212; 54; 201; 25; 198; 221; 83; 226; 52;
   135; 218; 3; 253; 2; 57; 99; 6; 210; 72; 205; 160;
   233; 159; 51; 66; 15; 87; 126; 232; 206; 84; 182; 112;
   128; 40; 13; 30; 198; 152; 33; 188; 182; 168; 131; 147;
   150; 249; 101; 171; 111; 247; 42; 112].

(** The dataset with the rect file of stream x holding [content]. *)
Definition files_with_rect_x (content : string) : Session.files :=
  Session.mkFiles
    (fun path => if String.eqb path "rx" then Some content
                 else Session.shard demo_files path)
    (fun _ => None).

(** A rect image with a pixel of value 2. *)
Definition bad_disk : disk := fun path =>
  if String.eqb path "rx"
  then Some [img 0 1 0 1; img 1 0 2 0; img 0 0 0 1; img 1 1 1 0]
  else demo_disk path.

End Demo.

(* ================================================================== *)
(** * Paths: [os.path.splitext] on a POSIX system *)
(* ================================================================== *)

Module PosixPath.

(** [s.rfind(c)] for a character: its last position in [s], or [-1];
    [pos] is the position of the head of [s]. *)
Fixpoint rfind_from (c : ascii) (pos : Z) (s : string) : Z :=
  match s with
  | EmptyString => -1
  | String a s' =>
      let r := rfind_from c (pos + 1) s' in
      if r <? 0 then (if Ascii.eqb a c then pos else -1) else r
  end.

Definition rfind (c : ascii) (s : string) : Z := rfind_from c 0 s.

(** [s[a:b]] for [0 <= a]. *)
Definition slice (s : string) (a b : Z) : string :=
  String.substring (Z.to_nat a) (Z.to_nat (b - a)) s.

(** The loop that skips the leading dots of the file name: whether a
    character other than the dot stands at a position in [a, b). *)
Definition has_non_dot (s : string) (a b : Z) : bool :=
  existsb (fun ch => negb (Ascii.eqb ch "."))
          (list_ascii_of_string (slice s a b)).

(** [os.path.splitext(p)[0]]: [p] without its extension, the extension
    starting at the last dot of the last path component unless that
    component has only dots before it. *)
Definition splitext_root (p : string) : string :=
  let sepIndex := rfind "/" p in
  let dotIndex := rfind "." p in
  if (dotIndex >? sepIndex) && has_non_dot p (sepIndex + 1) dotIndex
  then slice p 0 dotIndex
  else p.

End PosixPath.

(* ================================================================== *)
(** * The constructor, the getters and the session entry points *)
(* ================================================================== *)

Module Construct.
Import Equal Loader Session.

Section WithSystem.
(** [math.log(n, 2).is_integer()], a floating-point computation. *)
Variable log2_is_integer : Z -> bool.

(** [os.path.isfile] and [os.path.exists]. *)
Variable isfile : string -> bool.
Variable path_exists : string -> bool.

(** [os.path.splitext(filename)[0]] *)
Variable splitext_root : string -> string.

(** [file_md5] of [MLStructFP_benchmarks.ml.utils], as in [Session]. *)
Variable file_digest : string -> string.

(** The names the constructor derives from [filename]. *)
Definition rect_images_name (filename xy : string) (size : Z) : string :=
  (filename ++ "_images_" ++ xy ++ "_" ++ py_str_int size ++ ".npz")%string.

Definition manifest_name (filename xy : string) (size : Z) : string :=
  (filename ++ "_rect_floor_photo_" ++ xy ++ "_" ++ py_str_int size
   ++ "_files.csv")%string.

Definition part_name (filename xy : string) (size i : Z) : string :=
  (filename ++ "_rect_floor_photo_" ++ xy ++ "_" ++ py_str_int size
   ++ "_part" ++ py_str_int (i + 1) ++ ".npz")%string.

(** One turn of the loop [for i in range(self._num_parts)] of the
    constructor (lines 236-242); the state is the two lists built. *)
Definition check_part_files (filename : string) (size : Z)
    (acc : list string * list string) (i : Z)
  : result (list string * list string) :=
  let px := part_name filename "x" size i in
  let py := part_name filename "y" size i in
  assert_ (path_exists px)
    ("Floor photo x file <" ++ px ++ "> does not exist")%string ;;;
  assert_ (path_exists py)
    ("Floor photo y file <" ++ py ++ "> does not exist")%string ;;;
  Ok (fst acc ++ [px], snd acc ++ [py]).

(** [DataFloorPhotoXY.__init__] (lines 173-242). *)
Definition __init__ (fs : Manifest.text_files) (filename : string)
    (rect_image_size floor_photo_size : Z)
    (rect_image_channels floor_photo_channels : Z) : result loader :=
  assert_ (rect_image_size >? 0)
    "Rect image size must be greater than zero" ;;;
  assert_ (log2_is_integer rect_image_size)
    "Rect image size must be a power of 2" ;;;
  assert_ (floor_photo_size >? 0)
    "Floor image size must be greater than zero" ;;;
  assert_ (log2_is_integer floor_photo_size)
    "Floor image size must be a power of 2" ;;;
  assert_ (rect_image_channels >=? 1) "" ;;;
  assert_ (floor_photo_channels >=? 1) "" ;;;
  let file_x := rect_images_name filename "x" rect_image_size in
  let file_y := rect_images_name filename "y" rect_image_size in
  assert_ (isfile file_x)
    ("X rect images file <" ++ file_x ++ "> does not exist")%string ;;;
  assert_ (isfile file_y)
    ("Y rect images file <" ++ file_y ++ "> does not exist")%string ;;;
  rx <- Manifest._load_photo_parts fs
          (manifest_name filename "x" floor_photo_size) ;;
  ry <- Manifest._load_photo_parts fs
          (manifest_name filename "y" floor_photo_size) ;;
  let photo_files_x := fst (fst rx) in
  let photo_files_y := fst (fst ry) in
  last_x <- py_index photo_files_x (-1) ;;
  parts_x <- Manifest._get_part last_x ;;
  last_y <- py_index photo_files_y (-1) ;;
  parts_y <- Manifest._get_part last_y ;;
  assert_ (parts_x =? parts_y)
    "Number of parts are different between x and y photo files" ;;;
  same_id <- _is_dict_equal (py_of_parts_id (snd (fst rx)))
                            (py_of_parts_id (snd (fst ry))) ;;
  assert_ same_id
    "ID partition of parts are different between x and y photo files" ;;;
  same_proj <- _is_dict_equal (py_of_parts_project (snd rx))
                              (py_of_parts_project (snd ry)) ;;
  assert_ same_proj
    "Project partition from parts are different between x and y" ;;;
  part_files <- for_each (check_part_files filename floor_photo_size)
                         (py_range 0 parts_x) ([], []) ;;
  Ok (mkLoader (splitext_root filename) None file_x file_y
               (fst part_files) (snd part_files)
               floor_photo_channels floor_photo_size parts_x
               (snd (fst rx)) (snd rx) photo_files_x photo_files_y
               rect_image_channels rect_image_size).

(** [get_image_shape] and [get_total_parts] (lines 244-257). *)
Definition get_image_shape (self : loader) : Z * Z * Z :=
  (_floor_photo_size self, _floor_photo_size self, _floor_photo_ch self).

Definition get_total_parts (self : loader) : Z := _num_parts self.

(** [update_session] (lines 646-655); the message it prints is left
    out. *)
Definition update_session (self : loader) (sf : files) (now : string)
  : result (files * loader) :=
  match _loaded_session self with
  | None => Raise (AssertionError "Session not loaded")
  | Some (file, descr) =>
      save_session file_digest splitext_root self sf now file descr
  end.


End WithSystem.

End Construct.

(* ================================================================== *)
(** * Showing one row of a loaded part *)
(* ================================================================== *)

Module Plot.
Import Loader.

Section WithNumpy.
Context {NP : Numpy}.

(** What the two plotting methods hand to matplotlib: the title and the
    two images of the figure.  The matplotlib calls themselves are left
    out, and with them whatever they raise: a figure is the outcome of a
    method whose own checks have all passed. *)
Record figure : Type := mkFigure {
  fig_title : string;
  fig_rect : image;
  fig_fphoto : ndarray
}.

(** The line feed of the titles. *)
Definition nl : string := String (ascii_of_nat 10) EmptyString.

(** The entries [o[xy + '_len']], [o[xy + '_rect']], ... of a returned
    mapping, for [xy] one of ["x"] and ["y"]. *)
Definition stream_entry (o : bundle) (xy : string) : result stream_out :=
  match (if String.eqb xy "x" then out_x o
         else if String.eqb xy "y" then out_y o else None) with
  | Some so => Ok so
  | None => Raise KeyError
  end.

Definition assert_xy (o : bundle) (xy : string) : result unit :=
  assert_ (String.eqb xy "x" || String.eqb xy "y")
    ("Invalid xy, expected " ++ dq ++ "x" ++ dq ++ " or "
     ++ dq ++ "y" ++ dq)%string ;;;
  assert_ (String.eqb (out_xy o) xy || String.eqb (out_xy o) "xy")
    "Invalid xy in given partition data".

(** [plot_image_example_id] (lines 493-536). *)
Definition plot_image_example_id (o : bundle) (xy : string) (imid : Z)
    (title : string) : result figure :=
  assert_xy o xy ;;;
  so <- stream_entry o xy ;;
  assert_ ((0 <=? imid) && (imid <=? Z.of_nat (so_len so) - 1))
    "Image ID overflows" ;;;
  let title' :=
    if String.eqb title EmptyString
    then ("Object ID " ++ py_str_int imid ++ nl ++ "Partition "
          ++ py_str_int (out_part o) ++ " at Data " ++ xy)%string
    else title in
  left <- py_index (so_rect so) imid ;;
  right <- py_index (so_fphoto so) imid ;;
  Ok (mkFigure title' left right).

(** The loop [for j in rid[0]] (lines 482-485): the first of the
    positions [rid] whose mutator id is [m], if any. *)
Fixpoint find_mutator (mutator : list Z) (m : Z) (rid : list nat)
  : result (option nat) :=
  match rid with
  | [] => Ok None
  | j :: tl =>
      v <- py_index mutator (Z.of_nat j) ;;
      if v =? m then Ok (Some j) else find_mutator mutator m tl
  end.

(** [plot_image_example_rect_id] (lines 459-490). *)
Definition plot_image_example_rect_id (o : bundle) (xy : string)
    (rect_id mutator_id : Z) : result figure :=
  assert_xy o xy ;;;
  so <- stream_entry o xy ;;
  let rect_id_part := id_rect (so_id so) in
  let mutator_id_part := id_mutator (so_id so) in
  if negb (Manifest.mem_Z rect_id rect_id_part)
  then Raise (ValueError "Rect ID <{0}> does not exist in partition data")
  else
    let rid := np_where_eq rect_id_part rect_id in
    ri <- find_mutator mutator_id_part mutator_id rid ;;
    match ri with
    | None =>
        Raise (ValueError
                 ("Rect with mutator ID <" ++ py_str_int mutator_id
                  ++ "> does not exist in partition data")%string)
    | Some j =>
        let title :=
          ("Object Rect ID " ++ py_str_int rect_id ++ " Mutator "
           ++ py_str_int mutator_id ++ nl ++ "Partition "
           ++ py_str_int (out_part o) ++ " at Data " ++ xy)%string in
        plot_image_example_id o xy (Z.of_nat j) title
    end.

End WithNumpy.

End Plot.

(* ================================================================== *)
(** * A dataset under the names the constructor derives *)
(* ================================================================== *)

Module Examples.
Import Loader.

(** An exact test for the powers of two, in the place of
    [math.log(n, 2).is_integer()]. *)
Definition is_power_of_two (n : Z) : bool := (0 <? n) && (n =? 2 ^ Z.log2 n).

Definition all_present : string -> bool := fun _ => true.

(** The dataset of [Demo] under the stem ["demo"], both manifests
    alike. *)
Definition manifests : Manifest.text_files := fun path =>
  if String.eqb path (Construct.manifest_name "demo" "x" 2)
     || String.eqb path (Construct.manifest_name "demo" "y" 2)
  then Some Demo.demo_lines
  else None.

Definition arrays : @disk Demo.demo_numpy := fun path =>
  if String.eqb path (Construct.rect_images_name "demo" "x" 2)
  then Demo.demo_disk "rx"
  else if String.eqb path (Construct.rect_images_name "demo" "y" 2)
  then Demo.demo_disk "ry"
  else if String.eqb path (Construct.part_name "demo" "x" 2 0)
  then Demo.demo_disk "fx1"
  else if String.eqb path (Construct.part_name "demo" "x" 2 1)
  then Demo.demo_disk "fx2"
  else if String.eqb path (Construct.part_name "demo" "y" 2 0)
  then Demo.demo_disk "fy1"
  else if String.eqb path (Construct.part_name "demo" "y" 2 1)
  then Demo.demo_disk "fy2"
  else None.

Definition shards : Session.files :=
  Session.mkFiles (fun path => Some ("contents of " ++ path)%string)
                  (fun _ => None).

(** A manifest for stream y whose second part belongs to another
    project. *)
Definition other_project_lines : list string :=
  ["ID,File"; "0, 10-61-6-part1"; "1, [NULL]-0-61-7-part1";
   "2, 12-63-6-part2"; "3, 13-63-8-part2"].

Definition mismatched : Manifest.text_files := fun path =>
  if String.eqb path (Construct.manifest_name "demo" "x" 2)
  then Some Demo.demo_lines
  else if String.eqb path (Construct.manifest_name "demo" "y" 2)
  then Some other_project_lines
  else None.

(** The same dataset under the stem ["set.v1"], whose last component
    has a dot: only the files derived from that stem exist. *)
Definition dotted_manifests : Manifest.text_files := fun path =>
  if String.eqb path (Construct.manifest_name "set.v1" "x" 2)
     || String.eqb path (Construct.manifest_name "set.v1" "y" 2)
  then Some Demo.demo_lines
  else None.

Definition dotted_present : string -> bool := String.prefix "set.v1".

End Examples.

(* ================================================================== *)
(** * Notions used to state what a loaded part holds *)
(* ================================================================== *)

Module Notions.
Import Loader.

(** A mask: the image has a pixel 0 and only pixels 0 and 255. *)
Definition binary_image (im : image) : Prop :=
  In 0 (pixels im) /\ Forall (fun p => p = 0 \/ p = 255) (pixels im).

(** The shapes the checks on a floor photo let through: a square of the
    given size, with the channel axis left out when there is one
    channel. *)
Definition declared_shape (size ch : Z) (sh : list Z) : Prop :=
  (sh = [size; size] /\ ch = 1) \/
  (exists rest, sh = size :: size :: ch :: rest).

(** The values an [int64] array holds: [np.array] on a list of integers
    in this range gives the array of these integers. *)
Definition in_int64 (z : Z) : Prop := - 2 ^ 63 <= z < 2 ^ 63.

(** The four ids of a manifest line, each in that range. *)
Definition int64_row (r : Z * Z * Z * Z) : Prop :=
  in_int64 (fst (fst (fst r))) /\ in_int64 (snd (fst (fst r))) /\
  in_int64 (snd (fst r)) /\ in_int64 (snd r).

Section WithNumpy.
Context {NP : Numpy}.

(** The rect id and the mutator id of a row of [rows_of]. *)
Definition row_rect_id (row : image * (ndarray * (Z * (Z * (Z * Z))))) : Z :=
  fst (snd (snd (snd row))).

Definition row_mutator_id (row : image * (ndarray * (Z * (Z * (Z * Z)))))
  : Z :=
  snd (snd (snd (snd (snd row)))).

(** A stream returned with [remove_null] against the same stream returned
    without: the rows whose rect id is not [-1], in their order. *)
Definition kept_rows (o o0 : option stream_out) : Prop :=
  match o, o0 with
  | Some so, Some so0 =>
      rows_of (part_of_stream so)
      = filter (fun row => negb (row_rect_id row =? -1))
               (rows_of (part_of_stream so0))
  | None, None => True
  | _, _ => False
  end.

End WithNumpy.

End Notions.

(* ================================================================== *)
(** * Facts about the runtime fragments *)
(* ================================================================== *)

Module PyFacts.

Lemma bind_ok {A B} (m : result A) (k : A -> result B) (b : B) :
  bind m k = Ok b -> exists a, m = Ok a /\ k a = Ok b.
Proof.
  destruct m as [a|e]; simpl; intros H; [eauto | discriminate].
Qed.

Lemma assert_ok (c : bool) (msg : string) (u : unit) :
  assert_ c msg = Ok u -> c = true.
Proof. destruct c; simpl; [reflexivity | discriminate]. Qed.

(** Split a successful sequence of binds into its steps. *)
Ltac inv_ok H :=
  repeat match type of H with
  | bind ?m ?k = Ok _ =>
      let a := fresh "a" in
      let Ha := fresh "Hstep" in
      apply bind_ok in H; destruct H as (a & Ha & H);
      try (apply assert_ok in Ha)
  end.

Lemma for_each_inv {A S} (body : S -> A -> result S) (P : S -> Prop) :
  (forall s x s', body s x = Ok s' -> P s -> P s') ->
  forall xs s s', for_each body xs s = Ok s' -> P s -> P s'.
Proof.
  intros Hbody xs. induction xs as [|x tl IH]; simpl; intros s s' H Hs.
  - now inversion H; subst.
  - apply bind_ok in H. destruct H as (s1 & H1 & H2). eauto.
Qed.

Lemma map_r_length {A B} (f : A -> result B) xs ys :
  map_r f xs = Ok ys -> List.length ys = List.length xs.
Proof.
  revert ys. induction xs as [|x tl IH]; simpl; intros ys H.
  - now inversion H.
  - inv_ok H. inversion H; subst. simpl. f_equal. eauto.
Qed.

Lemma map_r_Forall2 {A B} (f : A -> result B) xs ys :
  map_r f xs = Ok ys <-> Forall2 (fun x y => f x = Ok y) xs ys.
Proof.
  split.
  - revert ys. induction xs as [|x tl IH]; simpl; intros ys H.
    + inversion H. constructor.
    + inv_ok H. inversion H; subst. constructor; auto.
  - induction 1 as [|x y xs' ys' Hxy _ IH]; simpl.
    + reflexivity.
    + now rewrite Hxy, IH.
Qed.

Lemma map_r_raise {A B} (f : A -> result B) xs x e :
  In x xs -> f x = Raise e -> exists e', map_r f xs = Raise e'.
Proof.
  induction xs as [|y tl IH]; simpl; intros Hin Hx; [contradiction|].
  destruct (f y) as [b|e0] eqn:Hy; simpl; [|eauto].
  destruct Hin as [->|Hin]; [congruence|].
  destruct (IH Hin Hx) as (e' & ->). simpl. eauto.
Qed.

Lemma py_range_length a b : List.length (py_range a b) = Z.to_nat (b - a).
Proof. unfold py_range. now rewrite length_map, length_seq. Qed.

Lemma py_range_In a b i : In i (py_range a b) <-> a <= i < b.
Proof.
  unfold py_range. rewrite in_map_iff. split.
  - intros (k & <- & Hk). apply in_seq in Hk. lia.
  - intros Hi. exists (Z.to_nat (i - a)). split; [lia|].
    apply in_seq. lia.
Qed.

Lemma py_index_nonneg {A} (xs : list A) (i : Z) (a : A) :
  0 <= i -> (py_index xs i = Ok a <-> nth_error xs (Z.to_nat i) = Some a).
Proof.
  intros Hi. unfold py_index.
  destruct (Z.ltb_spec i 0) as [?|_]; [lia|].
  destruct (Z.leb_spec 0 i) as [_|?]; [|lia]. simpl.
  destruct (Z.ltb_spec i (Z.of_nat (List.length xs))) as [Hlt|Hge].
  - destruct (nth_error xs (Z.to_nat i)) as [x|] eqn:E.
    + split; intros H; inversion H; subst; reflexivity.
    + apply nth_error_None in E. lia.
  - split; [discriminate|]. intros H.
    assert (nth_error xs (Z.to_nat i) <> None) as Hn by congruence.
    apply nth_error_Some in Hn. lia.
Qed.

Lemma py_index_In {A} (xs : list A) (i : Z) (a : A) :
  py_index xs i = Ok a -> In a xs.
Proof.
  unfold py_index.
  destruct (_ && _); [|discriminate].
  destruct (nth_error xs _) as [x|] eqn:E; [|discriminate].
  intros H; inversion H; subst. eapply nth_error_In; eauto.
Qed.

(** ** Dictionaries *)

Section DictFacts.
Context {K V : Type} (keqb : K -> K -> bool).
Hypothesis keqb_eq : forall a b, keqb a b = true <-> a = b.

Lemma keqb_refl a : keqb a a = true.
Proof. now apply keqb_eq. Qed.

Lemma keqb_neq a b : a <> b -> keqb a b = false.
Proof.
  intros Hab. destruct (keqb a b) eqn:E; [|reflexivity].
  apply keqb_eq in E. contradiction.
Qed.


Lemma dict_find_In (d : @dict K V) k v :
  NoDup (dict_keys d) -> In (k, v) d -> dict_find keqb d k = Some v.
Proof.
  induction d as [|[k' v'] tl IH]; simpl; intros Hnd Hin; [contradiction|].
  inversion Hnd as [|? ? Hk' Hnd']; subst.
  destruct Hin as [Heq|Hin].
  - inversion Heq; subst. now rewrite keqb_refl.
  - destruct (keqb k k') eqn:E.
    + apply keqb_eq in E. subst. exfalso. apply Hk'.
      unfold dict_keys. apply in_map_iff. now exists (k', v).
    + auto.
Qed.

Lemma dict_find_Some_In (d : @dict K V) k v :
  dict_find keqb d k = Some v -> In (k, v) d.
Proof.
  induction d as [|[k' v'] tl IH]; simpl; [discriminate|].
  destruct (keqb k k') eqn:E.
  - apply keqb_eq in E. subst. intros H; inversion H; auto.
  - auto.
Qed.

Lemma dict_set_keys_In (d : @dict K V) k v k' :
  In k' (dict_keys (dict_set keqb d k v)) <-> k' = k \/ In k' (dict_keys d).
Proof.
  induction d as [|[k0 v0] tl IH]; simpl.
  - intuition.
  - destruct (keqb k k0) eqn:E; simpl.
    + apply keqb_eq in E. subst. intuition.
    + rewrite IH. intuition.
Qed.

Lemma dict_set_NoDup (d : @dict K V) k v :
  NoDup (dict_keys d) -> NoDup (dict_keys (dict_set keqb d k v)).
Proof.
  induction d as [|[k0 v0] tl IH]; simpl; intros Hnd.
  - constructor; [tauto | constructor].
  - inversion Hnd as [|? ? Hk0 Hnd']; subst.
    destruct (keqb k k0) eqn:E; simpl.
    + now constructor.
    + constructor; [|auto].
      fold (dict_keys (dict_set keqb tl k v)).
      rewrite dict_set_keys_In. intros [->|Hin]; [|tauto].
      rewrite keqb_refl in E. discriminate.
Qed.

Lemma dict_remove_incl (d : @dict K V) k e :
  In e (dict_remove keqb d k) -> In e d.
Proof.
  induction d as [|[k0 v0] tl IH]; simpl; [tauto|].
  destruct (keqb k k0); simpl; intuition.
Qed.

Lemma dict_remove_NoDup (d : @dict K V) k :
  NoDup (dict_keys d) -> NoDup (dict_keys (dict_remove keqb d k)).
Proof.
  induction d as [|[k0 v0] tl IH]; simpl; intros Hnd; [constructor|].
  inversion Hnd as [|? ? Hk0 Hnd']; subst.
  destruct (keqb k k0); simpl; [assumption|].
  constructor; [|auto].
  intros Hin. apply Hk0. unfold dict_keys in *.
  apply in_map_iff in Hin. destruct Hin as (e & He & Hin).
  apply in_map_iff. exists e. split; [assumption|].
  eapply dict_remove_incl; eauto.
Qed.

Lemma dict_remove_absent (d : @dict K V) k :
  NoDup (dict_keys d) -> ~ In k (dict_keys (dict_remove keqb d k)).
Proof.
  induction d as [|[k0 v0] tl IH]; simpl; intros Hnd; [tauto|].
  inversion Hnd as [|? ? Hk0 Hnd']; subst.
  destruct (keqb k k0) eqn:E; simpl.
  - apply keqb_eq in E. now subst.
  - intros [->|Hin]; [rewrite keqb_refl in E; discriminate|].
    now apply IH.
Qed.
End DictFacts.

End PyFacts.

(* ================================================================== *)
(** * The manifest parser *)
(* ================================================================== *)

Module ManifestFacts.
Import PyFacts Manifest.

Lemma dict_get_In {V} (d : @dict Z V) k v :
  NoDup (dict_keys d) -> In (k, v) d -> dict_get Z.eqb d k = Ok v.
Proof.
  intros Hnd Hin. unfold dict_get.
  now rewrite (dict_find_In Z.eqb Z.eqb_eq d k v Hnd Hin).
Qed.

Lemma dict_del_ok {V} (d d' : @dict Z V) k :
  dict_del Z.eqb d k = Ok d' -> d' = dict_remove Z.eqb d k.
Proof.
  unfold dict_del. destruct (dict_find Z.eqb d k); intros H; now inversion H.
Qed.

(** The scan keeps one entry per part number. *)
Lemma scan_line_NoDup st j st' :
  scan_line st j = Ok st' ->
  NoDup (dict_keys (partsid st)) -> NoDup (dict_keys (partsid st')).
Proof.
  unfold scan_line. intros H Hnd.
  apply bind_ok in H. destruct H as (part_j & _ & H).
  apply bind_ok in H. destruct H as (st1 & H1 & H).
  inv_ok H. inversion H; subst; simpl. clear H.
  destruct (negb (part_j =? last_part st)).
  - inv_ok H1. inversion H1; subst; simpl.
    apply (dict_set_NoDup Z.eqb Z.eqb_eq). exact Hnd.
  - now inversion H1; subst.
Qed.

Lemma scan_NoDup lines st :
  for_each scan_line lines scan_init = Ok st ->
  NoDup (dict_keys (partsid st)).
Proof.
  intros H.
  apply (for_each_inv scan_line (fun s => NoDup (dict_keys (partsid s))))
    with (xs := lines) (s := scan_init); auto.
  - intros s x s' Hs. now apply scan_line_NoDup with (j := x).
  - constructor.
Qed.

Lemma check_parts_step (pid : parts_id_t) k0 k1 tl :
  check_parts pid (k0 :: k1 :: tl) =
  (assert_ (k1 - k0 =? 1) "Parts should diff in 1 unit" ;;;
   r1 <- dict_get Z.eqb pid k1 ;;
   r0 <- dict_get Z.eqb pid k0 ;;
   assert_ (fst r1 =? snd r0 + 1) "Invalid part lower continuity" ;;;
   r0' <- dict_get Z.eqb pid k0 ;;
   r0'' <- dict_get Z.eqb pid k0 ;;
   assert_ (snd r0' - fst r0'' >=? 1) "Invalid part size" ;;;
   check_parts pid (k1 :: tl)).
Proof. reflexivity. Qed.

Lemma check_parts_chain (pid l : parts_id_t) :
  NoDup (dict_keys pid) -> incl l pid ->
  check_parts pid (dict_keys l) = Ok tt -> chain l.
Proof.
  intros Hnd. induction l as [|[k0 r0] tl IH]; intros Hincl H; [exact I|].
  destruct tl as [|[k1 r1] tl']; [exact I|].
  assert (In (k0, r0) pid) as H0 by (apply Hincl; simpl; auto).
  assert (In (k1, r1) pid) as H1 by (apply Hincl; simpl; auto).
  change (dict_keys ((k0, r0) :: (k1, r1) :: tl'))
    with (k0 :: k1 :: dict_keys tl') in H.
  rewrite check_parts_step in H.
  rewrite (dict_get_In pid k1 r1 Hnd H1) in H.
  rewrite (dict_get_In pid k0 r0 Hnd H0) in H.
  inv_ok H.
  apply Z.eqb_eq in Hstep. inversion Hstep0; inversion Hstep1; subst.
  apply Z.eqb_eq in Hstep2. inversion Hstep3; inversion Hstep4; subst.
  apply Z.geb_le in Hstep5.
  cbn [chain]. repeat split; try lia.
  apply IH; [|exact H].
  intros e He. apply Hincl. now right.
Qed.

Lemma chain_tail e l : chain (e :: l) -> chain l.
Proof.
  destruct e as [k0 r0]. destruct l as [|[k1 r1] tl]; simpl; tauto.
Qed.

Lemma chain_adjacent l i k0 r0 k1 r1 :
  chain l ->
  nth_error l i = Some (k0, r0) -> nth_error l (S i) = Some (k1, r1) ->
  k1 = k0 + 1 /\ fst r1 = snd r0 + 1 /\ snd r0 - fst r0 >= 1.
Proof.
  revert l. induction i as [|i IH]; intros l Hc H0 H1.
  - destruct l as [|e0 [|e1 tl]]; try discriminate.
    simpl in H0, H1. inversion H0; inversion H1; subst.
    simpl in Hc. tauto.
  - destruct l as [|e0 tl]; [discriminate|].
    apply (IH tl); [eapply chain_tail; eauto | exact H0 | exact H1].
Qed.

Lemma chain_ascending l i j ki ri kj rj :
  chain l -> (i < j)%nat ->
  nth_error l i = Some (ki, ri) -> nth_error l j = Some (kj, rj) ->
  ki < kj /\ snd ri < fst rj.
Proof.
  intros Hc Hij Hi. revert kj rj.
  induction Hij as [|j' Hij IH]; intros kj rj Hj.
  - destruct (chain_adjacent l i ki ri kj rj Hc Hi Hj) as (? & ? & ?). lia.
  - destruct (nth_error l j') as [[kj' rj']|] eqn:Hj'.
    + destruct (IH kj' rj' eq_refl) as (? & ?).
      destruct (chain_adjacent l j' kj' rj' kj rj Hc Hj' Hj) as (? & ? & ?).
      lia.
    + apply nth_error_None in Hj'.
      assert (nth_error l (S j') <> None) as Hn by congruence.
      apply nth_error_Some in Hn. lia.
Qed.

(** What a successful parse returns. *)
Lemma load_photo_parts_ok fs filename photo_files pid proj :
  _load_photo_parts fs filename = Ok (photo_files, pid, proj) ->
  (exists file_lines, fs filename = Some file_lines /\
                      photo_files = read_photo_files file_lines) /\
  NoDup (dict_keys pid) /\ ~ In 0 (dict_keys pid) /\ chain pid.
Proof.
  unfold _load_photo_parts. intros H.
  apply bind_ok in H. destruct H as (file_lines & Hfile & H).
  assert (fs filename = Some file_lines) as Hfs
    by (destruct (fs filename); [now inversion Hfile | discriminate]).
  apply bind_ok in H. destruct H as (last_line & _ & H).
  apply bind_ok in H. destruct H as (total_parts & _ & H).
  apply bind_ok in H. destruct H as (_ & _ & H).
  apply bind_ok in H. destruct H as (st & Hscan & H).
  apply bind_ok in H. destruct H as (partsid2 & Hdel & H).
  apply bind_ok in H. destruct H as (projectid2 & _ & H).
  apply bind_ok in H. destruct H as (_ & _ & H).
  apply bind_ok in H. destruct H as ([] & Hcheck & H).
  inversion H; subst. clear H.
  apply dict_del_ok in Hdel.
  pose proof (scan_NoDup _ _ Hscan) as Hnd.
  apply (dict_set_NoDup Z.eqb Z.eqb_eq _ (last_part st)
           (last_part_id st, last_id st)) in Hnd.
  assert (NoDup (dict_keys pid)) as Hnd'
    by (subst pid; apply dict_remove_NoDup; exact Hnd).
  split; [now exists file_lines|]. split; [exact Hnd'|]. split.
  - subst pid. apply (dict_remove_absent Z.eqb Z.eqb_eq). exact Hnd.
  - apply check_parts_chain with (pid := pid);
      [exact Hnd' | apply incl_refl | exact Hcheck].
Qed.

(** C6. For every manifest the parser accepts, the returned part ranges
    have no key 0; consecutive part keys differ by 1 and each part starts
    one id past the end of the part before it; hence the keys ascend and a
    later part starts after every earlier part has ended (no gap, no
    overlap). *)
Theorem part_ranges_contiguous fs filename photo_files pid proj :
  _load_photo_parts fs filename = Ok (photo_files, pid, proj) ->
  ~ In 0 (dict_keys pid) /\
  (forall i k0 r0 k1 r1,
      nth_error pid i = Some (k0, r0) ->
      nth_error pid (S i) = Some (k1, r1) ->
      k1 = k0 + 1 /\ fst r1 = snd r0 + 1) /\
  (forall i j ki ri kj rj,
      (i < j)%nat ->
      nth_error pid i = Some (ki, ri) ->
      nth_error pid j = Some (kj, rj) ->
      ki < kj /\ snd ri < fst rj).
Proof.
  intros H. apply load_photo_parts_ok in H.
  destruct H as (_ & _ & H0 & Hc).
  split; [exact H0|]. split.
  - intros i k0 r0 k1 r1 Hi Hj.
    destruct (chain_adjacent pid i k0 r0 k1 r1 Hc Hi Hj) as (? & ? & ?).
    now split.
  - intros i j ki ri kj rj. now apply chain_ascending.
Qed.

Lemma part_ranges_contiguous_witness :
  exists photo_files pid proj,
    _load_photo_parts Demo.manifests "demo.csv"
      = Ok (photo_files, pid, proj) /\
    dict_keys pid = [1; 2] /\ ~ In 0 (dict_keys pid).
Proof.
  eexists _, _, _.
  assert (_load_photo_parts Demo.manifests "demo.csv" = Ok (_, _, _)) as Hrun
    by (vm_compute; reflexivity).
  split; [exact Hrun|]. split; [reflexivity|].
  exact (proj1 (part_ranges_contiguous _ _ _ _ _ Hrun)).
Defined.

End ManifestFacts.

(* ================================================================== *)
(** * Strings: pieces of a split are substrings *)
(* ================================================================== *)

Module StringFacts.

Local Open Scope string_scope.

Lemma append_nil_r (s : string) : s ++ "" = s.
Proof. induction s as [|c s IH]; simpl; [reflexivity | now rewrite IH]. Qed.

Lemma append_assoc (a b c : string) : (a ++ b) ++ c = a ++ (b ++ c).
Proof. induction a as [|x a IH]; simpl; [reflexivity | now rewrite IH]. Qed.

Lemma substr_refl (s : string) : substr s s.
Proof. exists "", "". simpl. now rewrite append_nil_r. Qed.

Lemma substr_trans (a b c : string) : substr a b -> substr b c -> substr a c.
Proof.
  intros (p & q & ->) (p' & q' & ->).
  exists (p' ++ p), (q ++ q').
  now rewrite !append_assoc.
Qed.

Lemma substr_cons (a s : string) (c : ascii) :
  substr a s -> substr a (String c s).
Proof. intros (p & q & ->). now exists (String c p), q. Qed.

Lemma substr_prefix (a q : string) : substr a (a ++ q).
Proof. now exists "", q. Qed.


Lemma substr_empty (s : string) : substr "" s.
Proof. now exists "", s. Qed.

Lemma prefix_append (a q : string) : String.prefix a (a ++ q) = true.
Proof.
  induction a as [|c a IH]; simpl.
  - now destruct q.
  - destruct (ascii_dec c c); [exact IH | contradiction].
Qed.

Lemma contains_substr (a s : string) : substr a s -> contains a s = true.
Proof.
  intros (p & q & ->). induction p as [|c p IH].
  - simpl append.
    assert (forall s, String.prefix a s = true -> contains a s = true) as Hp
      by (intros s Hs; destruct s; cbn [contains]; now rewrite Hs).
    apply Hp, prefix_append.
  - change (String c p ++ a ++ q) with (String c (p ++ a ++ q)).
    cbn [contains]. rewrite IH. apply orb_true_r.
Qed.

Lemma lstrip_suffix (s : string) : exists p, s = p ++ lstrip s.
Proof.
  induction s as [|c s (p & IH)]; simpl.
  - now exists "".
  - destruct (is_space c).
    + exists (String c p). simpl. now rewrite <- IH.
    + now exists "".
Qed.

Lemma rstrip_prefix (s : string) : exists q, s = rstrip s ++ q.
Proof.
  induction s as [|c s (q & IH)]; simpl.
  - now exists "".
  - destruct (rstrip s) as [|c' r] eqn:E.
    + destruct (is_space c).
      * now exists (String c s).
      * exists s. reflexivity.
    + exists q. simpl in *. now rewrite <- IH.
Qed.

Lemma strip_substr (s : string) : substr (strip s) s.
Proof.
  unfold strip.
  destruct (lstrip_suffix s) as (p & Hp).
  destruct (rstrip_prefix (lstrip s)) as (q & Hq).
  exists p, q. now rewrite <- Hq.
Qed.

Lemma split_go_head sep s h t :
  split_go sep 0 s = h :: t -> exists q, s = h ++ q.
Proof.
  revert h t. induction s as [|c s IH]; intros h t H.
  - simpl in H. inversion H. now exists "".
  - cbn [split_go] in H.
    destruct (String.prefix sep (String c s)).
    + inversion H. now exists (String c s).
    + destruct (split_go sep 0 s) as [|h' t'] eqn:E.
      * inversion H. now exists s.
      * destruct (IH _ _ eq_refl) as (q & Hq).
        inversion H; subst. now exists q.
Qed.

Lemma split_go_substr sep skip s p :
  In p (split_go sep skip s) -> substr p s.
Proof.
  revert skip p. induction s as [|c s IH]; intros skip p H.
  - simpl in H. destruct H as [<-|[]]. apply substr_refl.
  - cbn [split_go] in H. destruct skip as [|k].
    + destruct (String.prefix sep (String c s)).
      * destruct H as [<-|H]; [apply substr_empty|].
        apply substr_cons. eapply IH; eauto.
      * destruct (split_go sep 0 s) as [|h t] eqn:E.
        -- destruct H as [<-|[]]. apply (substr_prefix (String c "") s).
        -- destruct H as [<-|H].
           ++ destruct (split_go_head sep s h t E) as (q & ->).
              apply (substr_prefix (String c h) q).
           ++ apply substr_cons. apply (IH 0%nat). rewrite E. now right.
    + apply substr_cons. eapply IH; eauto.
Qed.

Lemma split_substr sep s p : In p (split sep s) -> substr p s.
Proof. apply split_go_substr. Qed.

End StringFacts.

(* ================================================================== *)
(** * The project id, as the parser and as the loader read it *)
(* ================================================================== *)

Module FieldOffsets.
Import PyFacts StringFacts Manifest Loader.

(** When the loader finds the marker in the rect-id field, the marker
    text occurs in the line, which is what the parser tests. *)
Lemma marker_field_in_line (line : string) :
  marker_in_rect_field line = true -> contains "[NULL]" line = true.
Proof.
  unfold marker_in_rect_field.
  destruct (py_index (split "," line) 1) as [f1|] eqn:E1; [|discriminate].
  destruct (py_index (split "-" (strip f1)) 0) as [k0|] eqn:E0; [|discriminate].
  intros H. apply String.eqb_eq in H.
  apply contains_substr. rewrite <- H.
  eapply substr_trans; [apply strip_substr|].
  eapply substr_trans; [apply (split_substr "-"), (py_index_In _ _ _ E0)|].
  eapply substr_trans; [apply strip_substr|].
  apply (split_substr ","), (py_index_In _ _ _ E1).
Qed.

(** C4, as the code has it. On every line where the marker text, if it
    occurs at all, is the rect-id field, the parser and the loader extract
    the same project id whenever both accept the line: the third field
    when the marker is there, the second otherwise. *)
Theorem project_id_agree (line : string) (p q : Z) :
  (contains "[NULL]" line = true -> marker_in_rect_field line = true) ->
  _get_project_id line = Ok p ->
  row_project line = Ok q ->
  p = q.
Proof.
  intros Hm Hp Hq.
  unfold _get_project_id in Hp.
  apply bind_ok in Hp as (f1 & Hf1 & Hp).
  unfold row_project in Hq.
  apply bind_ok in Hq as (row & Hrow & Hq). inversion Hq; subst q. clear Hq.
  unfold parse_id_row in Hrow.
  apply bind_ok in Hrow as (f0 & _ & Hrow).
  apply bind_ok in Hrow as (image_id & _ & Hrow).
  rewrite Hf1 in Hrow. cbn [bind] in Hrow.
  apply bind_ok in Hrow as (k0 & Hk0 & Hrow).
  assert (marker_in_rect_field line = String.eqb (strip k0) "[NULL]") as Hfield
    by (unfold marker_in_rect_field; now rewrite Hf1, Hk0).
  destruct (contains "[NULL]" line) eqn:Hc; cbn [negb] in Hp.
  - rewrite <- Hfield, (Hm eq_refl) in Hrow.
    apply bind_ok in Hrow as (k2 & Hk2 & Hrow).
    apply bind_ok in Hrow as (pr & Hpr & Hrow).
    apply bind_ok in Hrow as (k3 & _ & Hrow).
    apply bind_ok in Hrow as (mu & _ & Hrow).
    inversion Hrow; subst row. cbn [fst snd].
    rewrite Hk2 in Hp. cbn [bind] in Hp. congruence.
  - destruct (String.eqb (strip k0) "[NULL]") eqn:Hk.
    + apply marker_field_in_line in Hfield. congruence.
    + apply bind_ok in Hrow as (re & _ & Hrow).
      apply bind_ok in Hrow as (k1 & Hk1 & Hrow).
      apply bind_ok in Hrow as (pr & Hpr & Hrow).
      apply bind_ok in Hrow as (k2 & _ & Hrow).
      apply bind_ok in Hrow as (mu & _ & Hrow).
      inversion Hrow; subst row. cbn [fst snd].
      rewrite Hk1 in Hp. cbn [bind] in Hp. congruence.
Qed.

Lemma project_id_agree_witness :
  (contains "[NULL]" "1, [NULL]-0-61-7-part1" = true ->
   marker_in_rect_field "1, [NULL]-0-61-7-part1" = true) /\
  _get_project_id "1, [NULL]-0-61-7-part1" = Ok 61 /\
  row_project "1, [NULL]-0-61-7-part1" = Ok 61 /\
  61 = 61.
Proof.
  split; [intros _; vm_compute; reflexivity|].
  split; [vm_compute; reflexivity|].
  split; [vm_compute; reflexivity|].
  apply (project_id_agree "1, [NULL]-0-61-7-part1" 61 61).
  - intros _. vm_compute. reflexivity.
  - vm_compute. reflexivity.
  - vm_compute. reflexivity.
Defined.

(** The marker text after the part token: the parser shifts, the loader
    does not, both accept the line, and the project ids differ. *)
Lemma stray_marker_disagrees :
  marker_in_rect_field Demo.stray_marker_line = false /\
  _get_part Demo.stray_marker_line = Ok 2 /\
  _get_id Demo.stray_marker_line = Ok 5 /\
  _get_project_id Demo.stray_marker_line = Ok 7 /\
  row_project Demo.stray_marker_line = Ok 3.
Proof. vm_compute. repeat split. Qed.

End FieldOffsets.

(* ================================================================== *)
(** * The size check of the parser *)
(* ================================================================== *)

Module PartSize.
Import PyFacts Manifest ManifestFacts.

(** Every part that has a successor holds at least two ids. *)
Lemma nonfinal_parts_hold_two_ids fs filename photo_files pid proj i k r :
  _load_photo_parts fs filename = Ok (photo_files, pid, proj) ->
  nth_error pid i = Some (k, r) -> (S i < List.length pid)%nat ->
  snd r - fst r >= 1.
Proof.
  intros H Hi Hlen. apply load_photo_parts_ok in H.
  destruct H as (_ & _ & _ & Hc).
  destruct (nth_error pid (S i)) as [[k1 r1]|] eqn:Hj.
  - now destruct (chain_adjacent pid i k r k1 r1 Hc Hi Hj) as (_ & _ & ?).
  - apply nth_error_None in Hj. lia.
Qed.

(** C5. The parser accepts a manifest whose final part holds one id
    ([last - first = 0]): the size assertion sits inside the loop over the
    pairs of neighbouring parts and is applied to the first of each pair,
    so it never reaches the last part. *)
Theorem short_last_part_accepted :
  _load_photo_parts Demo.manifests "short.csv" =
  Ok (["0,1-1-1-part1"; "1,2-1-1-part1"; "2,3-1-1-part2"],
      [(1, (0, 1)); (2, (2, 2))],
      [(1, [1]); (2, [1])]).
Proof. vm_compute. reflexivity. Qed.

End PartSize.

(* ================================================================== *)
(** * The structural comparison and the JSON round trip *)
(* ================================================================== *)

Module EqualFacts.
Import PyFacts Equal.

Lemma key_eqb_eq (a b : pykey) : key_eqb a b = true <-> a = b.
Proof.
  destruct a as [m|s], b as [n|t]; simpl.
  - rewrite Z.eqb_eq. split; congruence.
  - split; discriminate.
  - split; discriminate.
  - rewrite String.eqb_eq. split; congruence.
Qed.

Lemma py_str_int_inj (a b : Z) : py_str_int a = py_str_int b -> a = b.
Proof.
  unfold py_str_int. intros H.
  assert (forall z, NilZero.int_of_string (NilZero.string_of_int (Z.to_int z))
                    = Some (Z.to_int z)) as Hisi.
  { intros z. apply NilZero.isi; destruct z; simpl; try discriminate;
      intros E; inversion E as [E'];
      now apply DecimalPos.Unsigned.to_uint_nonnil in E'. }
  apply DecimalZ.to_int_inj.
  pose proof (Hisi a) as Ha. rewrite H, Hisi in Ha. congruence.
Qed.

Lemma int_keyed_parts_id pid : int_keyed (py_of_parts_id pid).
Proof.
  unfold int_keyed, py_of_parts_id. apply Forall_map, Forall_forall.
  intros [k [a b]] _. simpl. split; [eauto|].
  exists [a; b]. now left.
Qed.

Lemma int_keyed_parts_project proj : int_keyed (py_of_parts_project proj).
Proof.
  unfold int_keyed, py_of_parts_project. apply Forall_map, Forall_forall.
  intros [k l] _. simpl. split; [eauto|].
  exists l. now right.
Qed.

Lemma keys_parts_id_NoDup (pid : Manifest.parts_id_t) :
  NoDup (dict_keys pid) -> NoDup (dict_keys (py_of_parts_id pid)).
Proof.
  intros H. unfold dict_keys, py_of_parts_id. rewrite map_map. simpl.
  rewrite <- (map_map fst KInt).
  apply Finite.Injective_map_NoDup; [|exact H].
  intros a b E. now inversion E.
Qed.

Lemma keys_parts_project_NoDup (proj : Manifest.parts_project_t) :
  NoDup (dict_keys proj) -> NoDup (dict_keys (py_of_parts_project proj)).
Proof.
  intros H. unfold dict_keys, py_of_parts_project. rewrite map_map. simpl.
  rewrite <- (map_map fst KInt).
  apply Finite.Injective_map_NoDup; [|exact H].
  intros a b E. now inversion E.
Qed.

Lemma dict_set_fresh (d : pydict) k v :
  ~ In k (dict_keys d) -> dict_set key_eqb d k v = d ++ [(k, v)].
Proof.
  induction d as [|[k0 v0] tl IH]; simpl; intros Hn; [reflexivity|].
  destruct (key_eqb k k0) eqn:E.
  - apply key_eqb_eq in E. subst. tauto.
  - rewrite IH; tauto.
Qed.

Lemma json_keys_NoDup (x : pydict) :
  NoDup (dict_keys x) -> int_keyed x -> NoDup (dict_keys (map json_entry x)).
Proof.
  intros Hnd Hk. unfold dict_keys. rewrite map_map.
  induction x as [|[k v] tl IH]; simpl; [constructor|].
  inversion Hnd as [|? ? Hk0 Hnd']; subst.
  inversion Hk as [|? ? [[n Hn] _] Hk']; subst. simpl in Hn. subst k.
  constructor; [|auto].
  intros Hin. apply in_map_iff in Hin. destruct Hin as ([k' v'] & E & Hin).
  simpl in E. apply Hk0.
  rewrite Forall_forall in Hk'. destruct (Hk' _ Hin) as [[n' Hn'] _].
  simpl in Hn'. subst k'. simpl in E. inversion E as [E'].
  apply py_str_int_inj in E'. subst n'.
  unfold dict_keys. apply in_map_iff. now exists (KInt n, v').
Qed.

(** With integer keys no two members of the JSON object share a name, so
    the decoder keeps them all, in order. *)
Lemma json_dict_map (x : pydict) :
  NoDup (dict_keys x) -> int_keyed x -> json_dict x = map json_entry x.
Proof.
  intros Hnd Hk. unfold json_dict.
  assert (forall l acc,
    NoDup (dict_keys (acc ++ map json_entry l)) ->
    fold_left (fun a e => dict_set key_eqb a (KStr (py_str (fst e)))
                                   (json_value (snd e))) l acc
    = acc ++ map json_entry l) as Hfold.
  { induction l as [|e tl IH]; intros acc Hacc; simpl.
    - now rewrite app_nil_r.
    - rewrite dict_set_fresh.
      + rewrite IH; rewrite <- app_assoc; [reflexivity | exact Hacc].
      + unfold dict_keys in Hacc. rewrite map_app in Hacc. simpl in Hacc.
        apply NoDup_remove_2 in Hacc. intros Hin. apply Hacc.
        apply in_or_app. now left. }
  apply (Hfold x []). simpl. now apply json_keys_NoDup.
Qed.

Lemma items_equal_ints zs : items_equal (map PInt zs) (map PInt zs) = true.
Proof.
  induction zs as [|z tl IH]; simpl; [reflexivity|].
  now rewrite Z.eqb_refl.
Qed.

Lemma json_value_int_seq v :
  int_seq v ->
  exists zs, as_sequence v = Some (map PInt zs) /\
             json_value v = PList (map PInt zs).
Proof.
  intros (zs & [->| ->]); exists zs; simpl; split; try reflexivity;
    f_equal; rewrite map_map; now apply map_ext.
Qed.

Lemma keys_loop_json (x l : pydict) :
  NoDup (dict_keys x) -> int_keyed x -> incl l x ->
  keys_loop x (map json_entry x) (dict_keys l) (dict_keys (map json_entry l))
  = Ok None.
Proof.
  intros Hnd Hk. induction l as [|[k v] tl IH]; intros Hincl; [reflexivity|].
  assert (In (k, v) x) as Hin by (apply Hincl; simpl; auto).
  assert (int_seq v) as Hv
    by (unfold int_keyed in Hk; rewrite Forall_forall in Hk;
        now destruct (Hk _ Hin)).
  destruct (json_value_int_seq v Hv) as (zs & Hseq & Hjson).
  cbn [dict_keys map json_entry fst snd keys_loop py_str].
  rewrite String.eqb_refl. cbn [negb].
  unfold dict_get at 1.
  rewrite (dict_find_In key_eqb key_eqb_eq x k v Hnd Hin). cbn [bind].
  unfold dict_get at 1.
  rewrite (dict_find_In key_eqb key_eqb_eq (map json_entry x)
             (KStr (py_str k)) (json_value v)).
  - cbn [bind]. rewrite Hseq, Hjson. cbn [as_sequence].
    rewrite Nat.eqb_refl, items_equal_ints. cbn [negb].
    apply IH. intros e He. apply Hincl. now right.
  - now apply json_keys_NoDup.
  - apply in_map_iff. now exists (k, v).
Qed.

(** A dictionary of the shape of [_parts_id] compares equal to its own
    JSON round trip. *)
Lemma is_dict_equal_json (x : pydict) :
  NoDup (dict_keys x) -> int_keyed x ->
  _is_dict_equal x (json_dict x) = Ok true.
Proof.
  intros Hnd Hk. rewrite (json_dict_map x Hnd Hk).
  unfold _is_dict_equal.
  replace (List.length (dict_keys (map json_entry x)))
    with (List.length (dict_keys x))
    by (unfold dict_keys; now rewrite !length_map).
  rewrite Nat.eqb_refl. cbn [negb].
  now rewrite (keys_loop_json x x Hnd Hk (incl_refl x)).
Qed.

End EqualFacts.

(* ================================================================== *)
(** * Deleting and reordering positions *)
(* ================================================================== *)

Module ArrayFacts.
Import PyFacts Loader.

Lemma where_from_bounds pos v a :
  Forall (fun i => (pos <= i < pos + List.length a)%nat) (where_from pos v a).
Proof.
  revert pos. induction a as [|x tl IH]; intros pos; simpl; [constructor|].
  assert (Forall (fun i => (pos <= i < pos + S (List.length tl))%nat)
                 (where_from (S pos) v tl)) as Htl.
  { eapply Forall_impl; [|apply IH]. simpl. intros i Hi. lia. }
  destruct (x =? v); [constructor; [lia|]|]; exact Htl.
Qed.

Lemma mem_nat_false p l :
  Forall (fun i => (p < i)%nat) l -> mem_nat p l = false.
Proof.
  induction 1 as [|i l Hi _ IH]; simpl; [reflexivity|].
  rewrite IH. destruct (Nat.eqb_spec p i); [lia | reflexivity].
Qed.

Lemma delete_from_skip {A} q x idx (a : list A) :
  (x < q)%nat -> delete_from q (x :: idx) a = delete_from q idx a.
Proof.
  revert q. induction a as [|y tl IH]; intros q Hx; simpl; [reflexivity|].
  destruct (Nat.eqb_spec q x); [lia|]. simpl.
  rewrite IH by lia. reflexivity.
Qed.

Lemma delete_where {A} pos v rect (a : list A) :
  List.length a = List.length rect ->
  delete_from pos (where_from pos v rect) a = select (keep_mask v rect) a.
Proof.
  revert pos a. induction rect as [|x tl IH]; intros pos a Hlen.
  - destruct a; [reflexivity | discriminate].
  - destruct a as [|y a']; [discriminate|].
    simpl in Hlen. injection Hlen as Hlen.
    cbn [where_from keep_mask map select].
    destruct (x =? v); cbn [negb].
    + cbn [delete_from mem_nat existsb]. rewrite Nat.eqb_refl. cbn [orb].
      rewrite delete_from_skip by lia. now apply IH.
    + cbn [delete_from]. rewrite mem_nat_false.
      * f_equal. now apply IH.
      * eapply Forall_impl; [|apply where_from_bounds]. simpl. intros i Hi. lia.
Qed.

Lemma np_delete_where {A} v rect (a : list A) :
  List.length a = List.length rect ->
  np_delete a (np_where_eq rect v) = Ok (select (keep_mask v rect) a).
Proof.
  intros Hlen. unfold np_delete, np_where_eq.
  replace (forallb _ _) with true.
  - now rewrite delete_where.
  - symmetry. apply forallb_forall. intros i Hi.
    pose proof (where_from_bounds 0 v rect) as Hb.
    rewrite Forall_forall in Hb. apply Hb in Hi.
    apply Nat.ltb_lt. lia.
Qed.

Lemma select_where_length {A} pos v rect (a : list A) :
  List.length a = List.length rect ->
  (List.length (where_from pos v rect)
   + List.length (select (keep_mask v rect) a) = List.length rect)%nat.
Proof.
  revert pos a. induction rect as [|x tl IH]; intros pos a Hlen.
  - reflexivity.
  - destruct a as [|y a']; [discriminate|].
    simpl in Hlen. injection Hlen as Hlen.
    cbn [where_from keep_mask map select].
    destruct (x =? v); cbn [negb List.length];
      specialize (IH (S pos) a' Hlen); unfold keep_mask in IH; lia.
Qed.

Lemma select_self v rect :
  select (keep_mask v rect) rect = filter (fun x => negb (x =? v)) rect.
Proof.
  induction rect as [|x tl IH]; [reflexivity|].
  cbn [keep_mask map select filter]. fold (keep_mask v tl).
  destruct (negb (x =? v)); now rewrite IH.
Qed.

Lemma select_self_absent v rect : ~ In v (select (keep_mask v rect) rect).
Proof.
  rewrite select_self. intros H. apply filter_In in H.
  destruct H as (_ & H). now rewrite Z.eqb_refl in H.
Qed.

Lemma select_length_same {A B} mask (a : list A) (b : list B) :
  List.length a = List.length b ->
  List.length (select mask a) = List.length (select mask b).
Proof.
  revert a b. induction mask as [|m tl IH]; intros a b Hlen; [reflexivity|].
  destruct a, b; try discriminate; [reflexivity|].
  simpl in Hlen. injection Hlen as Hlen.
  cbn [select]. destruct m; cbn [List.length]; auto.
Qed.

(** ** Picking positions *)

Lemma np_take_pick {A} (a : list A) idx :
  Forall (fun i => (i < List.length a)%nat) idx ->
  np_take a idx = Ok (pick a idx).
Proof.
  unfold np_take. induction 1 as [|i tl Hi _ IH]; [reflexivity|].
  cbn [map_r pick flat_map].
  destruct (nth_error a i) as [x|] eqn:E.
  - rewrite (proj2 (py_index_nonneg a (Z.of_nat i) x (Nat2Z.is_nonneg i)))
      by now rewrite Nat2Z.id.
    cbn [bind]. now rewrite IH.
  - apply nth_error_None in E. lia.
Qed.

Lemma pick_length {A} (a : list A) idx :
  Forall (fun i => (i < List.length a)%nat) idx ->
  List.length (pick a idx) = List.length idx.
Proof.
  induction 1 as [|i tl Hi _ IH]; [reflexivity|].
  cbn [pick flat_map]. rewrite length_app. fold (pick a tl). rewrite IH.
  destruct (nth_error a i) eqn:E; [reflexivity|].
  apply nth_error_None in E. lia.
Qed.

Lemma pick_In {A} (a : list A) idx x : In x (pick a idx) -> In x a.
Proof.
  unfold pick. rewrite in_flat_map. intros (i & _ & Hx).
  destruct (nth_error a i) as [y|] eqn:E; [|contradiction].
  destruct Hx as [<-|[]]. eapply nth_error_In; eauto.
Qed.

Lemma pick_shift {A} (x : A) a idx : pick (x :: a) (map S idx) = pick a idx.
Proof.
  induction idx as [|i tl IH]; [reflexivity|].
  cbn [map pick flat_map nth_error]. f_equal. exact IH.
Qed.

Lemma pick_seq {A} (a : list A) : pick a (seq 0 (List.length a)) = a.
Proof.
  induction a as [|x tl IH]; [reflexivity|].
  cbn [List.length seq]. rewrite <- seq_shift.
  cbn [pick flat_map nth_error].
  fold (pick (x :: tl) (map S (seq 0 (List.length tl)))).
  now rewrite pick_shift, IH.
Qed.

Lemma pick_perm {A} (a : list A) idx :
  Permutation idx (seq 0 (List.length a)) -> Permutation (pick a idx) a.
Proof.
  intros H. rewrite <- (pick_seq a) at 2.
  unfold pick. now apply Permutation_flat_map.
Qed.

Lemma nth_error_combine {A B} (a : list A) (b : list B) i :
  nth_error (combine a b) i =
  match nth_error a i, nth_error b i with
  | Some x, Some y => Some (x, y)
  | _, _ => None
  end.
Proof.
  revert b i. induction a as [|x a IH]; intros b i.
  - now destruct i.
  - destruct b as [|y b].
    + simpl. destruct i; simpl; [reflexivity|]. now destruct (nth_error a i).
    + destruct i; simpl; [reflexivity | apply IH].
Qed.

Lemma pick_combine {A B} (a : list A) (b : list B) idx :
  List.length a = List.length b ->
  pick (combine a b) idx = combine (pick a idx) (pick b idx).
Proof.
  intros Hlen. induction idx as [|i tl IH]; [reflexivity|].
  cbn [pick flat_map]. fold (pick (combine a b) tl) (pick a tl) (pick b tl).
  rewrite IH, nth_error_combine.
  destruct (nth_error a i) as [x|] eqn:Ea, (nth_error b i) as [y|] eqn:Eb;
    try reflexivity.
  - apply nth_error_None in Eb.
    assert (nth_error a i <> None) as Hn by congruence.
    apply nth_error_Some in Hn. lia.
  - apply nth_error_None in Ea.
    assert (nth_error b i <> None) as Hn by congruence.
    apply nth_error_Some in Hn. lia.
Qed.

Lemma perm_in_range n idx :
  Permutation idx (seq 0 n) ->
  Forall (fun i => (i < n)%nat) idx /\ List.length idx = n.
Proof.
  intros H. split.
  - apply Forall_forall. intros i Hi.
    apply (Permutation_in _ H), in_seq in Hi. lia.
  - rewrite (Permutation_length H). apply length_seq.
Qed.

End ArrayFacts.

(* ================================================================== *)
(** * The part loader *)
(* ================================================================== *)

Module LoaderFacts.
Import PyFacts ArrayFacts Loader.

Section WithNumpy.
Context {NP : Numpy}.

Lemma xy_cases (xy : string) :
  xy = "x" \/ xy = "y" \/
  (String.eqb xy "x" = false /\ String.eqb xy "y" = false).
Proof.
  destruct (String.eqb_spec xy "x"); [now left|].
  destruct (String.eqb_spec xy "y"); [now right; left|].
  right; right. now split.
Qed.

Lemma np_array_ok r npr : np_array r = Ok npr -> npr = r.
Proof.
  unfold np_array. destruct r as [|a tl]; [intros H; now inversion H|].
  destruct (forallb _ tl); intros H; now inversion H.
Qed.

Lemma load_id_lengths n first last ids :
  _load_id n first last = Ok ids ->
  let k := List.length (py_range first (last + 1)) in
  List.length (id_image ids) = k /\ List.length (id_rect ids) = k /\
  List.length (id_project ids) = k /\ List.length (id_mutator ids) = k.
Proof.
  unfold _load_id. intros H.
  apply bind_ok in H as (rows & Hrows & H). inversion H; subst ids.
  apply map_r_length in Hrows. simpl.
  rewrite !length_map. now rewrite Hrows.
Qed.

(** What a successful [load_rows] went through. *)
Lemma load_rows_inv self d part xy pd :
  load_rows self d part xy = Ok pd ->
  (xy = "x" \/ xy = "y") /\
  exists fr bounds,
    np_load d (rect_file self xy) = Ok fr /\
    dict_get Z.eqb (_parts_id self) part = Ok bounds /\
    map_r (load_rect self fr part)
          (py_range (fst bounds) (snd bounds + 1)) = Ok (pd_rect pd) /\
    List.length (pd_fphoto pd) = List.length (pd_rect pd) /\
    _load_id (manifest_lines self xy) (fst bounds) (snd bounds)
      = Ok (pd_id pd) /\
    pd_removed pd = 0%nat.
Proof.
  intros H. unfold load_rows in H.
  assert ((xy = "x" \/ xy = "y") /\
          rect_file self xy =
            (if String.eqb xy "x" then _file_rect_images_x self
             else _file_rect_images_y self)) as [Hxy Hfile].
  { split; [|reflexivity].
    destruct (xy_cases xy) as [?|[?|[Hx Hy]]]; auto.
    rewrite Hx, Hy in H. discriminate. }
  split; [exact Hxy|].
  apply bind_ok in H as (fr & Hfr & H).
  apply bind_ok in H as (bounds & Hb & H).
  apply bind_ok in H as (r & Hr & H).
  apply bind_ok in H as (fp & Hfp & H).
  apply bind_ok in H as (u & Hlen & H). apply assert_ok in Hlen.
  apply bind_ok in H as (u' & _ & H).
  apply bind_ok in H as (npr & Hnpr & H).
  apply bind_ok in H as (ids & Hids & H).
  inversion H; subst pd. cbn [pd_rect pd_fphoto pd_id pd_removed].
  apply np_array_ok in Hnpr. subst npr.
  apply Nat.eqb_eq in Hlen.
  exists fr, bounds. repeat split; auto.
  - rewrite Hfile. destruct Hxy as [-> | ->]; exact Hfr.
  - unfold manifest_lines. destruct Hxy as [-> | ->]; exact Hids.
Qed.

Lemma load_rows_aligned self d part xy pd :
  load_rows self d part xy = Ok pd ->
  aligned pd (List.length (pd_rect pd)).
Proof.
  intros H. apply load_rows_inv in H.
  destruct H as (_ & fr & bounds & _ & _ & Hr & Hfp & Hids & _).
  apply map_r_length in Hr. apply load_id_lengths in Hids.
  cbv zeta in Hids. rewrite <- Hr in Hids.
  unfold aligned. tauto.
Qed.

(** ** Null removal *)

Lemma where_none_select {A} v rect (a : list A) :
  List.length a = List.length rect ->
  where_from 0 v rect = [] -> select (keep_mask v rect) a = a.
Proof.
  intros Hlen Hw. rewrite <- (delete_where 0 v rect a Hlen), Hw.
  clear. generalize 0%nat. induction a as [|x tl IH]; intros pos; simpl;
    [reflexivity | now rewrite IH].
Qed.

Lemma remove_null_rows_spec pd n :
  aligned pd n ->
  remove_null_rows pd = Ok (filtered pd).
Proof.
  intros (H1 & H2 & H3 & H4 & H5 & H6).
  unfold remove_null_rows, filtered, null_mask.
  destruct (Nat.ltb_spec 0
              (List.length (np_where_eq (id_rect (pd_id pd)) (-1))))
    as [Hpos|Hzero].
  - rewrite !np_delete_where by congruence. reflexivity.
  - assert (where_from 0 (-1) (id_rect (pd_id pd)) = []) as Hw.
    { unfold np_where_eq in Hzero.
      destruct (where_from 0 (-1) (id_rect (pd_id pd))); [reflexivity|].
      simpl in Hzero. lia. }
    rewrite !where_none_select by congruence.
    destruct pd as [r f [a b c e] k]. reflexivity.
Qed.

Lemma filtered_ok pd n :
  aligned pd n ->
  aligned (filtered pd) (List.length (pd_fphoto (filtered pd))) /\
  ~ In (-1) (id_rect (pd_id (filtered pd))) /\
  (pd_removed (filtered pd) + List.length (pd_fphoto (filtered pd)) = n)%nat.
Proof.
  intros (H1 & H2 & H3 & H4 & H5 & H6). unfold filtered.
  cbn [pd_rect pd_fphoto pd_id pd_removed
       id_image id_rect id_project id_mutator].
  split; [|split].
  - unfold aligned.
    cbn [pd_rect pd_fphoto pd_id id_image id_rect id_project id_mutator].
    repeat split; apply select_length_same; congruence.
  - apply select_self_absent.
  - unfold np_where_eq, null_mask.
    rewrite <- H4. apply select_where_length. congruence.
Qed.

(** ** Shuffling *)

Lemma rows_of_length pd n : aligned pd n -> List.length (rows_of pd) = n.
Proof.
  intros (H1 & H2 & H3 & H4 & H5 & H6). unfold rows_of.
  rewrite !length_combine. lia.
Qed.

Lemma rows_of_picked pd n idx :
  aligned pd n -> rows_of (picked pd idx) = pick (rows_of pd) idx.
Proof.
  intros (H1 & H2 & H3 & H4 & H5 & H6). unfold rows_of, picked.
  cbn [pd_rect pd_fphoto pd_id id_image id_rect id_project id_mutator].
  rewrite !pick_combine; rewrite ?length_combine; try lia.
  reflexivity.
Qed.

Lemma shuffle_rows_spec pd n g :
  aligned pd n ->
  shuffle_rows pd g =
  Ok (picked pd (fst (np_random_shuffle g n)), snd (np_random_shuffle g n)).
Proof.
  intros Ha. pose proof Ha as (H1 & H2 & H3 & H4 & H5 & H6).
  unfold shuffle_rows. rewrite H1.
  pose proof (np_random_shuffle_perm g n) as Hperm.
  destruct (np_random_shuffle g n) as [idx g'] eqn:E. cbn [fst snd] in *.
  destruct (perm_in_range n idx Hperm) as (Hin & _).
  assert (forall A (a : list A), List.length a = n ->
            Forall (fun i => (i < List.length a)%nat) idx) as Hb
    by (intros A a Hlen; now rewrite Hlen).
  rewrite !np_take_pick by auto. reflexivity.
Qed.

Lemma picked_aligned pd n idx :
  aligned pd n -> Permutation idx (seq 0 n) -> aligned (picked pd idx) n.
Proof.
  intros (H1 & H2 & H3 & H4 & H5 & H6) Hperm.
  destruct (perm_in_range n idx Hperm) as (Hin & Hlen).
  assert (forall A (a : list A), List.length a = n ->
            Forall (fun i => (i < List.length a)%nat) idx) as Hb
    by (intros A a Ha; now rewrite Ha).
  unfold aligned, picked.
  cbn [pd_rect pd_fphoto pd_id id_image id_rect id_project id_mutator].
  rewrite !pick_length by auto. tauto.
Qed.

Lemma picked_rows_perm pd n idx :
  aligned pd n -> Permutation idx (seq 0 n) ->
  Permutation (rows_of (picked pd idx)) (rows_of pd).
Proof.
  intros Ha Hperm. rewrite (rows_of_picked pd n idx Ha).
  apply pick_perm. now rewrite (rows_of_length pd n Ha).
Qed.

(** ** [_load_data_part] in one equation *)

Lemma load_data_part_eq self d g part xy rn sh :
  _load_data_part self d g part xy rn sh =
  (rows <- load_rows self d part xy ;; Ok (staged rows rn sh g)).
Proof.
  unfold _load_data_part.
  destruct (load_rows self d part xy) as [rows|e] eqn:E; [|reflexivity].
  cbn [bind]. pose proof (load_rows_aligned _ _ _ _ _ E) as Ha.
  assert (exists n,
            aligned (if rn then filtered rows else rows) n /\
            n = List.length (pd_rect (if rn then filtered rows else rows)))
    as (n & Ha1 & Hn).
  { destruct rn.
    - destruct (filtered_ok rows _ Ha) as (Hf & _).
      eexists. split; [exact Hf|]. now destruct Hf as (-> & _).
    - eexists. split; [exact Ha | reflexivity]. }
  unfold staged.
  destruct rn.
  - rewrite (remove_null_rows_spec rows _ Ha). cbn [bind].
    destruct sh; [|reflexivity].
    rewrite (shuffle_rows_spec _ n g Ha1). now rewrite Hn.
  - cbn [bind]. destruct sh; [|reflexivity].
    rewrite (shuffle_rows_spec _ n g Ha1). now rewrite Hn.
Qed.

Lemma staged_aligned rows n rn sh g :
  aligned rows n ->
  aligned (fst (staged rows rn sh g))
          (List.length (pd_fphoto (fst (staged rows rn sh g)))).
Proof.
  intros Ha. unfold staged.
  assert (exists m, aligned (if rn then filtered rows else rows) m)
    as (m & Hm).
  { destruct rn; [|eauto].
    destruct (filtered_ok rows n Ha) as (Hf & _). eauto. }
  destruct sh; cbn [fst].
  - pose proof Hm as (H1 & _). rewrite H1.
    pose proof (picked_aligned _ m _ Hm (np_random_shuffle_perm g m)) as Hp.
    pose proof Hp as (_ & -> & _). exact Hp.
  - pose proof Hm as (_ & -> & _). exact Hm.
Qed.

Lemma staged_length rows n rn sh g :
  aligned rows n ->
  List.length (pd_fphoto (fst (staged rows rn sh g))) =
  List.length (pd_fphoto (if rn then filtered rows else rows)).
Proof.
  intros Ha. unfold staged.
  assert (exists m, aligned (if rn then filtered rows else rows) m)
    as (m & Hm).
  { destruct rn; [|eauto].
    destruct (filtered_ok rows n Ha) as (Hf & _). eauto. }
  destruct sh; cbn [fst]; [|reflexivity].
  pose proof Hm as (H1 & H2 & _). rewrite H1, H2.
  pose proof (picked_aligned _ m _ Hm (np_random_shuffle_perm g m)) as Hp.
  now destruct Hp as (_ & -> & _).
Qed.

Lemma staged_removed rows rn sh g :
  pd_removed (fst (staged rows rn sh g)) =
  pd_removed (if rn then filtered rows else rows).
Proof. unfold staged. now destruct sh. Qed.

Lemma staged_null_free rows n sh g :
  aligned rows n ->
  ~ In (-1) (id_rect (pd_id (fst (staged rows true sh g)))).
Proof.
  intros Ha. destruct (filtered_ok rows n Ha) as (_ & Hnull & _).
  unfold staged. destruct sh; cbn [fst]; [|exact Hnull].
  unfold picked. cbn [pd_id id_rect]. intros Hin.
  apply pick_In in Hin. contradiction.
Qed.

Lemma staged_perm rows n rn g g0 :
  aligned rows n ->
  Permutation (rows_of (fst (staged rows rn true g)))
              (rows_of (fst (staged rows rn false g0))).
Proof.
  intros Ha. unfold staged. cbn [fst].
  assert (exists m, aligned (if rn then filtered rows else rows) m)
    as (m & Hm).
  { destruct rn; [|eauto].
    destruct (filtered_ok rows n Ha) as (Hf & _). eauto. }
  pose proof Hm as (H1 & _). rewrite H1.
  apply (picked_rows_perm _ m); [exact Hm | apply np_random_shuffle_perm].
Qed.

(** ** The two streams of [load_part] *)

Lemma stream_branch self d g part s rn sh (want : bool) o g1 :
  (if want
   then r <- _load_data_part self d g part s rn sh ;;
        Ok (Some (stream_of (fst r)), snd r)
   else Ok (None, g)) = Ok (o, g1) ->
  (want = false /\ o = None /\ g1 = g) \/
  (want = true /\ exists rows,
      load_rows self d part s = Ok rows /\
      o = Some (stream_of (fst (staged rows rn sh g))) /\
      g1 = snd (staged rows rn sh g)).
Proof.
  destruct want; intros H.
  - right. split; [reflexivity|].
    rewrite load_data_part_eq in H.
    destruct (load_rows self d part s) as [rows|e]; [|discriminate].
    cbn [bind] in H. inversion H. eauto.
  - left. inversion H. auto.
Qed.

Lemma stream_null_filtered rows n sh g g0 :
  aligned rows n ->
  null_filtered (Some (stream_of (fst (staged rows true sh g))))
                (Some (stream_of (fst (staged rows false sh g0)))).
Proof.
  intros Ha. unfold null_filtered, stream_of.
  cbn [so_id so_len so_removed].
  rewrite !(staged_length rows n) by exact Ha.
  rewrite staged_removed.
  destruct (filtered_ok rows n Ha) as (_ & _ & Hcount).
  pose proof (staged_null_free rows n sh g Ha) as Hnull.
  destruct Ha as (_ & H2 & _).
  split; [exact Hnull|]. lia.
Qed.

Lemma stream_same_rows rows n rn g g0 :
  aligned rows n ->
  same_rows (Some (stream_of (fst (staged rows rn true g))))
            (Some (stream_of (fst (staged rows rn false g0)))).
Proof.
  intros Ha. unfold same_rows, stream_of, part_of_stream.
  cbn [so_id so_len so_removed so_rect so_fphoto].
  pose proof (staged_perm rows n rn g g0 Ha) as Hperm.
  pose proof (staged_aligned rows n rn true g Ha) as Ha1.
  pose proof (staged_aligned rows n rn false g0 Ha) as Ha2.
  rewrite !staged_removed.
  rewrite (staged_length rows n rn true g Ha),
          (staged_length rows n rn false g0 Ha) in *.
  repeat split; try (exact Hperm); try apply Ha1; try apply Ha2.
Qed.

(** The returned mapping has the entries of exactly the streams asked
    for. *)
Lemma requested_streams self d g part xy rn sh b g' :
  load_part self d g part xy rn sh = Ok (b, g') ->
  (out_x b <> None <-> xy = "x" \/ xy = "xy") /\
  (out_y b <> None <-> xy = "y" \/ xy = "xy").
Proof.
  intros H. unfold load_part in H.
  apply bind_ok in H as (u1 & _ & H).
  apply bind_ok in H as (u2 & _ & H).
  apply bind_ok in H as ([ox gx] & Hx & H).
  apply bind_ok in H as ([oy gy] & Hy & H).
  cbn [fst snd] in *. inversion H; subst b g'. clear H. cbn [out_x out_y].
  apply stream_branch in Hx. apply stream_branch in Hy.
  rewrite <- !String.eqb_eq, <- !orb_true_iff.
  split.
  - destruct Hx as [(-> & -> & _) | (-> & rx & _ & -> & _)];
      split; congruence.
  - destruct Hy as [(-> & -> & _) | (-> & ry & _ & -> & _)];
      split; congruence.
Qed.

(** C1. When [load_part] returns with [remove_null] set, it returns
    the entries of exactly the streams asked for; the same call without
    [remove_null] returns too, and for each requested stream the rect id
    array holds no [-1] and the removed count is the length without the
    filter minus the returned length. *)
Theorem remove_null_leaves_no_null self d g part xy shuffle b g' :
  load_part self d g part xy true shuffle = Ok (b, g') ->
  (out_x b <> None <-> xy = "x" \/ xy = "xy") /\
  (out_y b <> None <-> xy = "y" \/ xy = "xy") /\
  exists b0 g0,
    load_part self d g part xy false shuffle = Ok (b0, g0) /\
    null_filtered (out_x b) (out_x b0) /\
    null_filtered (out_y b) (out_y b0).
Proof.
  intros H.
  destruct (requested_streams _ _ _ _ _ _ _ _ _ H) as (Hrx & Hry).
  split; [exact Hrx|]. split; [exact Hry|]. clear Hrx Hry.
  unfold load_part in H.
  apply bind_ok in H as (u1 & Hpart & H).
  apply bind_ok in H as (u2 & Hxy & H).
  apply bind_ok in H as ([ox gx] & Hx & H).
  apply bind_ok in H as ([oy gy] & Hy & H).
  cbn [fst snd] in *. inversion H; subst b g'. clear H.
  apply stream_branch in Hx. apply stream_branch in Hy.
  unfold load_part. rewrite Hpart, Hxy. cbn [bind].
  destruct Hx as [(Hwx & -> & ->) | (Hwx & rx & Hrx & -> & ->)];
    rewrite Hwx; [|rewrite load_data_part_eq, Hrx]; cbn [bind fst snd];
  (destruct Hy as [(Hwy & -> & Hgy) | (Hwy & ry & Hry & -> & Hgy)];
    rewrite Hwy; [|rewrite load_data_part_eq, Hry]; cbn [bind fst snd]);
  eexists _, _; (split; [reflexivity|]);
  cbn [out_x out_y]; split; try exact I;
  eapply stream_null_filtered; eapply load_rows_aligned; eauto.
Qed.

(** C2. When [load_part] returns with [shuffle] set, it returns the
    entries of exactly the streams asked for; the same call without
    [shuffle] returns too, and each requested stream holds the same rows
    (rect image, floor photo and the four ids of one position kept
    together) in some order; lengths and removed counts agree. *)
Theorem shuffle_keeps_rows_together self d g part xy remove_null b g' :
  load_part self d g part xy remove_null true = Ok (b, g') ->
  (out_x b <> None <-> xy = "x" \/ xy = "xy") /\
  (out_y b <> None <-> xy = "y" \/ xy = "xy") /\
  exists b0,
    load_part self d g part xy remove_null false = Ok (b0, g) /\
    same_rows (out_x b) (out_x b0) /\
    same_rows (out_y b) (out_y b0).
Proof.
  intros H.
  destruct (requested_streams _ _ _ _ _ _ _ _ _ H) as (Hrx & Hry).
  split; [exact Hrx|]. split; [exact Hry|]. clear Hrx Hry.
  unfold load_part in H.
  apply bind_ok in H as (u1 & Hpart & H).
  apply bind_ok in H as (u2 & Hxy & H).
  apply bind_ok in H as ([ox gx] & Hx & H).
  apply bind_ok in H as ([oy gy] & Hy & H).
  cbn [fst snd] in *. inversion H; subst b g'. clear H.
  apply stream_branch in Hx. apply stream_branch in Hy.
  unfold load_part. rewrite Hpart, Hxy. cbn [bind].
  destruct Hx as [(Hwx & -> & ->) | (Hwx & rx & Hrx & -> & ->)];
    rewrite Hwx; [|rewrite load_data_part_eq, Hrx]; cbn [bind fst snd];
  (destruct Hy as [(Hwy & -> & Hgy) | (Hwy & ry & Hry & -> & Hgy)];
    rewrite Hwy; [|rewrite load_data_part_eq, Hry]; cbn [bind fst snd]);
  eexists; (split; [reflexivity|]);
  cbn [out_x out_y]; split; try exact I;
  eapply stream_same_rows; eapply load_rows_aligned; eauto.
Qed.

(** C3, as the code has it. Without [shuffle] the generator is neither
    read nor advanced: a call that returns leaves its state as it was,
    and the same call returns the same bundle from any generator state,
    so the next call with the same arguments over the same files returns
    an identical bundle. *)
Theorem unshuffled_load_repeats self d g part xy remove_null b g' :
  load_part self d g part xy remove_null false = Ok (b, g') ->
  g' = g /\
  forall g2, load_part self d g2 part xy remove_null false = Ok (b, g2).
Proof.
  intros H. unfold load_part in H.
  apply bind_ok in H as (u1 & Hpart & H).
  apply bind_ok in H as (u2 & Hxy & H).
  apply bind_ok in H as ([ox gx] & Hx & H).
  apply bind_ok in H as ([oy gy] & Hy & H).
  cbn [fst snd] in *. inversion H; subst b g'. clear H.
  apply stream_branch in Hx. apply stream_branch in Hy.
  assert (gy = g /\ forall g2,
    load_part self d g2 part xy remove_null false
    = Ok (mkBundle ox oy part xy, g2)) as Hgoal; [|exact Hgoal].
  unfold load_part. rewrite Hpart, Hxy. cbn [bind].
  destruct Hx as [(Hwx & -> & ->) | (Hwx & rx & Hrx & -> & ->)];
    rewrite Hwx;
  (destruct Hy as [(Hwy & -> & ->) | (Hwy & ry & Hry & -> & ->)];
    rewrite Hwy);
  (split; [reflexivity|]); intros g2;
  rewrite ?load_data_part_eq, ?Hrx; cbn [bind fst snd staged];
  rewrite ?load_data_part_eq, ?Hry; reflexivity.
Qed.

End WithNumpy.

Lemma remove_null_leaves_no_null_witness :
  exists b g' b0 g0,
    load_part (NP := Demo.demo_numpy) Demo.demo_loader Demo.demo_disk
              0%nat 1 "xy" true true = Ok (b, g') /\
    load_part Demo.demo_loader Demo.demo_disk 0%nat 1 "xy" false true
      = Ok (b0, g0) /\
    null_filtered (out_x b) (out_x b0) /\
    null_filtered (out_y b) (out_y b0).
Proof.
  eexists _, _.
  assert (load_part (NP := Demo.demo_numpy) Demo.demo_loader Demo.demo_disk
            0%nat 1 "xy" true true = Ok _) as Hrun
    by (vm_compute; reflexivity).
  destruct (remove_null_leaves_no_null _ _ _ _ _ _ _ _ Hrun)
    as (_ & _ & b0 & g0 & H0 & Hx & Hy).
  exists b0, g0. exact (conj Hrun (conj H0 (conj Hx Hy))).
Defined.

Lemma shuffle_keeps_rows_together_witness :
  exists b g' b0,
    load_part (NP := Demo.demo_numpy) Demo.demo_loader Demo.demo_disk
              0%nat 2 "xy" false true = Ok (b, g') /\
    load_part Demo.demo_loader Demo.demo_disk 0%nat 2 "xy" false false
      = Ok (b0, 0%nat) /\
    same_rows (out_x b) (out_x b0) /\
    same_rows (out_y b) (out_y b0).
Proof.
  eexists _, _.
  assert (load_part (NP := Demo.demo_numpy) Demo.demo_loader Demo.demo_disk
            0%nat 2 "xy" false true = Ok _) as Hrun
    by (vm_compute; reflexivity).
  destruct (shuffle_keeps_rows_together _ _ _ _ _ _ _ _ Hrun)
    as (_ & _ & b0 & H0 & Hx & Hy).
  exists b0. exact (conj Hrun (conj H0 (conj Hx Hy))).
Defined.

Lemma unshuffled_load_repeats_witness :
  exists b,
    load_part (NP := Demo.demo_numpy) Demo.demo_loader Demo.demo_disk
              0%nat 1 "xy" true false = Ok (b, 0%nat) /\
    load_part Demo.demo_loader Demo.demo_disk 5%nat 1 "xy" true false
      = Ok (b, 5%nat).
Proof.
  eexists.
  assert (load_part (NP := Demo.demo_numpy) Demo.demo_loader Demo.demo_disk
            0%nat 1 "xy" true false = Ok _) as Hrun
    by (vm_compute; reflexivity).
  split; [exact Hrun|].
  exact (proj2 (unshuffled_load_repeats _ _ _ _ _ _ _ _ Hrun) 5%nat).
Defined.

(** With [shuffle] set, two successive calls with the same arguments over
    the same files return different arrays: the second call starts from
    the generator state the first one left. *)
Lemma shuffled_load_differs :
  exists b1 g1 b2 g2,
    load_part (NP := Demo.demo_numpy) Demo.demo_loader Demo.demo_disk
              0%nat 2 "x" false true = Ok (b1, g1) /\
    load_part Demo.demo_loader Demo.demo_disk g1 2 "x" false true
      = Ok (b2, g2) /\
    option_map so_id (out_x b1)
      = Some (mkIds [3; 2] [13; 12] [62; 62] [8; 6]) /\
    option_map so_id (out_x b2)
      = Some (mkIds [2; 3] [12; 13] [62; 62] [6; 8]) /\
    b1 <> b2.
Proof.
  eexists _, _, _, _.
  split; [vm_compute; reflexivity|].
  split; [vm_compute; reflexivity|].
  split; [reflexivity|]. split; [reflexivity|].
  intros E. discriminate E.
Qed.

End LoaderFacts.

(* ================================================================== *)
(** * Rect images: the pixel contract and the positions read *)
(* ================================================================== *)

Module RectFacts.
Import PyFacts ArrayFacts Loader LoaderFacts.

Section WithNumpy.
Context {NP : Numpy}.

Lemma scale_rect_ok i part im out :
  scale_rect i part im = Ok out -> unit_range im /\ out = np_multiply_255 im.
Proof.
  unfold scale_rect, np_min, np_max, unit_range. intros H.
  destruct (list_min (pixels im)) as [mn|]; [|discriminate].
  destruct (list_max (pixels im)) as [mx|]; cbn [bind] in H.
  - destruct (Z.eqb_spec mn 0) as [->|]; [|discriminate].
    cbn [bind] in H.
    destruct (Z.leb_spec mx 1); [|discriminate].
    cbn [bind] in H. inversion H. eauto.
  - destruct (mn =? 0); discriminate.
Qed.

Lemma scale_rect_complete i part im :
  unit_range im -> scale_rect i part im = Ok (np_multiply_255 im).
Proof.
  intros (Hmin & mx & Hmax & Hle). unfold scale_rect, np_min, np_max.
  rewrite Hmin, Hmax. cbn [bind]. rewrite Z.eqb_refl. cbn [bind].
  destruct (Z.leb_spec mx 1); [reflexivity | lia].
Qed.

Lemma scale_rect_fail i part im :
  ~ unit_range im -> exists e, scale_rect i part im = Raise e.
Proof.
  intros Hn. destruct (scale_rect i part im) as [out|e] eqn:E; [|eauto].
  apply scale_rect_ok in E. tauto.
Qed.

Lemma load_rect_inv self fr part i out :
  load_rect self fr part i = Ok out ->
  exists fri im,
    py_index fr i = Ok fri /\ prepare_rect self fri = Ok im /\
    unit_range im /\ out = np_multiply_255 im.
Proof.
  unfold load_rect. intros H.
  apply bind_ok in H as (fri & Hfri & H).
  apply bind_ok in H as (u & _ & H).
  apply bind_ok in H as (im & Him & H).
  apply scale_rect_ok in H. destruct H as (Hu & Hout).
  exists fri, im. exact (conj Hfri (conj Him (conj Hu Hout))).
Qed.

Lemma load_rect_fail self fr part i fri im :
  py_index fr i = Ok fri -> prepare_rect self fri = Ok im ->
  ~ unit_range im -> exists e, load_rect self fr part i = Raise e.
Proof.
  intros Hfri Him Hn. unfold load_rect. rewrite Hfri. cbn [bind].
  destruct (check_rect_shape self fri) as [u|e]; [|cbn [bind]; eauto].
  cbn [bind]. rewrite Him. cbn [bind]. now apply scale_rect_fail.
Qed.

Lemma load_rows_rect_fail self d part xy fr bounds i e :
  xy = "x" \/ xy = "y" ->
  np_load d (rect_file self xy) = Ok fr ->
  dict_get Z.eqb (_parts_id self) part = Ok bounds ->
  fst bounds <= i <= snd bounds ->
  load_rect self fr part i = Raise e ->
  exists e', load_rows self d part xy = Raise e'.
Proof.
  intros Hxy Hfr Hb Hi He.
  assert (In i (py_range (fst bounds) (snd bounds + 1))) as Hin
    by (apply py_range_In; lia).
  destruct (map_r_raise (load_rect self fr part) _ i e Hin He) as (e' & Hr).
  exists e'. unfold load_rows.
  destruct Hxy as [-> | ->]; unfold rect_file in Hfr; cbn in Hfr;
    cbn [String.eqb Ascii.eqb Bool.eqb]; rewrite Hfr; cbn [bind];
    rewrite Hb; cbn [bind]; rewrite Hr; reflexivity.
Qed.

Lemma load_part_raise self d g part xy rn sh e :
  xy = "x" \/ xy = "y" ->
  load_rows self d part xy = Raise e ->
  forall xy', xy' = xy \/ xy' = "xy" ->
  exists e', load_part self d g part xy' rn sh = Raise e'.
Proof.
  intros Hxy He xy' Hxy'. unfold load_part.
  destruct (assert_ _ _) as [u1|e1]; [|cbn [bind]; eauto]. cbn [bind].
  destruct (assert_ _ _) as [u2|e2]; [|cbn [bind]; eauto]. cbn [bind].
  destruct Hxy as [-> | ->]; destruct Hxy' as [-> | ->];
    cbn [String.eqb Ascii.eqb Bool.eqb orb].
  - rewrite load_data_part_eq, He. cbn [bind]. eauto.
  - rewrite load_data_part_eq, He. cbn [bind]. eauto.
  - cbn [bind snd]. rewrite load_data_part_eq, He. cbn [bind]. eauto.
  - destruct (_load_data_part self d g part "x" rn sh) as [r|e0];
      cbn [bind]; [|eauto].
    cbn [snd]. rewrite load_data_part_eq, He. cbn [bind]. eauto.
Qed.

Lemma Forall2_In_r {A B} (R : A -> B -> Prop) xs ys y :
  Forall2 R xs ys -> In y ys -> exists x, In x xs /\ R x y.
Proof.
  induction 1 as [|x0 y0 xs' ys' Hxy _ IH]; intros Hin; [contradiction|].
  destruct Hin as [<-|Hin].
  - exists x0. split; [now left | exact Hxy].
  - destruct (IH Hin) as (x & Hx & HR). exists x. split; [now right | exact HR].
Qed.

Lemma select_In {A} mask (a : list A) x : In x (select mask a) -> In x a.
Proof.
  revert a. induction mask as [|m tl IH]; intros a H; [contradiction|].
  destruct a as [|y a']; [contradiction|].
  cbn [select] in H. destruct m.
  - destruct H as [->|H]; [now left | right; auto].
  - right; auto.
Qed.

Lemma staged_rect_incl rows rn sh g out :
  In out (pd_rect (fst (staged rows rn sh g))) -> In out (pd_rect rows).
Proof.
  unfold staged. intros H.
  assert (forall o, In o (pd_rect (if rn then filtered rows else rows)) ->
                    In o (pd_rect rows)) as Hf.
  { destruct rn; [|auto]. unfold filtered. cbn [pd_rect].
    intros o. apply select_In. }
  destruct sh; cbn [fst] in H; [|auto].
  unfold picked in H. cbn [pd_rect] in H. apply pick_In in H. auto.
Qed.

End WithNumpy.

End RectFacts.

(* ================================================================== *)
(** * Global ids used as positions *)
(* ================================================================== *)

Module PositionFacts.
Import PyFacts ArrayFacts Loader LoaderFacts RectFacts Notions.

Lemma rows_of_ids_of_rows rows : rows_of_ids (ids_of_rows rows) = rows.
Proof.
  unfold rows_of_ids, ids_of_rows. cbn [id_image id_rect id_project id_mutator].
  induction rows as [|[[[a b] c] e] tl IH]; [reflexivity|].
  cbn [map combine fst snd]. f_equal. exact IH.
Qed.

(** The image id [_load_id] records is the global id the parser reads. *)
Lemma parse_id_row_image line r :
  parse_id_row line = Ok r -> Manifest._get_id line = Ok (fst (fst (fst r))).
Proof.
  unfold parse_id_row, Manifest._get_id. intros H.
  apply bind_ok in H as (f0 & Hf0 & H).
  apply bind_ok in H as (image_id & Hid & H).
  apply bind_ok in H as (f1 & _ & H).
  apply bind_ok in H as (k0 & _ & H).
  rewrite Hf0. cbn [bind]. rewrite Hid. f_equal.
  destruct (String.eqb (strip k0) "[NULL]").
  - apply bind_ok in H as (k2 & _ & H). apply bind_ok in H as (p & _ & H).
    apply bind_ok in H as (k3 & _ & H). apply bind_ok in H as (m & _ & H).
    now inversion H.
  - apply bind_ok in H as (re & _ & H).
    apply bind_ok in H as (k1 & _ & H). apply bind_ok in H as (p & _ & H).
    apply bind_ok in H as (k2 & _ & H). apply bind_ok in H as (m & _ & H).
    now inversion H.
Qed.

Lemma Forall2_map_eq {A B} (R : A -> B -> Prop) (f : B -> A) xs ys :
  Forall2 R xs ys ->
  (forall x y, In x xs -> R x y -> f y = x) -> map f ys = xs.
Proof.
  induction 1 as [|x y xs' ys' Hxy _ IH]; intros Hf; [reflexivity|].
  cbn [map]. f_equal.
  - apply Hf; [now left | exact Hxy].
  - apply IH. intros x' y' Hin. apply Hf. now right.
Qed.

Lemma Forall2_map_inv {A B} (R : A -> B -> Prop) (f : B -> A) xs ys :
  Forall2 R xs ys -> map f ys = xs ->
  forall x, In x xs -> exists y, R x y /\ f y = x.
Proof.
  induction 1 as [|x0 y0 xs' ys' Hxy _ IH]; intros Hmap x Hin; [contradiction|].
  cbn [map] in Hmap. injection Hmap as Hhd Htl.
  destruct Hin as [<-|Hin]; [eauto | auto].
Qed.

Section WithNumpy.
Context {NP : Numpy}.

(** C9, as the code has it. Without filter and shuffle, and with the
    ids of the lines of the part in the [int64] range, the rect image
    and the id row returned at offset [j] of part [p] are read at index
    [first_id(p) + j] of the rect array and of the manifest line list;
    and the returned image ids are [first_id(p) .. last_id(p)] exactly
    when every line at an index in that range has that index as its
    global id. *)
Theorem ids_index_the_arrays self d g part xy pd g' fr bounds :
  _load_data_part self d g part xy false false = Ok (pd, g') ->
  np_load d (rect_file self xy) = Ok fr ->
  dict_get Z.eqb (_parts_id self) part = Ok bounds ->
  (forall i line r,
      fst bounds <= i <= snd bounds ->
      py_index (manifest_lines self xy) i = Ok line ->
      parse_id_row line = Ok r -> int64_row r) ->
  Forall2 (fun i out => exists fri im,
             py_index fr i = Ok fri /\ prepare_rect self fri = Ok im /\
             out = np_multiply_255 im)
          (py_range (fst bounds) (snd bounds + 1)) (pd_rect pd) /\
  Forall2 (fun i r => exists line,
             py_index (manifest_lines self xy) i = Ok line /\
             parse_id_row line = Ok r)
          (py_range (fst bounds) (snd bounds + 1)) (rows_of_ids (pd_id pd)) /\
  (id_image (pd_id pd) = py_range (fst bounds) (snd bounds + 1) <->
   forall i, fst bounds <= i <= snd bounds ->
     exists line, py_index (manifest_lines self xy) i = Ok line /\
                  Manifest._get_id line = Ok i).
Proof.
  intros H Hfr Hb _. rewrite load_data_part_eq in H.
  apply bind_ok in H as (rows & Hrows & H).
  unfold staged in H. inversion H; subst pd g'. clear H.
  apply load_rows_inv in Hrows.
  destruct Hrows as (_ & fr' & bounds' & Hfr' & Hb' & Hr & _ & Hids & _).
  rewrite Hfr in Hfr'. rewrite Hb in Hb'.
  inversion Hfr'; inversion Hb'; subst fr' bounds'. clear Hfr' Hb'.
  unfold _load_id in Hids.
  apply bind_ok in Hids as (rs & Hrs & Hids). inversion Hids as [Hid].
  rewrite rows_of_ids_of_rows.
  apply map_r_Forall2 in Hr. apply map_r_Forall2 in Hrs.
  assert (Forall2 (fun i r => exists line,
             py_index (manifest_lines self xy) i = Ok line /\
             parse_id_row line = Ok r)
          (py_range (fst bounds) (snd bounds + 1)) rs) as Hlines.
  { eapply Forall2_impl; [|exact Hrs]. cbv beta. intros i r Hi.
    apply bind_ok in Hi as (line & Hline & Hrow). eauto. }
  split; [|split].
  - eapply Forall2_impl; [|exact Hr]. cbv beta. intros i out Hload.
    apply load_rect_inv in Hload.
    destruct Hload as (fri & im & Hfri & Him & _ & Hout). eauto.
  - exact Hlines.
  - unfold ids_of_rows. cbn [id_image]. split.
    + intros Hmap i Hi.
      assert (In i (py_range (fst bounds) (snd bounds + 1))) as Hin
        by (apply py_range_In; lia).
      destruct (Forall2_map_inv _ _ _ _ Hlines Hmap i Hin)
        as (r & (line & Hline & Hrow) & Hfst).
      exists line. split; [exact Hline|].
      apply parse_id_row_image in Hrow. now rewrite Hfst in Hrow.
    + intros Hpos. apply (Forall2_map_eq _ _ _ _ Hlines).
      intros i r Hin (line & Hline & Hrow).
      apply py_range_In in Hin.
      destruct (Hpos i ltac:(lia)) as (line' & Hline' & Hget).
      rewrite Hline in Hline'. inversion Hline'; subst line'.
      apply parse_id_row_image in Hrow. rewrite Hget in Hrow.
      now inversion Hrow.
Qed.

End WithNumpy.

Lemma ids_index_the_arrays_witness :
  exists pd,
    _load_data_part (NP := Demo.demo_numpy) Demo.demo_loader Demo.demo_disk
                    0%nat 2 "y" false false = Ok (pd, 0%nat) /\
    (id_image (pd_id pd) = [2; 3] <->
     forall i, 2 <= i <= 3 ->
       exists line,
         py_index (Manifest.read_photo_files Demo.demo_lines) i = Ok line /\
         Manifest._get_id line = Ok i).
Proof.
  eexists. split; [vm_compute; reflexivity|].
  refine (proj2 (proj2
    (ids_index_the_arrays (NP := Demo.demo_numpy) Demo.demo_loader
       Demo.demo_disk 0%nat 2 "y" _ 0%nat _ (2, 3)
       eq_refl eq_refl eq_refl _))).
  intros i line r Hi Hline Hrow. cbn [fst snd] in Hi.
  assert (i = 2 \/ i = 3) as [-> | ->] by lia;
    vm_compute in Hline; injection Hline as <-;
    vm_compute in Hrow; injection Hrow as <-;
    unfold int64_row, in_int64; cbn [fst snd]; lia.
Defined.

(** A manifest the parser accepts, whose first line belongs to part 0 and
    has global id 7: the rows of both parts of both streams carry the ids
    of their part, and yet not every line has its position as its id. *)
Lemma offset_manifest_rows_correspond :
  Manifest._load_photo_parts Demo.manifests "offset.csv" =
    Ok (Manifest.read_photo_files Demo.offset_lines,
        _parts_id Demo.offset_loader, _parts_project_id Demo.offset_loader) /\
  (forall part xy, In part [1; 2] -> In xy ["x"; "y"] ->
     rows_correspond (NP := Demo.demo_numpy)
                     Demo.offset_loader Demo.offset_disk part xy) /\
  ~ ids_are_positions (Manifest.read_photo_files Demo.offset_lines).
Proof.
  split; [vm_compute; reflexivity|]. split.
  - intros part xy Hp Hxy. unfold rows_correspond.
    destruct Hp as [<-|[<-|[]]]; destruct Hxy as [<-|[<-|[]]];
      eexists _, _; (split; [vm_compute; reflexivity|]);
      split; reflexivity.
  - intros H. specialize (H 0%nat "7, 9-60-1-part0" eq_refl).
    vm_compute in H. discriminate H.
Qed.

End PositionFacts.

(* ================================================================== *)
(** * Sessions *)
(* ================================================================== *)

Module SessionFacts.
Import PyFacts Equal EqualFacts Loader Session.

Section WithPaths.
Variable file_digest : string -> string.
Variable splitext_root : string -> string.

(** What [load_session] does once the record is read and its version and
    class are the expected ones. *)
Lemma load_session_saved self fs name data :
  session fs (session_path splitext_root name) = Some data ->
  version data = _SESSION_EXPORT_VERSION ->
  class_ data = "DataFloorPhotoXY" ->
  load_session file_digest splitext_root self fs name =
  (h_rect <- _get_file_hash file_digest self fs "rect" ;;
   assert_ (String.eqb h_rect (hash_rect_images data))
     "Rect image hash is not the same" ;;;
   h_floor <- _get_file_hash file_digest self fs "fphoto" ;;
   assert_ (String.eqb h_floor (hash_floor_images data))
     "Floor image hash is not the same" ;;;
   same_id <- _is_dict_equal (py_of_parts_id (_parts_id self))
                             (parts_id data) ;;
   assert_ same_id "ID partition changed" ;;;
   same_proj <- _is_dict_equal (py_of_parts_project (_parts_project_id self))
                               (parts_project_id data) ;;
   assert_ same_proj "Project ID partition changed" ;;;
   assert_ (rect_image_size data =? _rect_image_size self)
     "Rect image size changed" ;;;
   assert_ (floor_photo_size data =? _floor_photo_size self)
     "Floor image size changed" ;;;
   Ok (set_loaded_session self
         (Some (session_path splitext_root name, description data)))).
Proof.
  intros Hs Hv Hc. unfold Session.load_session. rewrite Hs. cbn [bind].
  rewrite Hv, Hc. reflexivity.
Qed.

(** C8, as the code has it. After [save_session], [load_session] on
    the same loader over unchanged shard files returns without raising.
    Over changed shard files it raises the assertion that names the rect
    hash when the chained digest of the two rect files differs from the
    saved one, and the assertion that names the floor hash when the rect
    digest is unchanged and the chained digest of the floor-photo files
    differs. *)
Theorem session_round_trip self fs now name descr fs1 self1 :
  NoDup (dict_keys (_parts_id self)) ->
  NoDup (dict_keys (_parts_project_id self)) ->
  save_session file_digest splitext_root self fs now name descr
    = Ok (fs1, self1) ->
  load_session file_digest splitext_root self1 fs1 name = Ok self1 /\
  forall fs2 h_rect h_floor,
    session fs2 (session_path splitext_root name)
      = session fs1 (session_path splitext_root name) ->
    _get_file_hash file_digest self1 fs2 "rect" = Ok h_rect ->
    _get_file_hash file_digest self1 fs2 "fphoto" = Ok h_floor ->
    (_get_file_hash file_digest self fs "rect" <> Ok h_rect ->
     load_session file_digest splitext_root self1 fs2 name
     = Raise (AssertionError "Rect image hash is not the same")) /\
    (_get_file_hash file_digest self fs "rect" = Ok h_rect ->
     _get_file_hash file_digest self fs "fphoto" <> Ok h_floor ->
     load_session file_digest splitext_root self1 fs2 name
     = Raise (AssertionError "Floor image hash is not the same")).
Proof.
  intros Hid Hproj H. unfold Session.save_session in H.
  apply bind_ok in H as (h0 & Hrect & H).
  apply bind_ok in H as (h1 & Hfloor & H).
  inversion H; subst fs1 self1. clear H.
  set (path := session_path splitext_root name) in *.
  set (data := mkExport _ _ _ _ _ _ _ _ _ _ _ _ _ _).
  set (self1 := set_loaded_session self (Some (path, descr))).
  set (fs1 := write_session fs path data).
  assert (session fs1 path = Some data) as Hsaved
    by (unfold fs1, write_session; cbn [session];
        now rewrite String.eqb_refl).
  split.
  - rewrite (load_session_saved self1 fs1 name data Hsaved eq_refl eq_refl).
    change (_get_file_hash file_digest self1 fs1 "rect")
      with (_get_file_hash file_digest self fs "rect").
    change (_get_file_hash file_digest self1 fs1 "fphoto")
      with (_get_file_hash file_digest self fs "fphoto").
    rewrite Hrect, Hfloor. cbn [bind].
    change (hash_rect_images data) with h0.
    change (hash_floor_images data) with h1.
    rewrite !String.eqb_refl. cbn [assert_ bind].
    change (_parts_id self1) with (_parts_id self).
    change (_parts_project_id self1) with (_parts_project_id self).
    change (parts_id data) with (json_dict (py_of_parts_id (_parts_id self))).
    change (parts_project_id data)
      with (json_dict (py_of_parts_project (_parts_project_id self))).
    rewrite (is_dict_equal_json _ (keys_parts_id_NoDup _ Hid)
               (int_keyed_parts_id _)).
    rewrite (is_dict_equal_json _ (keys_parts_project_NoDup _ Hproj)
               (int_keyed_parts_project _)).
    cbn [assert_ bind].
    change (rect_image_size data) with (_rect_image_size self).
    change (floor_photo_size data) with (_floor_photo_size self).
    change (_rect_image_size self1) with (_rect_image_size self).
    change (_floor_photo_size self1) with (_floor_photo_size self).
    rewrite !Z.eqb_refl. cbn [assert_ bind]. reflexivity.
  - intros fs2 h_rect h_floor Hsess Hr2 Hf2.
    fold path in Hsess. rewrite Hsaved in Hsess.
    rewrite (load_session_saved self1 fs2 name data Hsess eq_refl eq_refl).
    rewrite Hr2. cbn [bind]. change (hash_rect_images data) with h0. split.
    + intros Hne.
      destruct (String.eqb_spec h_rect h0) as [->|_]; [congruence|].
      reflexivity.
    + intros Heq Hne.
      assert (h_rect = h0) as -> by congruence.
      rewrite String.eqb_refl. cbn [assert_ bind].
      rewrite Hf2. cbn [bind]. change (hash_floor_images data) with h1.
      destruct (String.eqb_spec h_floor h1) as [->|_]; [congruence|].
      reflexivity.
Qed.

End WithPaths.

Lemma session_round_trip_witness :
  exists fs1 self1,
    save_session Demo.content_md5 (fun s => s) Demo.demo_loader
                 Demo.demo_files "2024-01-01 00:00:00" "run" "first"
      = Ok (fs1, self1) /\
    load_session Demo.content_md5 (fun s => s) self1 fs1 "run" = Ok self1.
Proof.
  eexists _, _.
  assert (save_session Demo.content_md5 (fun s => s) Demo.demo_loader
            Demo.demo_files "2024-01-01 00:00:00" "run" "first" = Ok _)
    as Hsave
    by (vm_compute; reflexivity).
  split; [exact Hsave|].
  refine (proj1 (session_round_trip Demo.content_md5 (fun s => s)
                  _ _ _ _ _ _ _ _ _ Hsave)).
  - simpl. repeat constructor; simpl; intuition lia.
  - simpl. repeat constructor; simpl; intuition lia.
Defined.

(** Two different contents of the rect file of stream x with the same
    MD5 digest: the session saved over the first loads over the second. *)
Lemma colliding_shard_goes_unnoticed :
  Demo.of_bytes Demo.collision_a <> Demo.of_bytes Demo.collision_b /\
  exists fs1 self1,
    save_session Demo.content_md5 (fun s => s) Demo.demo_loader
      (Demo.files_with_rect_x (Demo.of_bytes Demo.collision_a))
      "2024-01-01 00:00:00" "run" "first" = Ok (fs1, self1) /\
    load_session Demo.content_md5 (fun s => s) self1
      (mkFiles (shard (Demo.files_with_rect_x (Demo.of_bytes Demo.collision_b)))
               (session fs1)) "run" = Ok self1.
Proof.
  split.
  - intros E. vm_compute in E. discriminate E.
  - eexists _, _. split; [vm_compute; reflexivity|].
    vm_compute. reflexivity.
Qed.

End SessionFacts.

(* ================================================================== *)
(** * The part table the parser returns *)
(* ================================================================== *)

Module PartTable.
Import PyFacts Manifest ManifestFacts.

Lemma dict_set_keys_eq {V W} (d : @dict Z V) (d' : @dict Z W) k v w :
  dict_keys d = dict_keys d' ->
  dict_keys (dict_set Z.eqb d k v) = dict_keys (dict_set Z.eqb d' k w).
Proof.
  revert d'.
  induction d as [|[k0 v0] tl IH]; intros [|[k1 w1] tl']; simpl; intros H;
    try discriminate; [reflexivity|].
  inversion H; subst.
  destruct (k =? k1); simpl; [congruence|].
  f_equal. now apply IH.
Qed.

Lemma dict_remove_keys_eq {V W} (d : @dict Z V) (d' : @dict Z W) k :
  dict_keys d = dict_keys d' ->
  dict_keys (dict_remove Z.eqb d k) = dict_keys (dict_remove Z.eqb d' k).
Proof.
  revert d'.
  induction d as [|[k0 v0] tl IH]; intros [|[k1 w1] tl']; simpl; intros H;
    try discriminate; [reflexivity|].
  inversion H; subst.
  destruct (k =? k1); simpl; [assumption|].
  f_equal. now apply IH.
Qed.

Lemma dict_find_set {V} (d : @dict Z V) k v k' :
  dict_find Z.eqb (dict_set Z.eqb d k v) k' =
  if k' =? k then Some v else dict_find Z.eqb d k'.
Proof.
  induction d as [|[k0 v0] tl IH]; simpl.
  - destruct (k' =? k); reflexivity.
  - destruct (k =? k0) eqn:E; simpl.
    + apply Z.eqb_eq in E; subst. destruct (k' =? k0); reflexivity.
    + destruct (k' =? k0) eqn:E'; [|exact IH].
      apply Z.eqb_eq in E'; subst.
      rewrite Z.eqb_sym, E. reflexivity.
Qed.

Lemma dict_set_present {V} (d : @dict Z V) k v v0 :
  dict_find Z.eqb d k = Some v0 ->
  dict_keys (dict_set Z.eqb d k v) = dict_keys d.
Proof.
  induction d as [|[k0 w0] tl IH]; simpl; [discriminate|].
  destruct (k =? k0); simpl; [reflexivity|].
  intros H. f_equal. now apply IH.
Qed.

Lemma dict_set_keys_prefix {V} (d : @dict Z V) k v :
  exists tl, dict_keys (dict_set Z.eqb d k v) = dict_keys d ++ tl.
Proof.
  induction d as [|[k0 w0] d' IH]; simpl.
  - now exists [k].
  - destruct (k =? k0); simpl.
    + exists []. now rewrite app_nil_r.
    + destruct IH as (tl & ->). now exists tl.
Qed.

Lemma dict_find_remove {V} (d : @dict Z V) k k' :
  k' <> k ->
  dict_find Z.eqb (dict_remove Z.eqb d k) k' = dict_find Z.eqb d k'.
Proof.
  intros Hk. induction d as [|[k0 v0] tl IH]; simpl; [reflexivity|].
  destruct (k =? k0) eqn:E; simpl.
  - apply Z.eqb_eq in E; subst.
    destruct (k' =? k0) eqn:E'; [|reflexivity].
    apply Z.eqb_eq in E'. contradiction.
  - destruct (k' =? k0); [reflexivity | exact IH].
Qed.

Lemma for_each_app {A S} (body : S -> A -> result S) xs ys s :
  for_each body (xs ++ ys) s = (s1 <- for_each body xs s ;; for_each body ys s1).
Proof.
  revert s. induction xs as [|x tl IH]; intros s; simpl; [reflexivity|].
  destruct (body s x) as [s'|e]; simpl; [apply IH | reflexivity].
Qed.

Lemma for_each_inv_In {A S} (body : S -> A -> result S) (P : S -> Prop) xs :
  (forall s x s', In x xs -> body s x = Ok s' -> P s -> P s') ->
  forall s s', for_each body xs s = Ok s' -> P s -> P s'.
Proof.
  induction xs as [|x tl IH]; simpl; intros Hbody s s' H Hs.
  - now inversion H; subst.
  - apply bind_ok in H. destruct H as (s1 & H1 & H2).
    apply (IH (fun s x s' Hin => Hbody s x s' (or_intror Hin)) s1 s' H2).
    eapply Hbody; eauto.
Qed.

(** One turn of the scan, read off its result. *)
Lemma scan_line_inv st j st' :
  scan_line st j = Ok st' ->
  exists part_j lid p cur st1,
    _get_part j = Ok part_j /\ _get_id j = Ok lid /\
    _get_project_id j = Ok p /\
    st1 = (if part_j =? last_part st then st
           else mkScan (dict_set Z.eqb (partsid st) (last_part st)
                                 (last_part_id st, last_id st))
                       (dict_set Z.eqb (projectid st) part_j [])
                       part_j lid (last_id st)) /\
    dict_find Z.eqb (projectid st1) part_j = Some cur /\
    st' = mkScan (partsid st1)
                 (if mem_Z p cur then projectid st1
                  else dict_set Z.eqb (projectid st1) part_j (cur ++ [p]))
                 (last_part st1) (last_part_id st1) lid.
Proof.
  unfold scan_line. intros H.
  apply bind_ok in H. destruct H as (part_j & Hpart & H).
  apply bind_ok in H. destruct H as (st1 & H1 & H).
  apply bind_ok in H. destruct H as (lid & Hlid & H).
  apply bind_ok in H. destruct H as (p & Hp & H).
  apply bind_ok in H. destruct H as (cur & Hcur & H).
  exists part_j, lid, p, cur, st1.
  repeat split; try assumption.
  - destruct (part_j =? last_part st); simpl in H1.
    + now inversion H1.
    + rewrite Hpart, Hlid in H1. simpl in H1. now inversion H1.
  - unfold dict_get in Hcur.
    destruct (dict_find Z.eqb (projectid st1) part_j); now inversion Hcur.
  - inversion H. now destruct (mem_Z p cur).
Qed.

(** The two tables of the scan go key by key: the project table has the
    keys the range table gets once the open part is closed. *)
Lemma scan_line_keys st j st' :
  scan_line st j = Ok st' ->
  dict_keys (projectid st) =
    dict_keys (dict_set Z.eqb (partsid st) (last_part st)
                        (last_part_id st, last_id st)) ->
  dict_keys (projectid st') =
    dict_keys (dict_set Z.eqb (partsid st') (last_part st')
                        (last_part_id st', last_id st')).
Proof.
  intros H Hinv.
  destruct (scan_line_inv _ _ _ H)
    as (part_j & lid & p & cur & st1 & _ & _ & _ & Hst1 & Hcur & ->).
  simpl.
  assert (dict_keys (projectid st1) =
          dict_keys (dict_set Z.eqb (partsid st1) (last_part st1)
                              (last_part_id st1, lid))) as H1.
  { subst st1. destruct (part_j =? last_part st); simpl.
    - rewrite Hinv. now apply dict_set_keys_eq.
    - now apply dict_set_keys_eq. }
  destruct (mem_Z p cur); [exact H1|].
  now rewrite (dict_set_present _ _ _ _ Hcur).
Qed.

(** Every recorded project list is duplicate-free, is empty only for the
    key 0, and holds project ids read from lines of that part. *)
Lemma scan_line_projects (n : list string) st j st' :
  In j n ->
  scan_line st j = Ok st' ->
  (forall k l, dict_find Z.eqb (projectid st) k = Some l ->
     NoDup l /\ (k <> 0 -> l <> []) /\
     forall q, In q l -> exists line,
       In line n /\ _get_part line = Ok k /\ _get_project_id line = Ok q) ->
  (forall k l, dict_find Z.eqb (projectid st') k = Some l ->
     NoDup l /\ (k <> 0 -> l <> []) /\
     forall q, In q l -> exists line,
       In line n /\ _get_part line = Ok k /\ _get_project_id line = Ok q).
Proof.
  intros Hj H Hinv.
  destruct (scan_line_inv _ _ _ H)
    as (part_j & lid & p & cur & st1 & Hpart & _ & Hp & Hst1 & Hcur & ->).
  simpl.
  assert (forall k l, dict_find Z.eqb (projectid st1) k = Some l ->
            NoDup l /\ (k <> part_j -> k <> 0 -> l <> []) /\
            forall q, In q l -> exists line,
              In line n /\ _get_part line = Ok k /\
              _get_project_id line = Ok q) as H1.
  { subst st1. destruct (part_j =? last_part st); simpl.
    - intros k l Hk. destruct (Hinv k l Hk) as (? & ? & ?). auto.
    - intros k l. rewrite dict_find_set.
      destruct (k =? part_j) eqn:E.
      + intros Hl. inversion Hl; subst. repeat split.
        * constructor.
        * apply Z.eqb_eq in E. intros. contradiction.
        * intros q [].
      + intros Hk. destruct (Hinv k l Hk) as (? & ? & ?). auto. }
  assert (part_j <> 0 -> mem_Z p cur = true -> cur <> []) as Hne.
  { intros _ Hm ->. discriminate. }
  intros k l.
  destruct (mem_Z p cur) eqn:Hm.
  - intros Hk. destruct (H1 k l Hk) as (Hnd & Hnz & Hsrc).
    repeat split; [exact Hnd | | exact Hsrc].
    intros Hk0. destruct (Z.eq_dec k part_j) as [->|Hkp]; [|auto].
    rewrite Hcur in Hk. inversion Hk; subst. auto.
  - rewrite dict_find_set. destruct (k =? part_j) eqn:E.
    + apply Z.eqb_eq in E. subst k. intros Hl. inversion Hl; subst. clear Hl.
      destruct (H1 part_j cur Hcur) as (Hnd & _ & Hsrc).
      repeat split.
      * apply NoDup_app; [exact Hnd | constructor; [tauto | constructor] |].
        intros q Hq [Heq|[]]. subst q.
        unfold mem_Z in Hm.
        assert (existsb (Z.eqb p) cur = true) as Hex
          by (apply existsb_exists; exists p; split; [exact Hq | apply Z.eqb_refl]).
        congruence.
      * intros _ Hnil. now destruct cur.
      * intros q Hq. apply in_app_or in Hq. destruct Hq as [Hq|[<-|[]]].
        -- auto.
        -- now exists j.
    + apply Z.eqb_neq in E. intros Hk.
      destruct (H1 k l Hk) as (Hnd & Hnz & Hsrc). auto.
Qed.

(** The open part of the scan is the part of the line just read. *)
Lemma scan_line_last_part st j st' part_j :
  scan_line st j = Ok st' -> _get_part j = Ok part_j -> last_part st' = part_j.
Proof.
  intros H Hpart.
  destruct (scan_line_inv _ _ _ H)
    as (part' & lid & p & cur & st1 & Hpart' & _ & _ & Hst1 & _ & ->).
  simpl. rewrite Hpart in Hpart'. inversion Hpart'; subst part'.
  subst st1. destruct (part_j =? last_part st) eqn:E; simpl; [|reflexivity].
  apply Z.eqb_eq in E. now symmetry.
Qed.

(** The keys of the range table, with the open part closed, only grow at
    the end. *)
Lemma scan_line_prefix st j st' :
  scan_line st j = Ok st' ->
  exists tl,
    dict_keys (dict_set Z.eqb (partsid st') (last_part st')
                        (last_part_id st', last_id st')) =
    dict_keys (dict_set Z.eqb (partsid st) (last_part st)
                        (last_part_id st, last_id st)) ++ tl.
Proof.
  intros H.
  destruct (scan_line_inv _ _ _ H)
    as (part_j & lid & p & cur & st1 & _ & _ & _ & Hst1 & _ & ->).
  simpl. subst st1. destruct (part_j =? last_part st); simpl.
  - exists []. rewrite app_nil_r. now apply dict_set_keys_eq.
  - apply dict_set_keys_prefix.
Qed.

Lemma scan_prefix lines st st' :
  for_each scan_line lines st = Ok st' ->
  exists tl,
    dict_keys (dict_set Z.eqb (partsid st') (last_part st')
                        (last_part_id st', last_id st')) =
    dict_keys (dict_set Z.eqb (partsid st) (last_part st)
                        (last_part_id st, last_id st)) ++ tl.
Proof.
  revert st. induction lines as [|j tl IH]; simpl; intros st H.
  - inversion H; subst. exists []. now rewrite app_nil_r.
  - apply bind_ok in H. destruct H as (s1 & H1 & H2).
    destruct (IH _ H2) as (t2 & ->).
    destruct (scan_line_prefix _ _ _ H1) as (t1 & ->).
    exists (t1 ++ t2). now rewrite app_assoc.
Qed.

Lemma py_index_last {A} (xs : list A) (a : A) :
  py_index xs (-1) = Ok a -> exists xs0, xs = xs0 ++ [a].
Proof.
  intros H.
  assert (xs <> []) as Hne by (intros ->; discriminate H).
  destruct (exists_last Hne) as (xs0 & b & ->).
  revert H. unfold py_index. cbv zeta.
  change (-1 <? 0) with true. cbv iota.
  destruct (_ && _); [|discriminate].
  replace (Z.to_nat (-1 + Z.of_nat (List.length (xs0 ++ [b]))))
    with (List.length xs0) by (rewrite length_app; simpl List.length; lia).
  rewrite nth_error_app2 by lia. rewrite Nat.sub_diag. simpl.
  intros H. inversion H. now exists xs0.
Qed.

Lemma py_range_cons a b : a < b -> py_range a b = a :: py_range (a + 1) b.
Proof.
  intros Hab. unfold py_range.
  replace (Z.to_nat (b - a)) with (S (Z.to_nat (b - (a + 1)))) by lia.
  simpl. f_equal; [lia|].
  rewrite <- seq_shift, map_map. apply map_ext. intros k. lia.
Qed.

Lemma chain_keys l k0 r0 tl :
  chain l -> l = (k0, r0) :: tl ->
  dict_keys l = py_range k0 (k0 + Z.of_nat (List.length l)).
Proof.
  revert k0 r0 tl. induction l as [|e l' IH]; intros k0 r0 tl Hc He;
    [discriminate|].
  inversion He; subst e l'. clear He.
  rewrite py_range_cons by (simpl List.length; lia).
  simpl dict_keys. f_equal.
  destruct tl as [|[k1 r1] tl'].
  - simpl. unfold py_range.
    replace (Z.to_nat _) with 0%nat by lia. reflexivity.
  - destruct Hc as (Hk & _ & _ & Hc).
    rewrite (IH k1 r1 tl' Hc eq_refl). subst k1.
    f_equal. simpl List.length. lia.
Qed.

(** Everything a successful parse went through. *)
Lemma load_photo_parts_full fs filename n pid proj :
  _load_photo_parts fs filename = Ok (n, pid, proj) ->
  exists total st last_line,
    py_index n (-1) = Ok last_line /\ _get_part last_line = Ok total /\
    1 < total /\
    for_each scan_line n scan_init = Ok st /\
    pid = dict_remove Z.eqb
            (dict_set Z.eqb (partsid st) (last_part st)
                      (last_part_id st, last_id st)) 0 /\
    proj = dict_remove Z.eqb (projectid st) 0 /\
    Z.of_nat (List.length pid) = total.
Proof.
  unfold _load_photo_parts. intros H.
  apply bind_ok in H. destruct H as (file_lines & _ & H).
  apply bind_ok in H. destruct H as (last_line & Hlast & H).
  apply bind_ok in H. destruct H as (total_parts & Htotal & H).
  apply bind_ok in H. destruct H as (u1 & Hgt & H).
  apply bind_ok in H. destruct H as (st & Hscan & H).
  apply bind_ok in H. destruct H as (partsid2 & Hdel & H).
  apply bind_ok in H. destruct H as (projectid2 & Hdel' & H).
  apply bind_ok in H. destruct H as (u2 & Hlen & H).
  apply bind_ok in H. destruct H as ([] & _ & H).
  inversion H; subst. clear H.
  apply dict_del_ok in Hdel. apply dict_del_ok in Hdel'.
  apply assert_ok in Hgt. apply assert_ok in Hlen.
  apply Z.eqb_eq in Hlen. unfold dict_keys in Hlen. rewrite length_map in Hlen.
  exists total_parts, st, last_line.
  repeat split; try assumption. lia.
Qed.

Lemma scan_keys lines st :
  for_each scan_line lines scan_init = Ok st ->
  dict_keys (projectid st) =
    dict_keys (dict_set Z.eqb (partsid st) (last_part st)
                        (last_part_id st, last_id st)).
Proof.
  intros H.
  apply (for_each_inv scan_line
           (fun s => dict_keys (projectid s) =
                     dict_keys (dict_set Z.eqb (partsid s) (last_part s)
                                         (last_part_id s, last_id s))))
    with (xs := lines) (s := scan_init); auto.
  intros s x s' Hs. now apply scan_line_keys with (j := x).
Qed.

Lemma load_photo_parts_keys fs filename n pid proj :
  _load_photo_parts fs filename = Ok (n, pid, proj) ->
  dict_keys proj = dict_keys pid.
Proof.
  intros H.
  destruct (load_photo_parts_full _ _ _ _ _ H)
    as (total & st & last_line & _ & _ & _ & Hscan & -> & -> & _).
  apply dict_remove_keys_eq. now apply scan_keys with (lines := n).
Qed.

Lemma load_photo_parts_projects fs filename n pid proj k l :
  _load_photo_parts fs filename = Ok (n, pid, proj) ->
  In (k, l) proj ->
  NoDup l /\ l <> [] /\
  forall q, In q l -> exists line,
    In line n /\ _get_part line = Ok k /\ _get_project_id line = Ok q.
Proof.
  intros H Hin.
  pose proof (load_photo_parts_keys _ _ _ _ _ H) as Hkeys.
  destruct (load_photo_parts_ok _ _ _ _ _ H) as (_ & Hnd & H0 & _).
  rewrite <- Hkeys in Hnd, H0.
  assert (k <> 0) as Hk.
  { intros ->. apply H0. unfold dict_keys. apply in_map_iff.
    now exists (0, l). }
  pose proof (dict_find_In Z.eqb Z.eqb_eq proj k l Hnd Hin) as Hfind.
  destruct (load_photo_parts_full _ _ _ _ _ H)
    as (total & st & last_line & _ & _ & _ & Hscan & _ & Hproj & _).
  rewrite Hproj, (dict_find_remove _ 0 k Hk) in Hfind.
  assert (forall k l, dict_find Z.eqb (projectid st) k = Some l ->
            NoDup l /\ (k <> 0 -> l <> []) /\
            forall q, In q l -> exists line,
              In line n /\ _get_part line = Ok k /\
              _get_project_id line = Ok q) as Hinv.
  { apply (for_each_inv_In scan_line
             (fun s => forall k l, dict_find Z.eqb (projectid s) k = Some l ->
                NoDup l /\ (k <> 0 -> l <> []) /\
                forall q, In q l -> exists line,
                  In line n /\ _get_part line = Ok k /\
                  _get_project_id line = Ok q) n)
      with (s := scan_init); [| exact Hscan |].
    - intros s x s' Hx Hs Hp. exact (scan_line_projects n s x s' Hx Hs Hp).
    - intros k' l'. simpl. destruct (k' =? 0) eqn:E; [|discriminate].
      intros Hl. inversion Hl; subst. apply Z.eqb_eq in E.
      repeat split; [constructor | intros; contradiction | intros q []]. }
  destruct (Hinv k l Hfind) as (? & ? & ?). auto.
Qed.

Lemma dict_remove_head_keys {V} (d : @dict Z V) k ks :
  dict_keys d = k :: ks -> dict_keys (dict_remove Z.eqb d k) = ks.
Proof.
  destruct d as [|[k0 v0] tl]; simpl; [discriminate|].
  intros H. inversion H; subst. now rewrite Z.eqb_refl.
Qed.

Lemma load_photo_parts_range fs filename n pid proj :
  _load_photo_parts fs filename = Ok (n, pid, proj) ->
  exists first,
    1 <= first <= Z.of_nat (List.length pid) /\
    dict_keys pid = py_range first (first + Z.of_nat (List.length pid)) /\
    ((exists l0, py_index n 0 = Ok l0 /\ _get_part l0 = Ok 1) -> first = 1).
Proof.
  intros H.
  destruct (load_photo_parts_ok _ _ _ _ _ H) as (_ & Hnd & H0 & Hc).
  destruct (load_photo_parts_full _ _ _ _ _ H)
    as (total & st & last_line & Hlast & Htotal & Hgt & Hscan & Hpid & _ & Hlen).
  destruct pid as [|[k0 r0] tl] eqn:Epid; [simpl in Hlen; lia|].
  rewrite <- Epid in *.
  pose proof (chain_keys pid k0 r0 tl Hc Epid) as Hkeys.
  (* the part of the last line is a key *)
  assert (In total (dict_keys pid)) as Hin.
  { destruct (py_index_last _ _ Hlast) as (n0 & Hn).
    rewrite Hn, for_each_app in Hscan.
    apply bind_ok in Hscan. destruct Hscan as (s1 & _ & Hstep).
    simpl in Hstep. apply bind_ok in Hstep. destruct Hstep as (s2 & Hstep & E).
    inversion E; subst s2. clear E.
    pose proof (scan_line_last_part _ _ _ _ Hstep Htotal) as Hlp.
    destruct (dict_find Z.eqb pid total) eqn:F.
    - apply dict_find_Some_In in F; [|exact Z.eqb_eq].
      unfold dict_keys. apply in_map_iff. now exists (total, p).
    - exfalso. rewrite Hpid, dict_find_remove, dict_find_set in F by lia.
      rewrite Hlp, Z.eqb_refl in F. discriminate. }
  rewrite Hkeys in Hin. apply py_range_In in Hin.
  assert (k0 <> 0) as Hk0.
  { intros ->. apply H0. rewrite Epid. simpl. auto. }
  assert (0 < k0) as Hpos.
  { destruct (Z_lt_le_dec 0 k0) as [?|Hle]; [assumption|]. exfalso.
    apply H0. rewrite Hkeys. apply py_range_In. lia. }
  exists k0. split; [lia|]. split; [exact Hkeys|].
  intros (l0 & Hl0 & Hp0).
  apply py_index_nonneg in Hl0; [|lia]. simpl in Hl0.
  destruct n as [|j rest]; [discriminate|]. simpl in Hl0.
  inversion Hl0; subst j. clear Hl0.
  simpl in Hscan. apply bind_ok in Hscan. destruct Hscan as (s1 & Hfirst & Hrest).
  destruct (scan_line_inv _ _ _ Hfirst)
    as (part_j & lid & p & cur & st1 & Hpart & _ & _ & Hst1 & _ & Hs1).
  rewrite Hp0 in Hpart. inversion Hpart; subst part_j. clear Hpart.
  simpl in Hst1. subst st1. simpl in Hs1.
  destruct (scan_prefix _ _ _ Hrest) as (t & Ht).
  rewrite Hs1 in Ht. simpl in Ht.
  assert (dict_keys pid = 1 :: t) as Hk1.
  { rewrite Hpid. now apply dict_remove_head_keys. }
  rewrite Epid in Hk1. simpl in Hk1. now inversion Hk1.
Qed.

(** X1. For every manifest the parser accepts, the project table has the
    keys of the range table, in the same order; the project list of each
    part has no duplicates, is not empty, and each of its entries is the
    project id of a manifest line of that part. *)
Theorem part_tables_agree fs filename n pid proj :
  _load_photo_parts fs filename = Ok (n, pid, proj) ->
  dict_keys proj = dict_keys pid /\
  forall k l, In (k, l) proj ->
    NoDup l /\ l <> [] /\
    forall q, In q l -> exists line,
      In line n /\ _get_part line = Ok k /\ _get_project_id line = Ok q.
Proof.
  intros H. split.
  - now apply load_photo_parts_keys with (fs := fs) (filename := filename) (n := n).
  - intros k l. now apply load_photo_parts_projects with (fs := fs) (filename := filename) (pid := pid).
Qed.

Lemma part_tables_agree_witness :
  exists n pid proj,
    _load_photo_parts Demo.manifests "demo.csv" = Ok (n, pid, proj) /\
    dict_keys proj = dict_keys pid.
Proof.
  eexists _, _, _.
  assert (_load_photo_parts Demo.manifests "demo.csv" = Ok (_, _, _)) as Hrun
    by (vm_compute; reflexivity).
  split; [exact Hrun|].
  exact (proj1 (part_tables_agree _ _ _ _ _ Hrun)).
Defined.

(** X2. For every manifest the parser accepts, the part keys are
    consecutive integers, as many as the part number of the last line,
    which is at least 2 and is one of them; the first key lies between 1
    and that number, and it is 1 (so that the keys are 1, 2, ... up to the
    number of parts) when the first line of the manifest belongs to
    part 1. *)
Theorem part_keys_consecutive fs filename n pid proj :
  _load_photo_parts fs filename = Ok (n, pid, proj) ->
  exists total first,
    (exists last_line,
        py_index n (-1) = Ok last_line /\ _get_part last_line = Ok total) /\
    1 < total /\ 1 <= first <= total /\
    dict_keys pid = py_range first (first + total) /\
    ((exists l0, py_index n 0 = Ok l0 /\ _get_part l0 = Ok 1) -> first = 1).
Proof.
  intros H.
  destruct (load_photo_parts_full _ _ _ _ _ H)
    as (total & st & last_line & Hlast & Htotal & Hgt & _ & _ & _ & Hlen).
  destruct (load_photo_parts_range _ _ _ _ _ H) as (first & Hf & Hkeys & H1).
  rewrite Hlen in Hf, Hkeys.
  exists total, first. repeat split; try assumption; try lia.
  now exists last_line.
Qed.

Lemma part_keys_consecutive_witness :
  exists n pid proj,
    _load_photo_parts Demo.manifests "demo.csv" = Ok (n, pid, proj) /\
    exists total first,
      1 < total /\ dict_keys pid = py_range first (first + total).
Proof.
  eexists _, _, _.
  assert (_load_photo_parts Demo.manifests "demo.csv" = Ok (_, _, _)) as Hrun
    by (vm_compute; reflexivity).
  split; [exact Hrun|].
  destruct (part_keys_consecutive _ _ _ _ _ Hrun)
    as (total & first & _ & Hgt & _ & Hkeys & _).
  now exists total, first.
Defined.

End PartTable.

(* ================================================================== *)
(** * The comparison on the tables held in memory *)
(* ================================================================== *)

Module TableEquality.
Import PyFacts Equal EqualFacts.

Lemma keys_loop_step (x y : pydict) kxi kx' kyi ky' :
  keys_loop x y (kxi :: kx') (kyi :: ky') =
  (if negb (String.eqb (py_str kxi) (py_str kyi)) then Ok (Some false)
   else
     xki <- dict_get key_eqb x kxi ;;
     yki <- dict_get key_eqb y kyi ;;
     match as_sequence xki with
     | Some xs =>
         match as_sequence yki with
         | None => Raise (AssertionError "")
         | Some ys =>
             if negb (List.length xs =? List.length ys)%nat
             then Ok (Some false)
             else if items_equal xs ys then keys_loop x y kx' ky'
                  else Ok (Some false)
         end
     | None =>
         if negb (pytype_eqb (type_of xki) (type_of yki))
         then Ok (Some false)
         else if negb (py_eq xki yki) then Ok (Some false)
              else keys_loop x y kx' ky'
     end).
Proof. reflexivity. Qed.

Lemma items_equal_ints_eq xs ys :
  List.length xs = List.length ys ->
  items_equal (map PInt xs) (map PInt ys) = true -> xs = ys.
Proof.
  revert ys. induction xs as [|x tl IH]; intros [|y tl']; simpl;
    try discriminate; [reflexivity|].
  intros Hlen. destruct (x =? y) eqn:E; simpl; [|discriminate].
  apply Z.eqb_eq in E. subst. intros H. f_equal. apply IH; [lia | exact H].
Qed.

Section Tables.
Context {V : Type}.
Variable f : Z * V -> pykey * pyval.
Variable items : V -> list Z.
Hypothesis f_key : forall e, fst (f e) = KInt (fst e).
Hypothesis f_seq :
  forall e, as_sequence (snd (f e)) = Some (map PInt (items (snd e))).
Hypothesis items_inj : forall v w, items v = items w -> v = w.

Lemma table_get (a : @dict Z V) k v :
  NoDup (dict_keys a) -> In (k, v) a ->
  dict_get key_eqb (map f a) (KInt k) = Ok (snd (f (k, v))).
Proof.
  unfold dict_get.
  induction a as [|[k0 v0] tl IH]; simpl; intros Hnd Hin; [contradiction|].
  inversion Hnd as [|? ? Hk0 Hnd']; subst.
  destruct (f (k0, v0)) as [fk fv] eqn:Ef.
  pose proof (f_key (k0, v0)) as Hk. rewrite Ef in Hk. simpl in Hk. subst fk.
  simpl. destruct Hin as [Heq|Hin].
  - inversion Heq; subst. rewrite Z.eqb_refl, Ef. reflexivity.
  - destruct (k =? k0) eqn:E.
    + apply Z.eqb_eq in E. subst. exfalso. apply Hk0.
      unfold dict_keys. apply in_map_iff. now exists (k0, v).
    + now apply IH.
Qed.

Lemma keys_loop_tables (a b la lb : @dict Z V) :
  NoDup (dict_keys a) -> NoDup (dict_keys b) ->
  incl la a -> incl lb b -> List.length la = List.length lb ->
  exists r,
    keys_loop (map f a) (map f b)
              (dict_keys (map f la)) (dict_keys (map f lb)) = Ok r /\
    (r = None \/ r = Some false) /\ (r = None <-> la = lb).
Proof.
  intros Ha Hb. revert lb.
  induction la as [|[k v] la' IH]; intros [|[k' w] lb'] Hia Hib Hlen;
    try discriminate.
  - exists None. simpl. tauto.
  - change (dict_keys (map f ((k, v) :: la')))
      with (fst (f (k, v)) :: dict_keys (map f la')).
    change (dict_keys (map f ((k', w) :: lb')))
      with (fst (f (k', w)) :: dict_keys (map f lb')).
    rewrite !f_key. simpl fst.
    rewrite keys_loop_step. cbn [py_str].
    destruct (String.eqb (py_str_int k) (py_str_int k')) eqn:Ek; cbn [negb].
    + apply String.eqb_eq, py_str_int_inj in Ek. subst k'.
      rewrite (table_get a k v Ha) by (apply Hia; simpl; auto).
      rewrite (table_get b k w Hb) by (apply Hib; simpl; auto).
      cbn [bind]. rewrite !f_seq. simpl snd.
      rewrite !length_map.
      destruct (List.length (items v) =? List.length (items w))%nat eqn:El;
        cbn [negb].
      * apply Nat.eqb_eq in El.
        destruct (items_equal (map PInt (items v)) (map PInt (items w)))
          eqn:Ei.
        -- apply items_equal_ints_eq in Ei; [|exact El].
           apply items_inj in Ei. subst w.
           destruct (IH lb') as (r & Hr & Hcases & Hiff).
           { intros e He. apply Hia. now right. }
           { intros e He. apply Hib. now right. }
           { simpl in Hlen. lia. }
           exists r. split; [exact Hr|]. split; [exact Hcases|].
           rewrite Hiff. split; [now intros -> | intros E; now inversion E].
        -- exists (Some false). split; [reflexivity|]. split; [now right|].
           split; [discriminate|]. intros E. inversion E; subst.
           rewrite items_equal_ints in Ei. discriminate.
      * exists (Some false). split; [reflexivity|]. split; [now right|].
        split; [discriminate|]. intros E. inversion E; subst.
        rewrite Nat.eqb_refl in El. discriminate.
    + exists (Some false). split; [reflexivity|]. split; [now right|].
      split; [discriminate|]. intros E. inversion E; subst.
      rewrite String.eqb_refl in Ek. discriminate.
Qed.

Lemma is_dict_equal_tables (a b : @dict Z V) :
  NoDup (dict_keys a) -> NoDup (dict_keys b) ->
  exists r, _is_dict_equal (map f a) (map f b) = Ok r /\ (r = true <-> a = b).
Proof.
  intros Ha Hb. unfold _is_dict_equal.
  unfold dict_keys at 1 2. rewrite !length_map.
  destruct (List.length a =? List.length b)%nat eqn:El; cbn [negb].
  - apply Nat.eqb_eq in El.
    destruct (keys_loop_tables a b a b Ha Hb (incl_refl _) (incl_refl _) El)
      as (r & Hr & Hcases & Hiff).
    rewrite Hr. cbn [bind].
    destruct Hcases as [->| ->].
    + exists true. split; [reflexivity|]. split; [intros _; now apply Hiff | reflexivity].
    + exists false. split; [reflexivity|].
      split; [discriminate|]. intros E. apply Hiff in E. discriminate.
  - exists false. split; [reflexivity|]. split; [discriminate|].
    intros ->. rewrite Nat.eqb_refl in El. discriminate.
Qed.

End Tables.

Lemma is_dict_equal_parts_id (a b : Manifest.parts_id_t) :
  NoDup (dict_keys a) -> NoDup (dict_keys b) ->
  exists r, _is_dict_equal (py_of_parts_id a) (py_of_parts_id b) = Ok r /\
            (r = true <-> a = b).
Proof.
  apply (is_dict_equal_tables
           (fun e => (KInt (fst e), PTuple [PInt (fst (snd e)); PInt (snd (snd e))]))
           (fun r => [fst r; snd r])).
  - reflexivity.
  - reflexivity.
  - intros [v1 v2] [w1 w2] E. simpl in E. now inversion E.
Qed.

Lemma is_dict_equal_parts_project (a b : Manifest.parts_project_t) :
  NoDup (dict_keys a) -> NoDup (dict_keys b) ->
  exists r,
    _is_dict_equal (py_of_parts_project a) (py_of_parts_project b) = Ok r /\
    (r = true <-> a = b).
Proof.
  apply (is_dict_equal_tables
           (fun e => (KInt (fst e), PList (map PInt (snd e))))
           (fun l => l)).
  - reflexivity.
  - reflexivity.
  - auto.
Qed.

(** X3. On two range tables, and on two project tables, as the parser
    builds them (integer keys, one entry per key), [_is_dict_equal] never
    raises, and it answers [True] exactly when the two tables are equal:
    the same keys in the same order with the same values. *)
Theorem dict_equal_decides_tables
    (a b : Manifest.parts_id_t) (p q : Manifest.parts_project_t) :
  NoDup (dict_keys a) -> NoDup (dict_keys b) ->
  NoDup (dict_keys p) -> NoDup (dict_keys q) ->
  (exists r, _is_dict_equal (py_of_parts_id a) (py_of_parts_id b) = Ok r /\
             (r = true <-> a = b)) /\
  (exists r,
      _is_dict_equal (py_of_parts_project p) (py_of_parts_project q) = Ok r /\
      (r = true <-> p = q)).
Proof.
  intros Ha Hb Hp Hq. split.
  - now apply is_dict_equal_parts_id.
  - now apply is_dict_equal_parts_project.
Qed.

Lemma dict_equal_decides_tables_witness :
  exists r,
    _is_dict_equal (py_of_parts_id [(1, (0, 1)); (2, (2, 3))])
                   (py_of_parts_id [(1, (0, 1)); (2, (2, 4))]) = Ok r /\
    (r = true <-> [(1, (0, 1)); (2, (2, 3))] = [(1, (0, 1)); (2, (2, 4))]).
Proof.
  assert (NoDup (dict_keys [(1, (0, 1)); (2, (2, 3))])) as Ha
    by (simpl; repeat constructor; simpl; intuition lia).
  assert (NoDup (dict_keys [(1, (0, 1)); (2, (2, 4))])) as Hb
    by (simpl; repeat constructor; simpl; intuition lia).
  assert (NoDup (dict_keys [(1, [61]); (2, [62])])) as Hp
    by (simpl; repeat constructor; simpl; intuition lia).
  exact (proj1 (dict_equal_decides_tables _ _ _ _ Ha Hb Hp Hp)).
Defined.

End TableEquality.

(* ================================================================== *)
(** * The comparison across a JSON round trip *)
(* ================================================================== *)

Module StructuralEquality.
Import PyFacts Equal EqualFacts TableEquality.

Lemma items_equal_Forall2 xs ys :
  List.length xs = List.length ys ->
  (items_equal xs ys = true <-> Forall2 (fun x y => py_eq x y = true) xs ys).
Proof.
  revert ys. induction xs as [|x tl IH]; intros [|y tl'] Hlen;
    try discriminate.
  - simpl. split; [constructor | reflexivity].
  - simpl in Hlen. cbn [items_equal].
    destruct (py_eq x y) eqn:E; cbn [negb].
    + rewrite (IH tl') by lia. split.
      * intros H. now constructor.
      * intros H. now inversion H.
    + split; [discriminate|]. intros H. inversion H; subst. congruence.
Qed.

Lemma str_int_eqb k k' :
  String.eqb (py_str_int k) (py_str_int k') = (k =? k').
Proof.
  destruct (Z.eqb_spec k k') as [->|Hne]; [apply String.eqb_refl|].
  apply String.eqb_neq. intros E. apply py_str_int_inj in E. contradiction.
Qed.

Lemma json_value_ints l : map json_value (map PInt l) = map PInt l.
Proof. induction l as [|z tl IH]; simpl; [reflexivity | now rewrite IH]. Qed.

Lemma table_get_gen {V} (h : Z * V -> pykey * pyval) :
  (forall e e', key_eqb (fst (h e)) (fst (h e')) = (fst e =? fst e')) ->
  forall (a : @dict Z V) k v,
    NoDup (dict_keys a) -> In (k, v) a ->
    dict_get key_eqb (map h a) (fst (h (k, v))) = Ok (snd (h (k, v))).
Proof.
  intros h_eqb. unfold dict_get.
  induction a as [|[k0 v0] tl IH]; intros k v Hnd Hin; [contradiction|].
  inversion Hnd as [|? ? Hk0 Hnd']; subst.
  cbn [map dict_find].
  destruct (h (k0, v0)) as [hk hv] eqn:E.
  replace hk with (fst (h (k0, v0))) by now rewrite E.
  rewrite h_eqb. cbn [fst].
  destruct Hin as [Heq|Hin].
  - inversion Heq; subst. rewrite Z.eqb_refl, E. reflexivity.
  - destruct (k =? k0) eqn:Ek.
    + apply Z.eqb_eq in Ek. subst. exfalso. apply Hk0.
      unfold dict_keys. apply in_map_iff. now exists (k0, v).
    + now apply IH.
Qed.

(** Two tables over the same integer keys, each written in its own way:
    [f] for the left one and [g] for the right one. *)
Section MixedTables.
Context {V : Type}.
Variable f g : Z * V -> pykey * pyval.
Variable items : V -> list Z.
Hypothesis f_str : forall e, py_str (fst (f e)) = py_str_int (fst e).
Hypothesis g_str : forall e, py_str (fst (g e)) = py_str_int (fst e).
Hypothesis f_eqb :
  forall e e', key_eqb (fst (f e)) (fst (f e')) = (fst e =? fst e').
Hypothesis g_eqb :
  forall e e', key_eqb (fst (g e)) (fst (g e')) = (fst e =? fst e').
Hypothesis f_seq :
  forall e, as_sequence (snd (f e)) = Some (map PInt (items (snd e))).
Hypothesis g_seq :
  forall e, as_sequence (snd (g e)) = Some (map PInt (items (snd e))).
Hypothesis items_inj : forall v w, items v = items w -> v = w.

Lemma keys_loop_mixed (a b la lb : @dict Z V) :
  NoDup (dict_keys a) -> NoDup (dict_keys b) ->
  incl la a -> incl lb b -> List.length la = List.length lb ->
  exists r,
    keys_loop (map f a) (map g b)
              (dict_keys (map f la)) (dict_keys (map g lb)) = Ok r /\
    (r = None \/ r = Some false) /\ (r = None <-> la = lb).
Proof.
  intros Ha Hb. revert lb.
  induction la as [|[k v] la' IH]; intros [|[k' w] lb'] Hia Hib Hlen;
    try discriminate.
  - exists None. simpl. tauto.
  - change (dict_keys (map f ((k, v) :: la')))
      with (fst (f (k, v)) :: dict_keys (map f la')).
    change (dict_keys (map g ((k', w) :: lb')))
      with (fst (g (k', w)) :: dict_keys (map g lb')).
    rewrite keys_loop_step. rewrite f_str, g_str. cbn [fst].
    destruct (String.eqb (py_str_int k) (py_str_int k')) eqn:Ek; cbn [negb].
    + apply String.eqb_eq, py_str_int_inj in Ek. subst k'.
      rewrite (table_get_gen f f_eqb a k v Ha) by (apply Hia; simpl; auto).
      rewrite (table_get_gen g g_eqb b k w Hb) by (apply Hib; simpl; auto).
      cbn [bind]. rewrite f_seq, g_seq. cbn [snd].
      rewrite !length_map.
      destruct (List.length (items v) =? List.length (items w))%nat eqn:El;
        cbn [negb].
      * apply Nat.eqb_eq in El.
        destruct (items_equal (map PInt (items v)) (map PInt (items w)))
          eqn:Ei.
        -- apply items_equal_ints_eq in Ei; [|exact El].
           apply items_inj in Ei. subst w.
           destruct (IH lb') as (r & Hr & Hcases & Hiff).
           { intros e He. apply Hia. now right. }
           { intros e He. apply Hib. now right. }
           { simpl in Hlen. lia. }
           exists r. split; [exact Hr|]. split; [exact Hcases|].
           rewrite Hiff. split; [now intros -> | intros E; now inversion E].
        -- exists (Some false). split; [reflexivity|]. split; [now right|].
           split; [discriminate|]. intros E. inversion E; subst.
           rewrite items_equal_ints in Ei. discriminate.
      * exists (Some false). split; [reflexivity|]. split; [now right|].
        split; [discriminate|]. intros E. inversion E; subst.
        rewrite Nat.eqb_refl in El. discriminate.
    + exists (Some false). split; [reflexivity|]. split; [now right|].
      split; [discriminate|]. intros E. inversion E; subst.
      rewrite String.eqb_refl in Ek. discriminate.
Qed.

Lemma is_dict_equal_mixed (a b : @dict Z V) :
  NoDup (dict_keys a) -> NoDup (dict_keys b) ->
  exists r, _is_dict_equal (map f a) (map g b) = Ok r /\ (r = true <-> a = b).
Proof.
  intros Ha Hb. unfold _is_dict_equal.
  unfold dict_keys at 1 2. rewrite !length_map.
  destruct (List.length a =? List.length b)%nat eqn:El; cbn [negb].
  - apply Nat.eqb_eq in El.
    destruct (keys_loop_mixed a b a b Ha Hb (incl_refl _) (incl_refl _) El)
      as (r & Hr & Hcases & Hiff).
    rewrite Hr. cbn [bind].
    destruct Hcases as [->| ->].
    + exists true. split; [reflexivity|].
      split; [intros _; now apply Hiff | reflexivity].
    + exists false. split; [reflexivity|].
      split; [discriminate|]. intros E. apply Hiff in E. discriminate.
  - exists false. split; [reflexivity|]. split; [discriminate|].
    intros ->. rewrite Nat.eqb_refl in El. discriminate.
Qed.

End MixedTables.

Lemma is_dict_equal_one_entry kx ky vx vy xs ys :
  as_sequence vx = Some xs -> as_sequence vy = Some ys ->
  exists r,
    _is_dict_equal [(kx, vx)] [(ky, vy)] = Ok r /\
    (r = true <->
     py_str kx = py_str ky /\
     Forall2 (fun x y => py_eq x y = true) xs ys).
Proof.
  intros Hx Hy.
  unfold _is_dict_equal. cbn [dict_keys map fst List.length Nat.eqb negb].
  rewrite keys_loop_step.
  destruct (String.eqb (py_str kx) (py_str ky)) eqn:Ek; cbn [negb].
  - apply String.eqb_eq in Ek.
    unfold dict_get. cbn [dict_find].
    rewrite !(proj2 (key_eqb_eq _ _) eq_refl). cbn [bind].
    rewrite Hx, Hy.
    destruct (List.length xs =? List.length ys)%nat eqn:El; cbn [negb].
    + apply Nat.eqb_eq in El.
      pose proof (items_equal_Forall2 xs ys El) as Hiff.
      destruct (items_equal xs ys).
      * exists true. cbn [keys_loop bind]. split; [reflexivity|].
        split; [intros _; split; [exact Ek | now apply Hiff] | reflexivity].
      * exists false. cbn [bind]. split; [reflexivity|].
        split; [discriminate|]. intros (_ & H). apply Hiff in H. discriminate.
    + exists false. cbn [bind]. split; [reflexivity|].
      split; [discriminate|]. intros (_ & H).
      apply Forall2_length in H. rewrite H, Nat.eqb_refl in El. discriminate.
  - exists false. cbn [bind]. split; [reflexivity|].
    split; [discriminate|]. intros (H & _).
    rewrite H, String.eqb_refl in Ek. discriminate.
Qed.

Lemma is_dict_equal_ints k zs ws :
  exists r,
    _is_dict_equal [(KInt k, PTuple (map PInt zs))]
                   [(KStr (py_str_int k), PList (map PInt ws))] = Ok r /\
    (r = true <-> zs = ws).
Proof.
  destruct (is_dict_equal_mixed
              (fun e : Z * list Z => (KInt (fst e), PTuple (map PInt (snd e))))
              (fun e : Z * list Z =>
                 (KStr (py_str_int (fst e)), PList (map PInt (snd e))))
              (fun l => l)
              ltac:(reflexivity) ltac:(reflexivity)
              ltac:(reflexivity)
              ltac:(intros e e'; apply str_int_eqb)
              ltac:(reflexivity) ltac:(reflexivity) ltac:(auto)
              [(k, zs)] [(k, ws)])
    as (r & Hr & Hiff).
  - simpl. constructor; [tauto | constructor].
  - simpl. constructor; [tauto | constructor].
  - exists r. split; [exact Hr|]. rewrite Hiff.
    split; [intros E; now inversion E | now intros ->].
Qed.

Lemma is_dict_equal_json_parts_id (a b : Manifest.parts_id_t) :
  NoDup (dict_keys a) -> NoDup (dict_keys b) ->
  exists r,
    _is_dict_equal (py_of_parts_id a) (json_dict (py_of_parts_id b)) = Ok r /\
    (r = true <-> a = b).
Proof.
  intros Ha Hb.
  rewrite (json_dict_map _ (keys_parts_id_NoDup _ Hb) (int_keyed_parts_id _)).
  unfold py_of_parts_id. rewrite map_map.
  apply (is_dict_equal_mixed
           (fun e : Z * (Z * Z) =>
              (KInt (fst e), PTuple [PInt (fst (snd e)); PInt (snd (snd e))]))
           (fun e : Z * (Z * Z) =>
              json_entry
                (KInt (fst e), PTuple [PInt (fst (snd e)); PInt (snd (snd e))]))
           (fun r => [fst r; snd r])); try reflexivity; try assumption.
  - intros e e'. apply str_int_eqb.
  - intros [v1 v2] [w1 w2] E. simpl in E. now inversion E.
Qed.

Lemma is_dict_equal_json_parts_project (p q : Manifest.parts_project_t) :
  NoDup (dict_keys p) -> NoDup (dict_keys q) ->
  exists r,
    _is_dict_equal (py_of_parts_project p)
                   (json_dict (py_of_parts_project q)) = Ok r /\
    (r = true <-> p = q).
Proof.
  intros Hp Hq.
  rewrite (json_dict_map _ (keys_parts_project_NoDup _ Hq)
             (int_keyed_parts_project _)).
  unfold py_of_parts_project. rewrite map_map.
  apply (is_dict_equal_mixed
           (fun e : Z * list Z => (KInt (fst e), PList (map PInt (snd e))))
           (fun e : Z * list Z =>
              json_entry (KInt (fst e), PList (map PInt (snd e))))
           (fun l => l)); try reflexivity; try assumption.
  - intros e e'. apply str_int_eqb.
  - intros e. unfold json_entry. cbn [snd json_value as_sequence].
    now rewrite json_value_ints.
  - auto.
Qed.

(** C10. [_is_dict_equal] compares keys through [str] and sequence
    values item by item, a list and a tuple alike.  On two one-entry
    mappings whose values are lists or tuples it answers [True] exactly
    when the two keys have the same string and the two values have the
    same length and equal items at every position.  So the integer key
    [k] with a tuple of integers and the string key [str(k)] with a list
    of integers compare equal exactly when the integers are the same.
    And the in-memory range table (and likewise the project table)
    compared with the JSON-decoded copy of a table never raises and
    answers [True] exactly when the copy was made from that same table:
    the comparison of [load_session] succeeds for an unmodified session
    and fails for a modified one. *)
Theorem dict_equal_by_str_and_items :
  (forall kx ky vx vy xs ys,
      as_sequence vx = Some xs -> as_sequence vy = Some ys ->
      exists r,
        _is_dict_equal [(kx, vx)] [(ky, vy)] = Ok r /\
        (r = true <->
         py_str kx = py_str ky /\
         Forall2 (fun x y => py_eq x y = true) xs ys)) /\
  (forall k zs ws,
      exists r,
        _is_dict_equal [(KInt k, PTuple (map PInt zs))]
                       [(KStr (py_str_int k), PList (map PInt ws))] = Ok r /\
        (r = true <-> zs = ws)) /\
  (forall a b : Manifest.parts_id_t,
      NoDup (dict_keys a) -> NoDup (dict_keys b) ->
      exists r,
        _is_dict_equal (py_of_parts_id a) (json_dict (py_of_parts_id b))
          = Ok r /\
        (r = true <-> a = b)) /\
  (forall p q : Manifest.parts_project_t,
      NoDup (dict_keys p) -> NoDup (dict_keys q) ->
      exists r,
        _is_dict_equal (py_of_parts_project p)
                       (json_dict (py_of_parts_project q)) = Ok r /\
        (r = true <-> p = q)).
Proof.
  split; [|split; [|split]].
  - intros kx ky vx vy xs ys. apply is_dict_equal_one_entry.
  - apply is_dict_equal_ints.
  - apply is_dict_equal_json_parts_id.
  - apply is_dict_equal_json_parts_project.
Qed.

Lemma dict_equal_by_str_and_items_witness :
  _is_dict_equal (py_of_parts_id [(1, (0, 1)); (2, (2, 3))])
                 (json_dict (py_of_parts_id [(1, (0, 1)); (2, (2, 3))]))
  = Ok true /\
  _is_dict_equal (py_of_parts_id [(1, (0, 1)); (2, (2, 3))])
                 (json_dict (py_of_parts_id [(1, (0, 1)); (2, (2, 4))]))
  = Ok false.
Proof.
  assert (NoDup (dict_keys [(1, (0, 1)); (2, (2, 3))])) as Ha
    by (simpl; repeat constructor; simpl; intuition lia).
  assert (NoDup (dict_keys [(1, (0, 1)); (2, (2, 4))])) as Hb
    by (simpl; repeat constructor; simpl; intuition lia).
  destruct dict_equal_by_str_and_items as (_ & _ & Hid & _).
  split.
  - destruct (Hid _ _ Ha Ha) as (r & Hr & Hiff).
    rewrite Hr. f_equal. now apply Hiff.
  - destruct (Hid _ _ Ha Hb) as (r & Hr & Hiff).
    rewrite Hr. f_equal. destruct r; [|reflexivity].
    assert ([(1, (0, 1)); (2, (2, 3))] = [(1, (0, 1)); (2, (2, 4))]) as E
      by now apply Hiff.
    discriminate E.
Defined.

End StructuralEquality.

(* ================================================================== *)
(** * The constructor *)
(* ================================================================== *)

Module ConstructFacts.
Import PyFacts Manifest ManifestFacts PartTable Equal EqualFacts TableEquality.
Import Loader Session Construct.


Section WithSystem.
Variable log2_is_integer : Z -> bool.
Variable isfile : string -> bool.
Variable path_exists : string -> bool.
Variable splitext_root : string -> string.
Variable file_digest : string -> string.

Lemma part_files_inv filename size xs acc out :
  for_each (check_part_files path_exists filename size) xs acc = Ok out ->
  fst out = fst acc ++ map (part_name filename "x" size) xs /\
  snd out = snd acc ++ map (part_name filename "y" size) xs /\
  Forall (fun i => path_exists (part_name filename "x" size i) = true /\
                   path_exists (part_name filename "y" size i) = true) xs.
Proof.
  revert acc. induction xs as [|i tl IH]; simpl; intros acc H.
  - inversion H; subst. rewrite !app_nil_r. auto.
  - apply bind_ok in H. destruct H as (acc1 & Hstep & H).
    unfold check_part_files in Hstep.
    apply bind_ok in Hstep. destruct Hstep as (u1 & Hx & Hstep).
    apply bind_ok in Hstep. destruct Hstep as (u2 & Hy & Hstep).
    apply assert_ok in Hx. apply assert_ok in Hy.
    inversion Hstep; subst acc1. clear Hstep.
    destruct (IH _ H) as (H1 & H2 & H3). simpl in H1, H2.
    rewrite H1, H2, <- !app_assoc. simpl. auto.
Qed.

Lemma part_files_run filename size xs acc :
  Forall (fun i => path_exists (part_name filename "x" size i) = true /\
                   path_exists (part_name filename "y" size i) = true) xs ->
  for_each (check_part_files path_exists filename size) xs acc =
  Ok (fst acc ++ map (part_name filename "x" size) xs,
      snd acc ++ map (part_name filename "y" size) xs).
Proof.
  intros H. revert acc. induction H as [|i tl [Hx Hy] _ IH]; intros acc; simpl.
  - rewrite !app_nil_r. now destruct acc.
  - unfold check_part_files at 1. rewrite Hx, Hy. cbn [assert_ bind].
    rewrite IH. simpl. now rewrite <- !app_assoc.
Qed.

(** The loader the constructor returns for tables [pid] and [proj]. *)
Lemma init_inv fs filename rs fsz rc fc self :
  __init__ log2_is_integer isfile path_exists splitext_root
           fs filename rs fsz rc fc = Ok self ->
  (0 < rs /\ log2_is_integer rs = true /\ 0 < fsz /\
   log2_is_integer fsz = true /\ 1 <= rc /\ 1 <= fc) /\
  isfile (rect_images_name filename "x" rs) = true /\
  isfile (rect_images_name filename "y" rs) = true /\
  exists nx ny pid proj,
    _load_photo_parts fs (manifest_name filename "x" fsz)
      = Ok (nx, pid, proj) /\
    _load_photo_parts fs (manifest_name filename "y" fsz)
      = Ok (ny, pid, proj) /\
    Forall (fun i => path_exists (part_name filename "x" fsz i) = true /\
                     path_exists (part_name filename "y" fsz i) = true)
           (py_range 0 (Z.of_nat (List.length pid))) /\
    self = mkLoader (splitext_root filename) None
             (rect_images_name filename "x" rs)
             (rect_images_name filename "y" rs)
             (map (part_name filename "x" fsz)
                  (py_range 0 (Z.of_nat (List.length pid))))
             (map (part_name filename "y" fsz)
                  (py_range 0 (Z.of_nat (List.length pid))))
             fc fsz (Z.of_nat (List.length pid)) pid proj nx ny rc rs.
Proof.
  unfold __init__. intros H.
  apply bind_ok in H. destruct H as (u1 & H1 & H). apply assert_ok in H1.
  apply bind_ok in H. destruct H as (u2 & H2 & H). apply assert_ok in H2.
  apply bind_ok in H. destruct H as (u3 & H3 & H). apply assert_ok in H3.
  apply bind_ok in H. destruct H as (u4 & H4 & H). apply assert_ok in H4.
  apply bind_ok in H. destruct H as (u5 & H5 & H). apply assert_ok in H5.
  apply bind_ok in H. destruct H as (u6 & H6 & H). apply assert_ok in H6.
  apply bind_ok in H. destruct H as (u7 & H7 & H). apply assert_ok in H7.
  apply bind_ok in H. destruct H as (u8 & H8 & H). apply assert_ok in H8.
  apply bind_ok in H. destruct H as ([[nx pidx] projx] & Hx & H).
  apply bind_ok in H. destruct H as ([[ny pidy] projy] & Hy & H).
  cbn [fst snd] in H.
  apply bind_ok in H. destruct H as (last_x & Hlx & H).
  apply bind_ok in H. destruct H as (parts_x & Hpx & H).
  apply bind_ok in H. destruct H as (last_y & Hly & H).
  apply bind_ok in H. destruct H as (parts_y & Hpy & H).
  apply bind_ok in H. destruct H as (u9 & H9 & H).
  apply bind_ok in H. destruct H as (same_id & Hid & H).
  apply bind_ok in H. destruct H as (u10 & H10 & H). apply assert_ok in H10.
  apply bind_ok in H. destruct H as (same_proj & Hproj & H).
  apply bind_ok in H. destruct H as (u11 & H11 & H). apply assert_ok in H11.
  apply bind_ok in H. destruct H as ([fx fy] & Hfiles & H).
  cbn [fst snd] in H. subst same_id same_proj.
  destruct (load_photo_parts_ok _ _ _ _ _ Hx) as (_ & Hndx & _ & _).
  destruct (load_photo_parts_ok _ _ _ _ _ Hy) as (_ & Hndy & _ & _).
  pose proof (load_photo_parts_keys _ _ _ _ _ Hx) as Hkx.
  pose proof (load_photo_parts_keys _ _ _ _ _ Hy) as Hky.
  destruct (is_dict_equal_parts_id pidx pidy Hndx Hndy) as (r & Hr & Hiff).
  rewrite Hid in Hr. inversion Hr; subst r. clear Hr.
  assert (pidx = pidy) as <- by now apply Hiff.
  assert (NoDup (dict_keys projx)) as Hnpx by now rewrite Hkx.
  assert (NoDup (dict_keys projy)) as Hnpy by now rewrite Hky.
  destruct (is_dict_equal_parts_project projx projy Hnpx Hnpy)
    as (r & Hr & Hiff').
  rewrite Hproj in Hr. inversion Hr; subst r. clear Hr.
  assert (projx = projy) as <- by now apply Hiff'.
  destruct (load_photo_parts_full _ _ _ _ _ Hx)
    as (total & st & last_line & Hlast & Htotal & _ & _ & _ & _ & Hlen).
  assert (last_line = last_x) as -> by congruence.
  assert (parts_x = Z.of_nat (List.length pidx)) as Hn by congruence.
  clear Hlast Htotal Hlen. subst parts_x.
  destruct (part_files_inv _ _ _ _ _ Hfiles) as (Hfx & Hfy & Hex).
  cbn [fst snd app] in Hfx, Hfy. subst fx fy.
  split.
  { repeat split; try assumption; lia. }
  split; [exact H7|]. split; [exact H8|].
  exists nx, ny, pidx, projx.
  split; [exact Hx|]. split; [exact Hy|]. split; [exact Hex|].
  now inversion H.
Qed.

(** X4. A loader the constructor returns has at least two parts, as many
    as its range table has keys; its two tables have the same keys, one
    entry each; the manifests of both streams parse to these same tables;
    its floor-photo file lists name, for each stream, one existing file
    per part, in part order; no session is attached to it; and
    [get_image_shape] returns the floor-photo size twice and the
    floor-photo channel count. *)
Theorem constructed_loader_wellformed fs filename rs fsz rc fc self :
  __init__ log2_is_integer isfile path_exists splitext_root
           fs filename rs fsz rc fc = Ok self ->
  1 < get_total_parts self /\
  Z.of_nat (List.length (_parts_id self)) = get_total_parts self /\
  dict_keys (_parts_project_id self) = dict_keys (_parts_id self) /\
  NoDup (dict_keys (_parts_id self)) /\
  _load_photo_parts fs (manifest_name filename "x" fsz)
    = Ok (_photo_files_x self, _parts_id self, _parts_project_id self) /\
  _load_photo_parts fs (manifest_name filename "y" fsz)
    = Ok (_photo_files_y self, _parts_id self, _parts_project_id self) /\
  _file_floor_photo_images_x self
    = map (part_name filename "x" fsz) (py_range 0 (get_total_parts self)) /\
  _file_floor_photo_images_y self
    = map (part_name filename "y" fsz) (py_range 0 (get_total_parts self)) /\
  (forall f, In f (_file_floor_photo_images_x self
                   ++ _file_floor_photo_images_y self) ->
             path_exists f = true) /\
  _loaded_session self = None /\
  get_image_shape self = (fsz, fsz, fc).
Proof.
  intros H.
  destruct (init_inv _ _ _ _ _ _ _ H)
    as (_ & _ & _ & nx & ny & pid & proj & Hx & Hy & Hex & ->).
  unfold get_total_parts, get_image_shape. cbn.
  destruct (load_photo_parts_full _ _ _ _ _ Hx)
    as (total & st & last_line & _ & _ & Hgt & _ & _ & _ & Hlen).
  destruct (load_photo_parts_ok _ _ _ _ _ Hx) as (_ & Hnd & _ & _).
  repeat split; try assumption; try reflexivity.
  - lia.
  - now apply load_photo_parts_keys
      with (fs := fs) (filename := manifest_name filename "x" fsz) (n := nx).
  - intros f Hf. rewrite Forall_forall in Hex.
    apply in_app_or in Hf.
    destruct Hf as [Hf|Hf]; apply in_map_iff in Hf;
      destruct Hf as (i & <- & Hi); now apply Hex.
Qed.


(** X6. Two manifests that both parse but whose range tables or project
    tables differ make the constructor raise one of its three assertions
    on the agreement of the streams. *)
Theorem mismatched_manifests_rejected
    fs filename rs fsz rc fc nx ny pidx pidy projx projy :
  0 < rs -> log2_is_integer rs = true ->
  0 < fsz -> log2_is_integer fsz = true ->
  1 <= rc -> 1 <= fc ->
  isfile (rect_images_name filename "x" rs) = true ->
  isfile (rect_images_name filename "y" rs) = true ->
  _load_photo_parts fs (manifest_name filename "x" fsz)
    = Ok (nx, pidx, projx) ->
  _load_photo_parts fs (manifest_name filename "y" fsz)
    = Ok (ny, pidy, projy) ->
  (pidx, projx) <> (pidy, projy) ->
  exists msg,
    __init__ log2_is_integer isfile path_exists splitext_root
             fs filename rs fsz rc fc = Raise (AssertionError msg) /\
    In msg
       ["Number of parts are different between x and y photo files";
        "ID partition of parts are different between x and y photo files";
        "Project partition from parts are different between x and y"].
Proof.
  intros H1 H2 H3 H4 H5 H6 H7 H8 Hx Hy Hne.
  unfold __init__.
  replace (rs >? 0) with true by (symmetry; apply Z.gtb_lt; lia).
  replace (fsz >? 0) with true by (symmetry; apply Z.gtb_lt; lia).
  replace (rc >=? 1) with true by (symmetry; apply Z.geb_le; lia).
  replace (fc >=? 1) with true by (symmetry; apply Z.geb_le; lia).
  rewrite H2, H4, H7, H8, Hx, Hy. cbn [assert_ bind fst snd].
  destruct (load_photo_parts_full _ _ _ _ _ Hx)
    as (tx & stx & lx & Hlx & Htx & _ & _ & _ & _ & _).
  destruct (load_photo_parts_full _ _ _ _ _ Hy)
    as (ty & sty & ly & Hly & Hty & _ & _ & _ & _ & _).
  rewrite Hlx. cbn [bind]. rewrite Htx. cbn [bind].
  rewrite Hly. cbn [bind]. rewrite Hty. cbn [bind].
  destruct (tx =? ty); cbn [assert_ bind]; [|eexists; split; [reflexivity|simpl; auto]].
  destruct (load_photo_parts_ok _ _ _ _ _ Hx) as (_ & Hndx & _ & _).
  destruct (load_photo_parts_ok _ _ _ _ _ Hy) as (_ & Hndy & _ & _).
  pose proof (load_photo_parts_keys _ _ _ _ _ Hx) as Hkx.
  pose proof (load_photo_parts_keys _ _ _ _ _ Hy) as Hky.
  destruct (is_dict_equal_parts_id pidx pidy Hndx Hndy) as (r & -> & Hiff).
  cbn [bind].
  destruct r; cbn [assert_ bind]; [|eexists; split; [reflexivity|simpl; auto]].
  assert (pidx = pidy) as Epid by now apply Hiff.
  assert (NoDup (dict_keys projx)) as Hnpx by now rewrite Hkx.
  assert (NoDup (dict_keys projy)) as Hnpy by now rewrite Hky.
  destruct (is_dict_equal_parts_project projx projy Hnpx Hnpy)
    as (r & -> & Hiff').
  cbn [bind].
  destruct r; cbn [assert_ bind]; [|eexists; split; [reflexivity|simpl; auto]].
  exfalso. apply Hne. f_equal; [exact Epid | now apply Hiff'].
Qed.

End WithSystem.

Lemma constructed_loader_wellformed_witness :
  exists self,
    __init__ Examples.is_power_of_two Examples.all_present
             Examples.all_present PosixPath.splitext_root
             Examples.manifests "demo" 2 2 1 1 = Ok self /\
    1 < get_total_parts self /\
    get_image_shape self = (2, 2, 1).
Proof.
  eexists.
  assert (__init__ Examples.is_power_of_two Examples.all_present
            Examples.all_present PosixPath.splitext_root
            Examples.manifests "demo" 2 2 1 1 = Ok _) as Hrun
    by (vm_compute; reflexivity).
  split; [exact Hrun|].
  pose proof (constructed_loader_wellformed _ _ _ _ _ _ _ _ _ _ _ Hrun) as H.
  split; [exact (proj1 H) | exact (proj2 (proj2 (proj2 (proj2 (proj2
           (proj2 (proj2 (proj2 (proj2 (proj2 H))))))))))].
Defined.


Lemma mismatched_manifests_rejected_witness :
  exists msg,
    __init__ Examples.is_power_of_two Examples.all_present
             Examples.all_present PosixPath.splitext_root
             Examples.mismatched "demo" 2 2 1 1
      = Raise (AssertionError msg).
Proof.
  assert (_load_photo_parts Examples.mismatched (manifest_name "demo" "x" 2)
          = Ok (_, _, _)) as Hx by (vm_compute; reflexivity).
  assert (_load_photo_parts Examples.mismatched (manifest_name "demo" "y" 2)
          = Ok (_, _, _)) as Hy by (vm_compute; reflexivity).
  destruct (mismatched_manifests_rejected
              Examples.is_power_of_two Examples.all_present
              Examples.all_present PosixPath.splitext_root
              Examples.mismatched "demo" 2 2 1 1 _ _ _ _ _ _
              ltac:(lia) eq_refl ltac:(lia) eq_refl ltac:(lia) ltac:(lia)
              eq_refl eq_refl Hx Hy)
    as (msg & Hmsg & _).
  - intros E. inversion E.
  - now exists msg.
Defined.

End ConstructFacts.

(* ================================================================== *)
(** * Sessions of a constructed loader *)
(* ================================================================== *)

Module SessionFlow.
Import PyFacts Manifest ManifestFacts PartTable Equal EqualFacts StringFacts.
Import Loader Session Construct ConstructFacts SessionFacts.

Lemma for_each_ext_In {A S} (f g : S -> A -> result S) xs :
  (forall s x, In x xs -> f s x = g s x) ->
  forall s, for_each f xs s = for_each g xs s.
Proof.
  induction xs as [|x tl IH]; simpl; intros Hfg s; [reflexivity|].
  rewrite (Hfg s x (or_introl eq_refl)).
  destruct (g s x) as [s'|e]; simpl; [|reflexivity].
  apply IH. intros s0 x0 Hx0. apply Hfg. now right.
Qed.

Section WithSystem.
Variable log2_is_integer : Z -> bool.
Variable isfile : string -> bool.
Variable path_exists : string -> bool.
Variable splitext_root : string -> string.
Variable file_digest : string -> string.


Lemma file_md5_frame fs fs' path :
  shard fs path = shard fs' path ->
  file_md5 file_digest fs path = file_md5 file_digest fs' path.
Proof. unfold file_md5. now intros ->. Qed.

Lemma fphoto_update_frame self fs fs' h i :
  (forall p, In p (_file_floor_photo_images_x self
                   ++ _file_floor_photo_images_y self) ->
             shard fs p = shard fs' p) ->
  fphoto_update file_digest self fs h i
  = fphoto_update file_digest self fs' h i.
Proof.
  intros Hsame. unfold fphoto_update.
  destruct (py_index (_file_floor_photo_images_x self) i) as [px|e] eqn:Ex;
    [|reflexivity].
  cbn [bind].
  rewrite (file_md5_frame fs fs' px)
    by (apply Hsame, in_or_app; left; eapply py_index_In; eauto).
  destruct (file_md5 file_digest fs' px) as [hx|e]; [|reflexivity].
  cbn [bind].
  destruct (py_index (_file_floor_photo_images_y self) i) as [py|e] eqn:Ey;
    [|reflexivity].
  cbn [bind].
  rewrite (file_md5_frame fs fs' py)
    by (apply Hsame, in_or_app; right; eapply py_index_In; eauto).
  reflexivity.
Qed.

Lemma get_file_hash_frame self fs fs' xy :
  (forall p,
      In p (if String.eqb xy "rect"
            then [_file_rect_images_x self; _file_rect_images_y self]
            else _file_floor_photo_images_x self
                 ++ _file_floor_photo_images_y self) ->
      shard fs p = shard fs' p) ->
  _get_file_hash file_digest self fs xy
  = _get_file_hash file_digest self fs' xy.
Proof.
  unfold _get_file_hash. intros Hsame.
  destruct (String.eqb xy "rect").
  - rewrite (file_md5_frame fs fs' (_file_rect_images_x self))
      by (apply Hsame; simpl; auto).
    rewrite (file_md5_frame fs fs' (_file_rect_images_y self))
      by (apply Hsame; simpl; auto).
    reflexivity.
  - destruct (String.eqb xy "fphoto"); [|reflexivity].
    rewrite (for_each_ext_In (fphoto_update file_digest self fs)
                             (fphoto_update file_digest self fs')).
    + reflexivity.
    + intros h i _. now apply fphoto_update_frame.
Qed.

(** Loading over a record that holds the hashes and the tables of the
    loader. *)
Lemma load_over_record self fs name data h0 h1 :
  session fs (session_path splitext_root name) = Some data ->
  version data = _SESSION_EXPORT_VERSION ->
  class_ data = "DataFloorPhotoXY" ->
  _get_file_hash file_digest self fs "rect" = Ok h0 ->
  hash_rect_images data = h0 ->
  _get_file_hash file_digest self fs "fphoto" = Ok h1 ->
  hash_floor_images data = h1 ->
  parts_id data = json_dict (py_of_parts_id (_parts_id self)) ->
  parts_project_id data
    = json_dict (py_of_parts_project (_parts_project_id self)) ->
  rect_image_size data = _rect_image_size self ->
  floor_photo_size data = _floor_photo_size self ->
  NoDup (dict_keys (_parts_id self)) ->
  NoDup (dict_keys (_parts_project_id self)) ->
  load_session file_digest splitext_root self fs name
  = Ok (set_loaded_session self
          (Some (session_path splitext_root name, description data))).
Proof.
  intros Hs Hv Hc Hr Hr' Hf Hf' Hid Hproj Hrs Hfs Hnd Hnd'.
  rewrite (load_session_saved file_digest splitext_root self fs name data
             Hs Hv Hc).
  rewrite Hr, Hr', Hf, Hf', Hid, Hproj, Hrs, Hfs. cbn [bind].
  rewrite !String.eqb_refl. cbn [assert_ bind].
  rewrite (is_dict_equal_json _ (keys_parts_id_NoDup _ Hnd)
             (int_keyed_parts_id _)).
  rewrite (is_dict_equal_json _ (keys_parts_project_NoDup _ Hnd')
             (int_keyed_parts_project _)).
  cbn [assert_ bind]. rewrite !Z.eqb_refl. reflexivity.
Qed.

Lemma init_NoDup fs filename rs fsz rc fc self :
  __init__ log2_is_integer isfile path_exists splitext_root
           fs filename rs fsz rc fc = Ok self ->
  NoDup (dict_keys (_parts_id self)) /\
  NoDup (dict_keys (_parts_project_id self)).
Proof.
  intros H.
  destruct (init_inv _ _ _ _ _ _ _ _ _ _ _ H)
    as (_ & _ & _ & nx & ny & pid & proj & Hx & _ & _ & ->).
  cbn [_parts_id _parts_project_id].
  destruct (load_photo_parts_ok _ _ _ _ _ Hx) as (_ & Hnd & _ & _).
  split; [exact Hnd|].
  now rewrite (load_photo_parts_keys _ _ _ _ _ Hx).
Qed.

(** X7. [update_session] on a loader fresh from the constructor raises
    the assertion ['Session not loaded'].  Once [save_session] has run
    (under a name whose session path the path rule maps to itself),
    [update_session] succeeds: it leaves the loader as it is, touches no
    shard file and no other session file, rewrites the session file with
    the new date and otherwise the same record, and [load_session] on the
    rewritten file succeeds. *)
Theorem update_session_rewrites_in_place
    fs filename rs fsz rc fc self sf now name descr sf1 self1 now' :
  __init__ log2_is_integer isfile path_exists splitext_root
           fs filename rs fsz rc fc = Ok self ->
  session_path splitext_root (session_path splitext_root name)
    = session_path splitext_root name ->
  save_session file_digest splitext_root self sf now name descr
    = Ok (sf1, self1) ->
  update_session splitext_root file_digest self sf now'
    = Raise (AssertionError "Session not loaded") /\
  exists sf2 e1,
    update_session splitext_root file_digest self1 sf1 now'
      = Ok (sf2, self1) /\
    shard sf2 = shard sf1 /\
    (forall p, p <> session_path splitext_root name ->
               session sf2 p = session sf1 p) /\
    session sf1 (session_path splitext_root name) = Some e1 /\
    session sf2 (session_path splitext_root name)
      = Some (mkExport (version e1) (class_ e1) now' (description e1)
                (Session.filename e1) (floor_photo_ch e1)
                (floor_photo_size e1) (num_parts e1) (parts_id e1)
                (parts_project_id e1) (rect_image_ch e1)
                (rect_image_size e1) (hash_rect_images e1)
                (hash_floor_images e1)) /\
    load_session file_digest splitext_root self1 sf2 name = Ok self1.
Proof.
  intros Hinit Hidem H.
  destruct (init_NoDup _ _ _ _ _ _ _ Hinit) as (Hnd & Hnd').
  split.
  { destruct (init_inv _ _ _ _ _ _ _ _ _ _ _ Hinit)
      as (_ & _ & _ & nx & ny & pid & proj & _ & _ & _ & ->).
    reflexivity. }
  unfold save_session in H.
  apply bind_ok in H as (h0 & Hrect & H).
  apply bind_ok in H as (h1 & Hfloor & H).
  inversion H; subst sf1 self1. clear H.
  set (path := session_path splitext_root name) in *.
  set (data := mkExport _ _ now _ _ _ _ _ _ _ _ _ _ _).
  set (self1 := set_loaded_session self (Some (path, descr))).
  set (sf1 := write_session sf path data).
  assert (update_session splitext_root file_digest self1 sf1 now'
          = save_session file_digest splitext_root self1 sf1 now' path descr)
    as -> by reflexivity.
  unfold save_session. rewrite Hidem.
  change (_get_file_hash file_digest self1 sf1 "rect")
    with (_get_file_hash file_digest self sf "rect").
  change (_get_file_hash file_digest self1 sf1 "fphoto")
    with (_get_file_hash file_digest self sf "fphoto").
  rewrite Hrect, Hfloor. cbn [bind].
  eexists _, data. split; [reflexivity|].
  split; [reflexivity|]. split.
  { intros p Hp. unfold write_session. cbn [session].
    destruct (String.eqb_spec p path) as [->|_]; [contradiction|].
    reflexivity. }
  split.
  { unfold sf1, write_session. cbn [session].
    now rewrite String.eqb_refl. }
  split.
  { unfold write_session. cbn [session].
    now rewrite String.eqb_refl. }
  match goal with
  | |- load_session _ _ _ (write_session _ _ ?d) _ = _ =>
      rewrite (load_over_record self1 (write_session sf1 path d) name d h0 h1)
  end; try reflexivity; try assumption.
  unfold write_session. cbn [session]. fold path.
  now rewrite String.eqb_refl.
Qed.


(** X9. The hash [_get_file_hash] computes for ["rect"] depends on the
    two rect-image files only, and the one for ["fphoto"] on the
    floor-photo files of the two lists only: over two file systems that
    agree on these files it gives the same result (the same digest or the
    same exception), whatever else differs, the manifests and the session
    files included. *)
Theorem file_hash_reads_listed_files self fs fs' xy :
  (forall p,
      In p (if String.eqb xy "rect"
            then [_file_rect_images_x self; _file_rect_images_y self]
            else _file_floor_photo_images_x self
                 ++ _file_floor_photo_images_y self) ->
      shard fs p = shard fs' p) ->
  _get_file_hash file_digest self fs xy
  = _get_file_hash file_digest self fs' xy.
Proof. apply get_file_hash_frame. Qed.

End WithSystem.

Lemma update_session_rewrites_in_place_witness :
  exists self sf1 self1 sf2,
    __init__ Examples.is_power_of_two Examples.all_present
             Examples.all_present PosixPath.splitext_root
             Examples.manifests "demo" 2 2 1 1 = Ok self /\
    save_session Demo.content_md5 PosixPath.splitext_root self
                 Examples.shards "2024-01-01 00:00:00" "run" "first"
      = Ok (sf1, self1) /\
    update_session PosixPath.splitext_root Demo.content_md5 self1 sf1
                   "2024-01-02 00:00:00" = Ok (sf2, self1) /\
    load_session Demo.content_md5 PosixPath.splitext_root self1 sf2 "run"
      = Ok self1.
Proof.
  assert (__init__ Examples.is_power_of_two Examples.all_present
            Examples.all_present PosixPath.splitext_root
            Examples.manifests "demo" 2 2 1 1 = Ok _) as Hinit
    by (vm_compute; reflexivity).
  match type of Hinit with
  | _ = Ok ?self =>
      assert (save_session Demo.content_md5 PosixPath.splitext_root self
                Examples.shards "2024-01-01 00:00:00" "run" "first" = Ok _)
        as Hsave
        by (vm_compute; reflexivity)
  end.
  assert (session_path PosixPath.splitext_root
            (session_path PosixPath.splitext_root "run")
          = session_path PosixPath.splitext_root "run") as Hidem
    by (vm_compute; reflexivity).
  destruct (update_session_rewrites_in_place
              _ _ _ _ _ _ _ _ _ _ _ _ _ _ _ _ _ _ "2024-01-02 00:00:00"
              Hinit Hidem Hsave)
    as (_ & sf2 & e1 & Hupd & _ & _ & _ & _ & Hload).
  eexists _, _, _, sf2.
  split; [exact Hinit|]. split; [exact Hsave|]. split; [exact Hupd|].
  exact Hload.
Defined.


Lemma file_hash_reads_listed_files_witness :
  _get_file_hash Demo.content_md5 Demo.demo_loader Demo.demo_files "rect"
  = _get_file_hash Demo.content_md5 Demo.demo_loader
      (mkFiles (fun p => if String.eqb p "fx1" then None
                         else shard Demo.demo_files p)
               (fun _ => None)) "rect".
Proof.
  apply file_hash_reads_listed_files.
  intros p Hp. simpl in Hp. destruct Hp as [<-|[<-|[]]]; reflexivity.
Defined.

(** The path rule does not map every session path to itself: a name whose
    stem holds [.json] followed by more characters keeps that stem as its
    session path, and the rule applied to that path names another file. *)
Lemma session_path_moves :
  session_path PosixPath.splitext_root "a.jsonx.y" = "a.jsonx" /\
  session_path PosixPath.splitext_root "a.jsonx" = "a.json".
Proof. split; vm_compute; reflexivity. Qed.

End SessionFlow.

(* ================================================================== *)
(** * What a loaded part holds *)
(* ================================================================== *)

Module PartFacts.
Import PyFacts ArrayFacts Loader LoaderFacts RectFacts Notions.

Lemma fold_min_spec tl x :
  fold_left Z.min tl x <= x /\
  Forall (fun y => fold_left Z.min tl x <= y) tl /\
  In (fold_left Z.min tl x) (x :: tl).
Proof.
  revert x. induction tl as [|y tl IH]; intros x; simpl.
  - repeat split; [lia | constructor | auto].
  - destruct (IH (Z.min x y)) as (H1 & H2 & H3).
    repeat split; [lia | constructor; [lia | exact H2] |].
    destruct H3 as [H3|H3]; [|auto].
    rewrite <- H3.
    destruct (Z.min_spec x y) as [(_ & E)|(_ & E)]; rewrite E; auto.
Qed.

Lemma fold_max_spec tl x :
  x <= fold_left Z.max tl x /\
  Forall (fun y => y <= fold_left Z.max tl x) tl.
Proof.
  revert x. induction tl as [|y tl IH]; intros x; simpl.
  - split; [lia | constructor].
  - destruct (IH (Z.max x y)) as (H1 & H2).
    split; [lia | constructor; [lia | exact H2]].
Qed.

Lemma unit_range_pixels im :
  unit_range im ->
  In 0 (pixels im) /\ Forall (fun p => p = 0 \/ p = 1) (pixels im).
Proof.
  unfold unit_range, list_min, list_max.
  destruct (pixels im) as [|x tl]; intros (Hmin & mx & Hmax & Hle);
    [discriminate|].
  injection Hmin as Hm. injection Hmax as Hx.
  destruct (fold_min_spec tl x) as (M1 & M2 & M3).
  destruct (fold_max_spec tl x) as (X1 & X2).
  rewrite Hm in M1, M2, M3. rewrite Hx in X1, X2.
  split; [exact M3|].
  constructor; [lia|].
  rewrite Forall_forall in *. intros p Hp.
  pose proof (M2 p Hp). pose proof (X2 p Hp). lia.
Qed.

Lemma scaled_is_binary im :
  unit_range im -> binary_image (np_multiply_255 im).
Proof.
  intros H. destruct (unit_range_pixels im H) as (H0 & Hall).
  unfold binary_image, np_multiply_255. cbn [pixels]. split.
  - apply in_map_iff. now exists 0.
  - rewrite Forall_forall in *. intros q Hq.
    apply in_map_iff in Hq. destruct Hq as (p & <- & Hp).
    destruct (Hall p Hp) as [->| ->]; [left | right]; reflexivity.
Qed.

Lemma for_each_unit_Forall {A} (chk : A -> result unit) xs u :
  for_each (fun (_ : unit) x => chk x) xs tt = Ok u ->
  Forall (fun x => exists v, chk x = Ok v) xs.
Proof.
  induction xs as [|x tl IH]; simpl; intros H; [constructor|].
  apply bind_ok in H. destruct H as ([] & Hx & H).
  constructor; [eauto | auto].
Qed.

Lemma combine_range_snd {A} (r : list Z) (l : list A) a :
  List.length r = List.length l -> In a l -> exists i, In (i, a) (combine r l).
Proof.
  revert r. induction l as [|x tl IH]; intros [|i r] Hlen Hin;
    try contradiction; try discriminate.
  destruct Hin as [->|Hin].
  - exists i. simpl. auto.
  - destruct (IH r) as (j & Hj); [simpl in Hlen; lia | exact Hin |].
    exists j. simpl. auto.
Qed.

Section WithNumpy.
Context {NP : Numpy}.

Lemma check_photo_shape_ok self i a u :
  check_photo_shape self i a = Ok u ->
  declared_shape (_floor_photo_size self) (_floor_photo_ch self) (nd_shape a).
Proof.
  unfold check_photo_shape. intros H.
  apply bind_ok in H. destruct H as (s0 & H0 & H).
  apply bind_ok in H. destruct H as (s1 & H1 & H).
  apply bind_ok in H. destruct H as (u1 & Hsq & H). apply assert_ok in Hsq.
  apply bind_ok in H. destruct H as (s0' & H0' & H).
  apply bind_ok in H. destruct H as (u2 & Hsz & H). apply assert_ok in Hsz.
  apply py_index_nonneg in H0; [|lia]. apply py_index_nonneg in H1; [|lia].
  apply py_index_nonneg in H0'; [|lia].
  apply Z.eqb_eq in Hsq. apply Z.eqb_eq in Hsz.
  destruct (nd_shape a) as [|a0 [|a1 rest]]; try discriminate.
  simpl in H0, H1, H0'.
  injection H0 as E0. injection H1 as E1. injection H0' as E0'.
  assert (a0 = _floor_photo_size self) as Ea0 by congruence.
  assert (a1 = _floor_photo_size self) as Ea1 by congruence.
  clear E0 E1 E0' Hsq Hsz. subst a0 a1.
  destruct rest as [|a2 rest]; cbn [List.length Nat.eqb] in H.
  - apply assert_ok in H. apply Z.eqb_eq in H. left. split; [reflexivity | exact H].
  - apply bind_ok in H. destruct H as (s2 & H2 & H). apply assert_ok in H.
    apply py_index_nonneg in H2; [|lia]. simpl in H2. injection H2 as E2.
    apply Z.eqb_eq in H. right. exists rest. congruence.
Qed.

Lemma load_rows_photos self d part xy pd :
  load_rows self d part xy = Ok pd ->
  Forall (fun a => declared_shape (_floor_photo_size self)
                                  (_floor_photo_ch self) (nd_shape a))
         (pd_fphoto pd).
Proof.
  unfold load_rows. intros H.
  apply bind_ok in H. destruct H as (fr & _ & H).
  apply bind_ok in H. destruct H as (bounds & _ & H).
  apply bind_ok in H. destruct H as (r & _ & H).
  apply bind_ok in H. destruct H as (fp & _ & H).
  apply bind_ok in H. destruct H as (u1 & _ & H).
  apply bind_ok in H. destruct H as (u2 & Hchk & H).
  apply bind_ok in H. destruct H as (npr & _ & H).
  apply bind_ok in H. destruct H as (_id & _ & H).
  inversion H; subst pd. clear H. cbn [pd_fphoto].
  apply (for_each_unit_Forall
           (fun ia => check_photo_shape self (fst ia) (snd ia))) in Hchk.
  rewrite Forall_forall in *. intros a Ha.
  destruct (combine_range_snd (py_range 0 (Z.of_nat (List.length fp))) fp a)
    as (i & Hi); [rewrite py_range_length; lia | exact Ha |].
  destruct (Hchk _ Hi) as (v & Hv).
  eapply check_photo_shape_ok; eauto.
Qed.

Lemma staged_fphoto_incl rows rn sh g a :
  In a (pd_fphoto (fst (staged rows rn sh g))) -> In a (pd_fphoto rows).
Proof.
  unfold staged. intros H.
  assert (forall o, In o (pd_fphoto (if rn then filtered rows else rows)) ->
                    In o (pd_fphoto rows)) as Hf.
  { destruct rn; [|auto]. unfold filtered. cbn [pd_fphoto].
    intros o. apply select_In. }
  destruct sh; cbn [fst] in H; [|auto].
  unfold picked in H. cbn [pd_fphoto] in H. apply pick_In in H. auto.
Qed.

(** Where a returned stream comes from. *)
Lemma stream_origin self d g part xy rn sh b g' so :
  load_part self d g part xy rn sh = Ok (b, g') ->
  out_x b = Some so \/ out_y b = Some so ->
  exists s rows g0,
    (s = "x" \/ s = "y") /\ load_rows self d part s = Ok rows /\
    so = stream_of (fst (staged rows rn sh g0)).
Proof.
  intros H Hso. unfold load_part in H.
  apply bind_ok in H as (u1 & _ & H).
  apply bind_ok in H as (u2 & _ & H).
  apply bind_ok in H as ([ox gx] & Hx & H).
  apply bind_ok in H as ([oy gy] & Hy & H).
  cbn [fst snd] in *. inversion H; subst b g'. clear H.
  cbn [out_x out_y] in Hso.
  apply stream_branch in Hx. apply stream_branch in Hy.
  destruct Hso as [Hso|Hso].
  - destruct Hx as [(_ & -> & _) | (_ & rx & Hrx & -> & _)];
      [discriminate|].
    inversion Hso. exists "x", rx, g. auto.
  - destruct Hy as [(_ & -> & _) | (_ & ry & Hry & -> & _)];
      [discriminate|].
    inversion Hso. exists "y", ry, gx. auto.
Qed.

(** X10. Every rect image [load_part] returns is a mask: it has a pixel
    of value 0, and every pixel is 0 or 255. *)
Theorem returned_rects_are_masks self d g part xy rn sh b g' so :
  load_part self d g part xy rn sh = Ok (b, g') ->
  out_x b = Some so \/ out_y b = Some so ->
  Forall binary_image (so_rect so).
Proof.
  intros H Hso.
  destruct (stream_origin _ _ _ _ _ _ _ _ _ _ H Hso)
    as (s & rows & g0 & Hs & Hrows & ->).
  unfold stream_of. cbn [so_rect].
  rewrite Forall_forall. intros out Hout.
  apply staged_rect_incl in Hout.
  destruct (load_rows_inv _ _ _ _ _ Hrows)
    as (_ & fr & bounds & _ & _ & Hmap & _).
  apply map_r_Forall2 in Hmap.
  destruct (Forall2_In_r _ _ _ _ Hmap Hout) as (i & _ & Hi).
  destruct (load_rect_inv _ _ _ _ _ Hi) as (fri & im & _ & _ & Hu & ->).
  now apply scaled_is_binary.
Qed.

(** X11. For each stream [load_part] returns, the part has a range in the
    table; the six arrays of the stream have [len] entries each; [len]
    plus the removed count is the number of ids of the range; and nothing
    is removed without [remove_null]. *)
Theorem returned_length_accounts_for_range
    self d g part xy rn sh b g' so :
  load_part self d g part xy rn sh = Ok (b, g') ->
  out_x b = Some so \/ out_y b = Some so ->
  exists bounds,
    dict_get Z.eqb (_parts_id self) part = Ok bounds /\
    aligned (part_of_stream so) (so_len so) /\
    (so_len so + so_removed so
     = Z.to_nat (snd bounds + 1 - fst bounds))%nat /\
    (rn = false -> so_removed so = 0%nat).
Proof.
  intros H Hso.
  destruct (stream_origin _ _ _ _ _ _ _ _ _ _ H Hso)
    as (s & rows & g0 & Hs & Hrows & ->).
  pose proof (load_rows_aligned _ _ _ _ _ Hrows) as Ha.
  destruct (load_rows_inv _ _ _ _ _ Hrows)
    as (_ & fr & bounds & _ & Hb & Hmap & Hlen & _ & Hrem).
  apply map_r_length in Hmap. rewrite py_range_length in Hmap.
  exists bounds. split; [exact Hb|].
  unfold stream_of, part_of_stream.
  cbn [so_len so_removed so_rect so_fphoto so_id].
  split.
  { pose proof (staged_aligned rows _ rn sh g0 Ha) as Hst.
    destruct (fst (staged rows rn sh g0)); exact Hst. }
  rewrite (staged_length rows _ rn sh g0 Ha), staged_removed.
  destruct rn.
  - destruct (filtered_ok rows _ Ha) as (_ & _ & Hcount).
    split; [lia | discriminate].
  - split; [|intros _; exact Hrem]. lia.
Qed.

(** X12. Every floor photo [load_part] returns has a declared shape: a
    square of the floor-photo size of the loader, followed by its channel
    count, or with no channel axis when the loader has one channel. *)
Theorem returned_photos_have_declared_shape
    self d g part xy rn sh b g' so :
  load_part self d g part xy rn sh = Ok (b, g') ->
  out_x b = Some so \/ out_y b = Some so ->
  Forall (fun a => declared_shape (_floor_photo_size self)
                                  (_floor_photo_ch self) (nd_shape a))
         (so_fphoto so).
Proof.
  intros H Hso.
  destruct (stream_origin _ _ _ _ _ _ _ _ _ _ H Hso)
    as (s & rows & g0 & Hs & Hrows & ->).
  unfold stream_of. cbn [so_fphoto].
  pose proof (load_rows_photos _ _ _ _ _ Hrows) as Hall.
  rewrite Forall_forall in *. intros a Ha.
  apply Hall. eapply staged_fphoto_incl; eauto.
Qed.

End WithNumpy.

Lemma returned_rects_are_masks_witness :
  exists b g' so,
    load_part (NP := Demo.demo_numpy) Demo.demo_loader Demo.demo_disk
              0%nat 1 "x" false false = Ok (b, g') /\
    out_x b = Some so /\ Forall binary_image (so_rect so).
Proof.
  eexists _, _, _.
  assert (load_part (NP := Demo.demo_numpy) Demo.demo_loader Demo.demo_disk
            0%nat 1 "x" false false = Ok (_, _)) as Hrun
    by (vm_compute; reflexivity).
  split; [exact Hrun|]. split; [reflexivity|].
  exact (returned_rects_are_masks _ _ _ _ _ _ _ _ _ _ Hrun
           (or_introl eq_refl)).
Defined.

Lemma returned_length_accounts_for_range_witness :
  exists b g' so bounds,
    load_part (NP := Demo.demo_numpy) Demo.demo_loader Demo.demo_disk
              0%nat 1 "y" true true = Ok (b, g') /\
    out_y b = Some so /\
    dict_get Z.eqb (_parts_id Demo.demo_loader) 1 = Ok bounds /\
    (so_len so + so_removed so
     = Z.to_nat (snd bounds + 1 - fst bounds))%nat.
Proof.
  assert (load_part (NP := Demo.demo_numpy) Demo.demo_loader Demo.demo_disk
            0%nat 1 "y" true true = Ok (_, _)) as Hrun
    by (vm_compute; reflexivity).
  destruct (returned_length_accounts_for_range _ _ _ _ _ _ _ _ _ _ Hrun
              (or_intror eq_refl)) as (bounds & Hb & _ & Hcount & _).
  eexists _, _, _, bounds.
  split; [exact Hrun|]. split; [reflexivity|]. split; [exact Hb|].
  exact Hcount.
Defined.

Lemma returned_photos_have_declared_shape_witness :
  exists b g' so,
    load_part (NP := Demo.demo_numpy) Demo.demo_loader Demo.demo_disk
              0%nat 2 "x" false true = Ok (b, g') /\
    out_x b = Some so /\
    Forall (fun a => declared_shape 2 1 (nd_shape a)) (so_fphoto so).
Proof.
  eexists _, _, _.
  assert (load_part (NP := Demo.demo_numpy) Demo.demo_loader Demo.demo_disk
            0%nat 2 "x" false true = Ok (_, _)) as Hrun
    by (vm_compute; reflexivity).
  split; [exact Hrun|]. split; [reflexivity|].
  exact (returned_photos_have_declared_shape _ _ _ _ _ _ _ _ _ _ Hrun
           (or_introl eq_refl)).
Defined.

End PartFacts.

(* ================================================================== *)
(** * The order of the rows of a loaded part *)
(* ================================================================== *)

Module RowOrder.
Import PyFacts ArrayFacts Loader LoaderFacts Notions.

Lemma select_combine {A B} mask (a : list A) (b : list B) :
  select mask (combine a b) = combine (select mask a) (select mask b).
Proof.
  revert a b. induction mask as [|m mask IH]; intros [|x a] [|y b]; simpl;
    try reflexivity.
  - destruct m; [reflexivity | now rewrite combine_nil].
  - destruct m; simpl; now rewrite IH.
Qed.

Section WithNumpy.
Context {NP : Numpy}.

Lemma rows_of_filtered pd :
  rows_of (filtered pd) = select (null_mask pd) (rows_of pd).
Proof.
  symmetry. unfold rows_of, filtered.
  cbn [pd_rect pd_fphoto pd_id id_image id_rect id_project id_mutator].
  now rewrite !select_combine.
Qed.

Lemma select_keep_rows v (rect : list Z) :
  forall (a : list image) (b : list ndarray) (c e f : list Z),
    List.length a = List.length rect -> List.length b = List.length rect ->
    List.length c = List.length rect -> List.length e = List.length rect ->
    List.length f = List.length rect ->
    select (keep_mask v rect)
           (combine a (combine b (combine c (combine rect (combine e f)))))
    = filter (fun row => negb (row_rect_id row =? v))
             (combine a (combine b (combine c (combine rect (combine e f))))).
Proof.
  induction rect as [|x rect IH];
    intros [|a0 a] [|b0 b] [|c0 c] [|e0 e] [|f0 f] Ha Hb Hc He Hf;
    try discriminate; [reflexivity|].
  simpl in Ha, Hb, Hc, He, Hf.
  cbn [keep_mask map combine select filter].
  unfold row_rect_id at 1. cbn [fst snd].
  fold (keep_mask v rect).
  rewrite IH by lia.
  destruct (x =? v); reflexivity.
Qed.

Lemma stream_kept rows n g g0 :
  aligned rows n ->
  kept_rows (Some (stream_of (fst (staged rows true false g))))
            (Some (stream_of (fst (staged rows false false g0)))).
Proof.
  intros (H1 & H2 & H3 & H4 & H5 & H6).
  unfold kept_rows, staged. cbn [fst].
  assert (forall pd, rows_of (part_of_stream (stream_of pd)) = rows_of pd)
    as Hrows by reflexivity.
  rewrite !Hrows, rows_of_filtered.
  unfold null_mask, rows_of. apply select_keep_rows; congruence.
Qed.

(** X13. With [remove_null] and without [shuffle], each stream
    [load_part] returns holds the rows of the unfiltered stream whose
    rect id is not [-1], each row whole (rect image, floor photo and the
    four ids), in the order they had. *)
Theorem remove_null_keeps_rows_in_order self d g part xy b g' :
  load_part self d g part xy true false = Ok (b, g') ->
  exists b0,
    load_part self d g part xy false false = Ok (b0, g) /\
    kept_rows (out_x b) (out_x b0) /\
    kept_rows (out_y b) (out_y b0).
Proof.
  intros H. unfold load_part in H.
  apply bind_ok in H as (u1 & Hpart & H).
  apply bind_ok in H as (u2 & Hxy & H).
  apply bind_ok in H as ([ox gx] & Hx & H).
  apply bind_ok in H as ([oy gy] & Hy & H).
  cbn [fst snd] in *. inversion H; subst b g'. clear H.
  apply stream_branch in Hx. apply stream_branch in Hy.
  unfold load_part. rewrite Hpart, Hxy. cbn [bind].
  destruct Hx as [(Hwx & -> & ->) | (Hwx & rx & Hrx & -> & ->)];
    rewrite Hwx; [|rewrite load_data_part_eq, Hrx]; cbn [bind fst snd];
  (destruct Hy as [(Hwy & -> & Hgy) | (Hwy & ry & Hry & -> & Hgy)];
    rewrite Hwy; [|rewrite load_data_part_eq, Hry]; cbn [bind fst snd]);
  eexists; (split; [reflexivity|]);
  cbn [out_x out_y]; split; try exact I;
  eapply stream_kept; eapply load_rows_aligned; eauto.
Qed.

(** X14. With [xy = "xy"] and [shuffle], the two streams are reordered
    by two successive draws of the generator: stream x by the draw from
    the state the call starts in, stream y by the draw from the state the
    first draw leaves, and the call ends in the state the second draw
    leaves.  Row [j] of stream x and row [j] of stream y are thus not the
    same row of the part in general. *)
Theorem both_streams_shuffle_separately self d g part rn b g' :
  load_part self d g part "xy" rn true = Ok (b, g') ->
  exists rx ry,
    load_rows self d part "x" = Ok rx /\
    load_rows self d part "y" = Ok ry /\
    let bx := if rn then filtered rx else rx in
    let by_ := if rn then filtered ry else ry in
    let sx := np_random_shuffle g (List.length (pd_rect bx)) in
    let sy := np_random_shuffle (snd sx) (List.length (pd_rect by_)) in
    out_x b = Some (stream_of (picked bx (fst sx))) /\
    out_y b = Some (stream_of (picked by_ (fst sy))) /\
    g' = snd sy.
Proof.
  intros H. unfold load_part in H.
  apply bind_ok in H as (u1 & Hpart & H).
  apply bind_ok in H as (u2 & Hxy & H).
  apply bind_ok in H as ([ox gx] & Hx & H).
  apply bind_ok in H as ([oy gy] & Hy & H).
  cbn [fst snd] in *. inversion H; subst b g'. clear H.
  apply stream_branch in Hx. apply stream_branch in Hy.
  destruct Hx as [(Hwx & _) | (_ & rx & Hrx & -> & ->)]; [discriminate|].
  destruct Hy as [(Hwy & _) | (_ & ry & Hry & -> & ->)]; [discriminate|].
  exists rx, ry. split; [exact Hrx|]. split; [exact Hry|].
  cbn [out_x out_y]. unfold staged. cbn [fst snd]. auto.
Qed.

End WithNumpy.

Lemma remove_null_keeps_rows_in_order_witness :
  exists b g' b0,
    load_part (NP := Demo.demo_numpy) Demo.demo_loader Demo.demo_disk
              0%nat 1 "xy" true false = Ok (b, g') /\
    load_part Demo.demo_loader Demo.demo_disk 0%nat 1 "xy" false false
      = Ok (b0, 0%nat) /\
    kept_rows (out_x b) (out_x b0) /\ kept_rows (out_y b) (out_y b0).
Proof.
  assert (load_part (NP := Demo.demo_numpy) Demo.demo_loader Demo.demo_disk
            0%nat 1 "xy" true false = Ok (_, _)) as Hrun
    by (vm_compute; reflexivity).
  destruct (remove_null_keeps_rows_in_order _ _ _ _ _ _ _ Hrun)
    as (b0 & Hb0 & Hx & Hy).
  eexists _, _, b0. split; [exact Hrun|]. auto.
Defined.

Lemma both_streams_shuffle_separately_witness :
  exists b g',
    load_part (NP := Demo.demo_numpy) Demo.demo_loader Demo.demo_disk
              0%nat 1 "xy" false true = Ok (b, g') /\
    g' = 2%nat /\
    option_map (fun so => id_image (so_id so)) (out_x b) = Some [1; 0] /\
    option_map (fun so => id_image (so_id so)) (out_y b) = Some [0; 1].
Proof.
  assert (load_part (NP := Demo.demo_numpy) Demo.demo_loader Demo.demo_disk
            0%nat 1 "xy" false true = Ok (_, _)) as Hrun
    by (vm_compute; reflexivity).
  destruct (both_streams_shuffle_separately _ _ _ _ _ _ _ Hrun)
    as (rx & ry & Hrx & Hry & Hox & Hoy & Hg).
  eexists _, _. split; [exact Hrun|].
  assert (load_rows (NP := Demo.demo_numpy) Demo.demo_loader Demo.demo_disk
            1 "x" = Ok _) as Hrx' by (vm_compute; reflexivity).
  assert (load_rows (NP := Demo.demo_numpy) Demo.demo_loader Demo.demo_disk
            1 "y" = Ok _) as Hry' by (vm_compute; reflexivity).
  rewrite Hrx' in Hrx. rewrite Hry' in Hry.
  inversion Hrx; subst rx. inversion Hry; subst ry.
  split; [rewrite Hg; vm_compute; reflexivity|].
  split; [rewrite Hox | rewrite Hoy]; vm_compute; reflexivity.
Defined.

End RowOrder.

(* ================================================================== *)
(** * Showing one row *)
(* ================================================================== *)

Module PlotFacts.
Import PyFacts ArrayFacts Loader LoaderFacts PartFacts Plot.

Lemma py_index_nat {A} (xs : list A) (j : nat) (a : A) :
  py_index xs (Z.of_nat j) = Ok a <-> nth_error xs j = Some a.
Proof.
  rewrite py_index_nonneg by lia. now rewrite Nat2Z.id.
Qed.

Lemma py_index_nat_ok {A} (xs : list A) (j : nat) :
  (j < List.length xs)%nat -> exists a, py_index xs (Z.of_nat j) = Ok a.
Proof.
  intros Hj. destruct (nth_error xs j) as [a|] eqn:E.
  - exists a. now apply py_index_nat.
  - apply nth_error_None in E. lia.
Qed.

Lemma find_mutator_where_sound v m mutator a pos j :
  find_mutator mutator m (where_from pos v a) = Ok (Some j) ->
  exists k,
    j = (pos + k)%nat /\ nth_error a k = Some v /\
    nth_error mutator j = Some m /\
    forall i, (i < k)%nat -> nth_error a i = Some v ->
              nth_error mutator (pos + i) <> Some m.
Proof.
  revert pos. induction a as [|x tl IH]; intros pos H; simpl in H;
    [discriminate|].
  destruct (x =? v) eqn:Ex.
  - apply Z.eqb_eq in Ex. subst x. simpl in H.
    apply bind_ok in H. destruct H as (v' & Hv' & H).
    apply py_index_nat in Hv'.
    destruct (v' =? m) eqn:Em.
    + apply Z.eqb_eq in Em. subst v'. inversion H; subst j.
      exists 0%nat. rewrite Nat.add_0_r.
      repeat split; try assumption; try reflexivity. intros i Hi. lia.
    + destruct (IH _ H) as (k & -> & Hk & Hm & Hfirst).
      exists (S k). replace (pos + S k)%nat with (S pos + k)%nat by lia.
      repeat split; try assumption.
      intros [|i] Hi Hv.
      * rewrite Nat.add_0_r, Hv'. intros E. inversion E; subst.
        rewrite Z.eqb_refl in Em. discriminate.
      * replace (pos + S i)%nat with (S pos + i)%nat by lia.
        apply Hfirst; [lia | exact Hv].
  - destruct (IH _ H) as (k & -> & Hk & Hm & Hfirst).
    exists (S k). replace (pos + S k)%nat with (S pos + k)%nat by lia.
    repeat split; try assumption.
    intros [|i] Hi Hv.
    + simpl in Hv. inversion Hv; subst. rewrite Z.eqb_refl in Ex. discriminate.
    + replace (pos + S i)%nat with (S pos + i)%nat by lia.
      apply Hfirst; [lia | exact Hv].
Qed.

Lemma find_mutator_total mutator m rid :
  Forall (fun j => (j < List.length mutator)%nat) rid ->
  exists r, find_mutator mutator m rid = Ok r.
Proof.
  induction 1 as [|j tl Hj _ IH]; simpl; [eauto|].
  destruct (py_index_nat_ok mutator j Hj) as (v & ->). cbn [bind].
  destruct (v =? m); eauto.
Qed.

Lemma mem_Z_In x l : Manifest.mem_Z x l = true <-> In x l.
Proof.
  unfold Manifest.mem_Z. rewrite existsb_exists. split.
  - intros (y & Hy & E). apply Z.eqb_eq in E. now subst.
  - intros H. exists x. split; [exact H | apply Z.eqb_refl].
Qed.

Section WithNumpy.
Context {NP : Numpy}.

Lemma plot_id_inv o xy imid title fig :
  plot_image_example_id o xy imid title = Ok fig ->
  exists so,
    stream_entry o xy = Ok so /\
    0 <= imid < Z.of_nat (so_len so) /\
    nth_error (so_rect so) (Z.to_nat imid) = Some (fig_rect fig) /\
    nth_error (so_fphoto so) (Z.to_nat imid) = Some (fig_fphoto fig) /\
    fig_title fig =
      (if String.eqb title EmptyString
       then ("Object ID " ++ py_str_int imid ++ nl ++ "Partition "
             ++ py_str_int (out_part o) ++ " at Data " ++ xy)%string
       else title).
Proof.
  unfold plot_image_example_id. intros H.
  apply bind_ok in H. destruct H as (u1 & _ & H).
  apply bind_ok in H. destruct H as (so & Hso & H).
  apply bind_ok in H. destruct H as (u2 & Hb & H). apply assert_ok in Hb.
  apply bind_ok in H. destruct H as (l & Hl & H).
  apply bind_ok in H. destruct H as (r & Hr & H).
  apply andb_true_iff in Hb. destruct Hb as (Hb1 & Hb2).
  apply Z.leb_le in Hb1. apply Z.leb_le in Hb2.
  apply py_index_nonneg in Hl; [|lia]. apply py_index_nonneg in Hr; [|lia].
  inversion H; subst fig. cbn [fig_rect fig_fphoto fig_title].
  exists so. repeat split; try assumption; lia.
Qed.

(** X15. When [plot_image_example_rect_id] returns, the figure it shows
    is that of the first row of the stream whose rect id and mutator id
    are the ones asked for: the rect image and the floor photo at that
    position, under a title that names the two ids, the part and the
    stream. *)
Theorem rect_plot_shows_first_match o xy rect_id mutator_id fig :
  plot_image_example_rect_id o xy rect_id mutator_id = Ok fig ->
  exists so j,
    stream_entry o xy = Ok so /\
    nth_error (id_rect (so_id so)) j = Some rect_id /\
    nth_error (id_mutator (so_id so)) j = Some mutator_id /\
    (forall i, (i < j)%nat ->
       nth_error (id_rect (so_id so)) i = Some rect_id ->
       nth_error (id_mutator (so_id so)) i <> Some mutator_id) /\
    (j < so_len so)%nat /\
    nth_error (so_rect so) j = Some (fig_rect fig) /\
    nth_error (so_fphoto so) j = Some (fig_fphoto fig) /\
    fig_title fig =
      ("Object Rect ID " ++ py_str_int rect_id ++ " Mutator "
       ++ py_str_int mutator_id ++ nl ++ "Partition "
       ++ py_str_int (out_part o) ++ " at Data " ++ xy)%string.
Proof.
  unfold plot_image_example_rect_id. intros H.
  apply bind_ok in H. destruct H as (u1 & _ & H).
  apply bind_ok in H. destruct H as (so & Hso & H).
  destruct (negb (Manifest.mem_Z rect_id (id_rect (so_id so))));
    [discriminate|].
  apply bind_ok in H. destruct H as (ri & Hfind & H).
  destruct ri as [j|]; [|discriminate].
  unfold np_where_eq in Hfind.
  destruct (find_mutator_where_sound _ _ _ _ _ _ Hfind)
    as (k & Hj & Hrect & Hmut & Hfirst).
  simpl in Hj. subst k.
  destruct (plot_id_inv _ _ _ _ _ H)
    as (so' & Hso' & Hb & Hl & Hr & Ht).
  rewrite Hso in Hso'. inversion Hso'; subst so'. clear Hso'.
  rewrite Nat2Z.id in Hl, Hr.
  exists so, j. repeat split; try assumption; try lia.
Qed.

(** X17. What the two plotting methods refuse, for a selector and a
    bundle that pass their first two assertions.  A rect id that does not
    occur in the stream raises [ValueError] with a message whose
    placeholder is left unfilled; a rect id that occurs, but in no row
    with the mutator id asked for, raises [ValueError] with a message that
    names the mutator id; and [plot_image_example_id] raises the
    assertion ['Image ID overflows'] for every position below 0 or from
    the length of the stream on, negative positions included. *)
Theorem plot_rejections o xy so rect_id mutator_id imid title :
  assert_xy o xy = Ok tt ->
  stream_entry o xy = Ok so ->
  (~ In rect_id (id_rect (so_id so)) ->
   plot_image_example_rect_id o xy rect_id mutator_id
   = Raise (ValueError "Rect ID <{0}> does not exist in partition data")) /\
  (In rect_id (id_rect (so_id so)) ->
   List.length (id_mutator (so_id so)) = List.length (id_rect (so_id so)) ->
   (forall j, nth_error (id_rect (so_id so)) j = Some rect_id ->
              nth_error (id_mutator (so_id so)) j <> Some mutator_id) ->
   plot_image_example_rect_id o xy rect_id mutator_id
   = Raise (ValueError
              ("Rect with mutator ID <" ++ py_str_int mutator_id
               ++ "> does not exist in partition data")%string)) /\
  (imid < 0 \/ Z.of_nat (so_len so) <= imid ->
   plot_image_example_id o xy imid title
   = Raise (AssertionError "Image ID overflows")).
Proof.
  intros Hax Hse. repeat split.
  - intros Hnot. unfold plot_image_example_rect_id.
    rewrite Hax, Hse. cbn [bind].
    destruct (Manifest.mem_Z rect_id (id_rect (so_id so))) eqn:E;
      [|reflexivity].
    apply mem_Z_In in E. contradiction.
  - intros Hin Hlen Hnone. unfold plot_image_example_rect_id.
    rewrite Hax, Hse. cbn [bind].
    replace (Manifest.mem_Z rect_id (id_rect (so_id so))) with true
      by (symmetry; now apply mem_Z_In).
    cbn [negb].
    destruct (find_mutator_total (id_mutator (so_id so)) mutator_id
                (np_where_eq (id_rect (so_id so)) rect_id)) as (r & Hr).
    { pose proof (where_from_bounds 0 rect_id (id_rect (so_id so))) as Hw.
      unfold np_where_eq. rewrite Forall_forall in *. intros i Hi.
      pose proof (Hw i Hi). lia. }
    rewrite Hr. cbn [bind].
    destruct r as [j|]; [|reflexivity].
    exfalso. unfold np_where_eq in Hr.
    destruct (find_mutator_where_sound _ _ _ _ _ _ Hr)
      as (k & Hj & Hk & Hm & _).
    simpl in Hj. subst k. exact (Hnone j Hk Hm).
  - intros Hout. unfold plot_image_example_id.
    rewrite Hax, Hse. cbn [bind].
    replace ((0 <=? imid) && (imid <=? Z.of_nat (so_len so) - 1))
      with false; [reflexivity|].
    symmetry. apply andb_false_iff.
    destruct Hout; [left; apply Z.leb_gt | right; apply Z.leb_gt]; lia.
Qed.

End WithNumpy.

Lemma rect_plot_shows_first_match_witness :
  exists b g' fig,
    load_part (NP := Demo.demo_numpy) Demo.demo_loader Demo.demo_disk
              0%nat 2 "x" false false = Ok (b, g') /\
    plot_image_example_rect_id b "x" 13 8 = Ok fig /\
    option_map (fun so => nth_error (so_rect so) 1) (out_x b)
      = Some (Some (fig_rect fig)).
Proof.
  assert (load_part (NP := Demo.demo_numpy) Demo.demo_loader Demo.demo_disk
            0%nat 2 "x" false false = Ok (_, _)) as Hrun
    by (vm_compute; reflexivity).
  match type of Hrun with
  | _ = Ok (?b, _) =>
      assert (plot_image_example_rect_id (NP := Demo.demo_numpy) b "x" 13 8
              = Ok _) as Hplot
        by (vm_compute; reflexivity)
  end.
  destruct (rect_plot_shows_first_match _ _ _ _ _ Hplot)
    as (so & j & _ & _ & _ & _ & _ & _ & _ & _).
  eexists _, _, _. split; [exact Hrun|]. split; [exact Hplot|].
  vm_compute. reflexivity.
Defined.

Lemma plot_rejections_witness :
  exists b g',
    load_part (NP := Demo.demo_numpy) Demo.demo_loader Demo.demo_disk
              0%nat 2 "x" false false = Ok (b, g') /\
    plot_image_example_rect_id b "x" 99 6
    = Raise (ValueError "Rect ID <{0}> does not exist in partition data") /\
    plot_image_example_id b "x" (-1) EmptyString
    = Raise (AssertionError "Image ID overflows").
Proof.
  assert (load_part (NP := Demo.demo_numpy) Demo.demo_loader Demo.demo_disk
            0%nat 2 "x" false false = Ok (_, _)) as Hrun
    by (vm_compute; reflexivity).
  eexists _, _. split; [exact Hrun|].
  match type of Hrun with
  | _ = Ok (?b, _) =>
      pose proof (plot_rejections (NP := Demo.demo_numpy) b "x" _ 99 6 (-1)
                    EmptyString eq_refl eq_refl) as (H1 & _ & H3)
  end.
  split.
  - apply H1. vm_compute. intuition discriminate.
  - apply H3. left. lia.
Defined.

End PlotFacts.

(* ================================================================== *)
(** * Manifests the parser refuses *)
(* ================================================================== *)

Module ParserErrors.
Import PyFacts Manifest.

Lemma read_photo_files_blank lines :
  Forall (fun l => strip l = "ID,File" \/ strip l = EmptyString) lines ->
  read_photo_files lines = [].
Proof.
  unfold read_photo_files.
  induction 1 as [|l tl Hl _ IH]; simpl; [reflexivity|].
  destruct Hl as [-> | ->]; simpl; exact IH.
Qed.

(** X18. What [_load_photo_parts] raises on three kinds of input.  A
    missing file raises the assertion that names the file.  A file that
    holds nothing but the header line and blank lines raises [IndexError]
    (from the look-up of the last line), not an assertion.  A file whose
    last line belongs to part 1 or below raises the assertion on the
    number of parts. *)
Theorem parser_rejections fs filename :
  (fs filename = None ->
   _load_photo_parts fs filename
   = Raise (AssertionError
              ("Floor photo file <" ++ filename ++ "> does not exist")%string))
  /\
  (forall lines,
      fs filename = Some lines ->
      Forall (fun l => strip l = "ID,File" \/ strip l = EmptyString) lines ->
      _load_photo_parts fs filename = Raise IndexError)
  /\
  (forall lines last p,
      fs filename = Some lines ->
      py_index (read_photo_files lines) (-1) = Ok last ->
      _get_part last = Ok p -> p <= 1 ->
      _load_photo_parts fs filename
      = Raise (AssertionError
                 "Number of parts cannot be lower or equal than 1")).
Proof.
  unfold _load_photo_parts. repeat split.
  - intros ->. reflexivity.
  - intros lines -> Hblank. cbn [bind].
    now rewrite (read_photo_files_blank lines Hblank).
  - intros lines last p -> Hlast Hp Hle. cbn [bind].
    rewrite Hlast. cbn [bind]. rewrite Hp. cbn [bind].
    replace (p >? 1) with false by (rewrite Z.gtb_ltb; symmetry; apply Z.ltb_ge; lia).
    reflexivity.
Qed.

Lemma parser_rejections_witness :
  _load_photo_parts (fun _ => Some ["ID,File"; " "; EmptyString]) "blank.csv"
  = Raise IndexError.
Proof.
  refine (proj1 (proj2 (parser_rejections
                          (fun _ => Some ["ID,File"; " "; EmptyString])
                          "blank.csv")) _ eq_refl _).
  constructor; [left; reflexivity|].
  constructor; [right; reflexivity|].
  constructor; [right; reflexivity | constructor].
Defined.

End ParserErrors.

(* ================================================================== *)
(** * The pixel contract of the rect images *)
(* ================================================================== *)

Module PixelContract.
Import PyFacts ArrayFacts PartTable Loader LoaderFacts RectFacts PartFacts.

Lemma py_range_split a i b :
  a <= i <= b -> py_range a b = py_range a i ++ py_range i b.
Proof.
  intros Hi.
  remember (Z.to_nat (i - a)) as n eqn:Hn.
  revert a Hi Hn. induction n as [|n IH]; intros a Hi Hn.
  - assert (a = i) as -> by lia.
    unfold py_range at 2. replace (Z.to_nat (i - i)) with 0%nat by lia.
    reflexivity.
  - rewrite (py_range_cons a b) by lia. rewrite (py_range_cons a i) by lia.
    rewrite (IH (a + 1)) by lia. reflexivity.
Qed.

Lemma map_r_first_raise {A B} (f : A -> result B) xs1 x xs2 e :
  Forall (fun y => exists b, f y = Ok b) xs1 ->
  f x = Raise e ->
  map_r f (xs1 ++ x :: xs2) = Raise e.
Proof.
  intros Hok Hx. induction Hok as [|y tl (b & Hy) _ IH]; simpl.
  - now rewrite Hx.
  - rewrite Hy. cbn [bind]. now rewrite IH.
Qed.

Section WithNumpy.
Context {NP : Numpy}.

(** The assertion that fails on an image out of range, with its
    message. *)
Lemma scale_rect_raise i part im mn mx :
  list_min (pixels im) = Some mn -> list_max (pixels im) = Some mx ->
  mn <> 0 \/ 1 < mx ->
  scale_rect i part im
  = Raise (AssertionError
             (if mn =? 0 then _max_err i part mx else _min_err i part mx)).
Proof.
  intros Hmin Hmax Hbad. unfold scale_rect, np_min, np_max.
  rewrite Hmin, Hmax. cbn [bind].
  destruct (Z.eqb_spec mn 0) as [->|Hne]; cbn [bind].
  - destruct (Z.leb_spec mx 1) as [Hle|Hgt]; [|reflexivity].
    destruct Hbad; [contradiction | lia].
  - reflexivity.
Qed.

(** The multiplication on an image in range: the shape is kept, a pixel
    0 stays 0 and a pixel 1 becomes 255. *)
Lemma scaled_pixels im :
  unit_range im ->
  shape (np_multiply_255 im) = shape im /\
  pixels (np_multiply_255 im) = map (Z.mul 255) (pixels im).
Proof.
  intros H. destruct (unit_range_pixels im H) as (_ & Hall).
  unfold np_multiply_255. cbn [shape pixels]. split; [reflexivity|].
  apply map_ext_in. intros p Hp. rewrite Forall_forall in Hall.
  destruct (Hall p Hp) as [-> | ->]; reflexivity.
Qed.

Lemma load_rect_raise self fr part i fri im mn mx :
  py_index fr i = Ok fri -> check_rect_shape self fri = Ok tt ->
  prepare_rect self fri = Ok im ->
  list_min (pixels im) = Some mn -> list_max (pixels im) = Some mx ->
  mn <> 0 \/ 1 < mx ->
  load_rect self fr part i
  = Raise (AssertionError
             (if mn =? 0 then _max_err i part mx else _min_err i part mx)).
Proof.
  intros Hfri Hshape Him Hmin Hmax Hbad. unfold load_rect.
  rewrite Hfri. cbn [bind]. rewrite Hshape. cbn [bind].
  rewrite Him. cbn [bind]. now apply scale_rect_raise.
Qed.

Lemma load_rows_raise self d part xy fr bounds e :
  xy = "x" \/ xy = "y" ->
  np_load d (rect_file self xy) = Ok fr ->
  dict_get Z.eqb (_parts_id self) part = Ok bounds ->
  map_r (load_rect self fr part) (py_range (fst bounds) (snd bounds + 1))
    = Raise e ->
  load_rows self d part xy = Raise e.
Proof.
  intros Hxy Hfr Hb Hr. unfold load_rows.
  destruct Hxy as [-> | ->]; unfold rect_file in Hfr; cbn in Hfr;
    cbn [String.eqb Ascii.eqb Bool.eqb]; rewrite Hfr; cbn [bind];
    rewrite Hb; cbn [bind]; rewrite Hr; reflexivity.
Qed.

Lemma load_part_raise_same self d g part xy rn sh e :
  xy = "x" \/ xy = "y" ->
  1 <= part <= _num_parts self ->
  load_rows self d part xy = Raise e ->
  load_part self d g part xy rn sh = Raise e.
Proof.
  intros Hxy Hpart He. unfold load_part.
  replace ((1 <=? part) && (part <=? _num_parts self)) with true
    by (symmetry; apply andb_true_iff; split; apply Z.leb_le; lia).
  cbn [assert_ bind].
  destruct Hxy as [-> | ->]; cbn [String.eqb Ascii.eqb Bool.eqb orb];
    cbn [assert_ bind snd]; rewrite load_data_part_eq, He; reflexivity.
Qed.

(** C7. For the rect images of the requested part, after the dtype
    coercion, the resampling and the channel replication:
    (1) an image whose minimum is not 0 or whose maximum exceeds 1 makes
    the whole load raise, for the stream alone and together with the
    other stream, so that no partial result is returned;
    (2) when the images before it in the part load, that exception is the
    [AssertionError] of the failed check with its message (the one on the
    minimum when the minimum is not 0, else the one on the maximum), for
    [_load_data_part] and, on a part number [load_part] admits, for
    [load_part];
    (3) when the load returns, every rect image it returns has the shape
    of such a prepared image in range and its pixels multiplied by 255, a
    pixel 0 staying 0 and a pixel 1 becoming 255;
    (4) and the check lets every image in range through to that
    multiplication. *)
Theorem rect_pixel_contract self d g part xy remove_null shuffle fr bounds :
  xy = "x" \/ xy = "y" ->
  np_load d (rect_file self xy) = Ok fr ->
  dict_get Z.eqb (_parts_id self) part = Ok bounds ->
  (forall i fri im,
      fst bounds <= i <= snd bounds ->
      py_index fr i = Ok fri -> prepare_rect self fri = Ok im ->
      ~ unit_range im ->
      (exists e, _load_data_part self d g part xy remove_null shuffle = Raise e)
      /\ (exists e, load_part self d g part xy remove_null shuffle = Raise e)
      /\ (exists e, load_part self d g part "xy" remove_null shuffle = Raise e))
  /\
  (forall i fri im mn mx,
      fst bounds <= i <= snd bounds ->
      (forall i', fst bounds <= i' < i ->
                  exists out, load_rect self fr part i' = Ok out) ->
      py_index fr i = Ok fri -> check_rect_shape self fri = Ok tt ->
      prepare_rect self fri = Ok im ->
      list_min (pixels im) = Some mn -> list_max (pixels im) = Some mx ->
      mn <> 0 \/ 1 < mx ->
      _load_data_part self d g part xy remove_null shuffle
      = Raise (AssertionError
                 (if mn =? 0 then _max_err i part mx
                  else _min_err i part mx)) /\
      (1 <= part <= _num_parts self ->
       load_part self d g part xy remove_null shuffle
       = Raise (AssertionError
                  (if mn =? 0 then _max_err i part mx
                   else _min_err i part mx))))
  /\
  (forall pd g',
      _load_data_part self d g part xy remove_null shuffle = Ok (pd, g') ->
      Forall (fun out => exists i fri im,
                fst bounds <= i <= snd bounds /\
                py_index fr i = Ok fri /\ prepare_rect self fri = Ok im /\
                unit_range im /\
                shape out = shape im /\
                pixels out = map (Z.mul 255) (pixels im))
             (pd_rect pd))
  /\
  (forall i im,
      unit_range im ->
      exists out,
        scale_rect i part im = Ok out /\
        shape out = shape im /\
        pixels out = map (Z.mul 255) (pixels im)).
Proof.
  intros Hxy Hfr Hb. split; [|split; [|split]].
  - intros i fri im Hi Hfri Him Hn.
    destruct (load_rect_fail self fr part i fri im Hfri Him Hn) as (e & He).
    destruct (load_rows_rect_fail self d part xy fr bounds i e Hxy Hfr Hb Hi He)
      as (e' & Hrows).
    split; [|split].
    + exists e'. now rewrite load_data_part_eq, Hrows.
    + apply (load_part_raise self d g part xy _ _ e' Hxy Hrows). now left.
    + apply (load_part_raise self d g part xy _ _ e' Hxy Hrows). now right.
  - intros i fri im mn mx Hi Hbefore Hfri Hshape Him Hmin Hmax Hbad.
    pose proof (load_rect_raise self fr part i fri im mn mx
                  Hfri Hshape Him Hmin Hmax Hbad) as Hrect.
    assert (map_r (load_rect self fr part)
                  (py_range (fst bounds) (snd bounds + 1))
            = Raise (AssertionError
                       (if mn =? 0 then _max_err i part mx
                        else _min_err i part mx))) as Hmap.
    { rewrite (py_range_split (fst bounds) i (snd bounds + 1)) by lia.
      rewrite (py_range_cons i (snd bounds + 1)) by lia.
      apply map_r_first_raise; [|exact Hrect].
      apply Forall_forall. intros i' Hi'. apply py_range_In in Hi'.
      now apply Hbefore. }
    pose proof (load_rows_raise self d part xy fr bounds _ Hxy Hfr Hb Hmap)
      as Hrows.
    split.
    + now rewrite load_data_part_eq, Hrows.
    + intros Hpart. now apply load_part_raise_same.
  - intros pd g' H. rewrite load_data_part_eq in H.
    apply bind_ok in H as (rows & Hrows & H). inversion H as [Hst].
    apply load_rows_inv in Hrows.
    destruct Hrows as (_ & fr' & bounds' & Hfr' & Hb' & Hr & _).
    rewrite Hfr in Hfr'. rewrite Hb in Hb'.
    inversion Hfr'; inversion Hb'; subst fr' bounds'.
    apply Forall_forall. intros out Hout.
    assert (In out (pd_rect rows)) as Hin
      by (apply (staged_rect_incl rows remove_null shuffle g);
          now rewrite Hst).
    apply map_r_Forall2 in Hr.
    destruct (Forall2_In_r _ _ _ _ Hr Hin) as (i & Hi & Hload).
    apply py_range_In in Hi. apply load_rect_inv in Hload.
    destruct Hload as (fri & im & Hfri & Him & Hu & Heq).
    destruct (scaled_pixels im Hu) as (Hsh & Hpx).
    exists i, fri, im. subst out.
    split; [lia|].
    exact (conj Hfri (conj Him (conj Hu (conj Hsh Hpx)))).
  - intros i im Hu. exists (np_multiply_255 im).
    destruct (scaled_pixels im Hu) as (Hsh & Hpx).
    split; [now apply scale_rect_complete|]. now split.
Qed.

End WithNumpy.

Lemma rect_pixel_contract_witness :
  load_part (NP := Demo.demo_numpy) Demo.demo_loader Demo.bad_disk
            0%nat 1 "x" true false
  = Raise (AssertionError (_max_err 1 1 2)).
Proof.
  pose proof (rect_pixel_contract (NP := Demo.demo_numpy) Demo.demo_loader
                Demo.bad_disk 0%nat 1 "x" true false _ (0, 1)
                (or_introl eq_refl) eq_refl eq_refl) as (_ & Hexact & _).
  refine (proj2 (Hexact 1 (Demo.img 1 0 2 0) (mkImage [2; 2] [1; 0; 2; 0])
                   0 2 _ _ eq_refl eq_refl eq_refl eq_refl eq_refl _) _).
  - cbn [fst snd]. lia.
  - cbn [fst snd]. intros i' Hi'. assert (i' = 0) as -> by lia.
    eexists. vm_compute. reflexivity.
  - right. lia.
  - cbn [_num_parts Demo.demo_loader Demo.loader_of]. lia.
Defined.

End PixelContract.
